(** * Form builder: the builder reducer and the response-submission route

    A shallow embedding of two parts of the form-builder application:

    - [builderReducer] of the client-side form builder (field CRUD,
      reordering, duplication, theme tokens), and
    - the [POST] handler of the owner-side responses route: the request
      schema [createResponseSchema], the per-field answer validation and the
      hand-over to persistence.

    JavaScript strings are embedded as [string]s whose characters stand for
    code units below 256; numbers are embedded as the rationals that the
    doubles denote, extended with the two infinities and NaN. *)

From Stdlib Require Import List String Ascii Bool Arith ZArith QArith Qabs Lia.
From Stdlib Require Import DecimalString Permutation Sorted.
Import ListNotations.

Set Warnings "-register-all".
Local Close Scope Q_scope.
Local Open Scope string_scope.
Local Open Scope bool_scope.
Local Open Scope list_scope.

(** ** The JavaScript runtime pieces the code relies on *)

Module Js.

(** [number]: an IEEE 754 double seen from the outside.  A finite value
    is the rational that the double denotes.  The sign of zero is not kept:
    the code at hand compares numbers, tests them with [Number.isFinite]
    and [Number.isInteger] and stores them as JSON, none of which tells
    [-0] from [0]. *)
Inductive number :=
| Finite (q : Q)
| Infinity (negative : bool)
| NaN.

Definition Number_isFinite (n : number) : bool :=
  match n with Finite _ => true | _ => false end.

Definition Number_isInteger (n : number) : bool :=
  match n with
  | Finite q => (Zpos (Qden (Qred q)) =? 1)%Z
  | _ => false
  end.

(** For positive [a] and [d], the integer [k] with
    [2^k <= a/d < 2^(k+1)]. *)
Definition floorLog2 (a d : Z) : Z :=
  let k := (Z.log2 a - Z.log2 d)%Z in
  let below :=
    if (0 <=? k)%Z then (a <? d * 2 ^ k)%Z else (a * 2 ^ (- k) <? d)%Z in
  if below then (k - 1)%Z else k.

(** The integer nearest to [num/den], the even one of two that are equally
    near ([num] not negative, [den] positive). *)
Definition roundHalfEven (num den : Z) : Z :=
  let m := (num / den)%Z in
  let r := (num mod den)%Z in
  if (2 * r <? den)%Z then m
  else if (den <? 2 * r)%Z then (m + 1)%Z
  else if Z.even m then m else (m + 1)%Z.

(** The Number value for a mathematical value: the double nearest to it,
    ties to the even significand, whatever the number of digits of the
    literal (the engines round exactly).  A double is [m * 2^e] with [m < 2^53]
    and [e >= -1074]; the exponent is the one that gives the significand
    its 53 bits, or -1074 for the subnormal values, and a result from
    [2^1024] on is an infinity. *)
Definition roundMV (q : Q) : number :=
  let a := Z.abs (Qnum q) in
  let d := Zpos (Qden q) in
  if (a =? 0)%Z then Finite 0%Q
  else
    let e := Z.max (floorLog2 a d - 52) (-1074) in
    let m :=
      if (0 <=? e)%Z then roundHalfEven a (d * 2 ^ e)
      else roundHalfEven (a * 2 ^ (- e)) d in
    if (1024 <=? Z.log2 m + e)%Z then Infinity (Qnum q <? 0)%Z
    else
      let magnitude :=
        if (0 <=? e)%Z then inject_Z (m * 2 ^ e)
        else Qmake m (Z.to_pos (2 ^ (- e))) in
      Finite (Qred (if (Qnum q <? 0)%Z then Qopp magnitude else magnitude)).

Definition ofZ (z : Z) : number := roundMV (inject_Z z).

Definition negate (n : number) : number :=
  match n with
  | Finite q => Finite (Qred (Qopp q))
  | Infinity s => Infinity (negb s)
  | NaN => NaN
  end.

(** [a <= b] on numbers; false as soon as one side is NaN. *)
Definition leb (a b : number) : bool :=
  match a, b with
  | NaN, _ | _, NaN => false
  | Infinity true, _ => true
  | _, Infinity false => true
  | Finite x, Finite y => Qle_bool x y
  | _, _ => false
  end.

(** [a < b] *)
Definition ltb (a b : number) : bool :=
  match a, b with
  | NaN, _ | _, NaN => false
  | _, _ => negb (leb b a)
  end.

(** WhiteSpace and LineTerminator code units below 256: TAB, LF, VT, FF, CR,
    SP and NBSP.  This is the set [String.prototype.trim] strips and the
    regular-expression class [\s] matches. *)
Definition isWhiteSpace (c : ascii) : bool :=
  let n := nat_of_ascii c in
  ((9 <=? n)%nat && (n <=? 13)%nat) || (n =? 32)%nat || (n =? 160)%nat.

Fixpoint trimStartChars (s : list ascii) : list ascii :=
  match s with
  | c :: s' => if isWhiteSpace c then trimStartChars s' else s
  | [] => []
  end.

Definition trimChars (s : list ascii) : list ascii :=
  rev (trimStartChars (rev (trimStartChars s))).

(** [s.trim()] *)
Definition trim (s : string) : string :=
  string_of_list_ascii (trimChars (list_ascii_of_string s)).

(** Digits of a numeric literal in the given radix (at most 16). *)
Definition digitOf (radix : Z) (c : ascii) : option Z :=
  let n := Z.of_nat (nat_of_ascii c) in
  let d :=
    if ((48 <=? n) && (n <=? 57))%Z then Some (n - 48)%Z
    else if ((97 <=? n) && (n <=? 102))%Z then Some (n - 87)%Z
    else if ((65 <=? n) && (n <=? 70))%Z then Some (n - 55)%Z
    else None in
  match d with
  | Some v => if (v <? radix)%Z then Some v else None
  | None => None
  end.

Fixpoint spanDigits (radix : Z) (s : list ascii) : list Z * list ascii :=
  match s with
  | c :: s' =>
      match digitOf radix c with
      | Some d => let (ds, rest) := spanDigits radix s' in (d :: ds, rest)
      | None => ([], s)
      end
  | [] => ([], [])
  end.

Definition digitsValue (radix : Z) (ds : list Z) : Z :=
  fold_left (fun acc d => (acc * radix + d)%Z) ds 0%Z.

Definition isNil {A} (l : list A) : bool :=
  match l with [] => true | _ => false end.

(** ExponentPart_opt followed by the end of the literal. *)
Definition parseExponent (s : list ascii) : option Z :=
  match s with
  | [] => Some 0%Z
  | c :: s' =>
      if (Ascii.eqb c "e" || Ascii.eqb c "E")%char then
        let '(neg, s'') :=
          match s' with
          | "+"%char :: t => (false, t)
          | "-"%char :: t => (true, t)
          | _ => (false, s')
          end in
        let (ds, rest) := spanDigits 10 s'' in
        if isNil ds || negb (isNil rest) then None
        else Some (if neg then (- digitsValue 10 ds)%Z else digitsValue 10 ds)
      else None
  end.

(** StrUnsignedDecimalLiteral: [Infinity], [d+.d*(e..)?], [.d+(e..)?] or
    [d+(e..)?]. *)
Definition parseUnsignedDecimal (s : list ascii) : number :=
  if String.eqb (string_of_list_ascii s) "Infinity" then Infinity false
  else
    let (ints, r1) := spanDigits 10 s in
    let '(fracs, r2, ok) :=
      match r1 with
      | "."%char :: t =>
          let (fs, r) := spanDigits 10 t in
          (fs, r, negb (isNil ints && isNil fs))
      | _ => ([], r1, negb (isNil ints))
      end in
    if ok then
      match parseExponent r2 with
      | Some e =>
          let mantissa := digitsValue 10 (ints ++ fracs) in
          roundMV (Qmult (inject_Z mantissa)
                     (Qpower (inject_Z 10) (e - Z.of_nat (List.length fracs))))
      | None => NaN
      end
    else NaN.

(** NonDecimalIntegerLiteral: [0b..], [0o..], [0x..] (no sign). *)
Definition parseNonDecimal (s : list ascii) : option number :=
  match s with
  | "0"%char :: p :: t =>
      let radix :=
        if (Ascii.eqb p "x" || Ascii.eqb p "X")%char then Some 16%Z
        else if (Ascii.eqb p "o" || Ascii.eqb p "O")%char then Some 8%Z
        else if (Ascii.eqb p "b" || Ascii.eqb p "B")%char then Some 2%Z
        else None in
      match radix with
      | Some r =>
          let (ds, rest) := spanDigits r t in
          Some (if isNil ds || negb (isNil rest) then NaN
                else ofZ (digitsValue r ds))
      | None => None
      end
  | _ => None
  end.

(** [Number(s)] on a string argument (StringToNumber). *)
Definition Number (s : string) : number :=
  match trimChars (list_ascii_of_string s) with
  | [] => Finite 0%Q
  | "+"%char :: t => parseUnsignedDecimal t
  | "-"%char :: t => negate (parseUnsignedDecimal t)
  | t =>
      match parseNonDecimal t with
      | Some n => n
      | None => parseUnsignedDecimal t
      end
  end.

(** [Array.prototype.findIndex]: the first index whose element satisfies
    the predicate, [-1] when there is none. *)
Fixpoint findIndex {A} (p : A -> bool) (l : list A) : Z :=
  match l with
  | [] => (-1)%Z
  | x :: l' =>
      if p x then 0%Z
      else let i := findIndex p l' in
           if (i <? 0)%Z then (-1)%Z else (i + 1)%Z
  end.

(** [l.splice(start, 0, x)] on a copy: insert [x] before position [start]
    (clamped to the length). *)
Definition spliceInsert {A} (start : nat) (x : A) (l : list A) : list A :=
  firstn start l ++ x :: skipn start l.

(** [l.splice(start, 1)] on a copy: the removed elements and what is left. *)
Definition spliceRemove {A} (start : nat) (l : list A) : list A * list A :=
  (firstn 1 (skipn start l), firstn start l ++ skipn (S start) l).

(** Canonicalisation of a code unit under the [i] flag (no [u] flag): ASCII
    lower-case letters go to upper case.  Code units from 128 on never
    canonicalise to an ASCII letter, so against an ASCII pattern they are
    left as they are. *)
Definition canonicalize (c : ascii) : ascii :=
  let n := nat_of_ascii c in
  if ((97 <=? n)%nat && (n <=? 122)%nat) then ascii_of_nat (n - 32) else c.

Fixpoint mapString (f : ascii -> ascii) (s : string) : string :=
  match s with
  | EmptyString => EmptyString
  | String c s' => String (f c) (mapString f s')
  end.

Definition eqbIgnoreCase (a b : string) : bool :=
  String.eqb (mapString canonicalize a) (mapString canonicalize b).

End Js.

(** ** The builder state machine *)

Module Builder.

Inductive FieldType :=
| short_text | long_text | email | number | dropdown | checkbox | date.

Inductive ThemeMode := light | dark.
Inductive BuilderMode := edit | preview.
Inductive Direction := up | down.

Module ThemeTag.
Inductive t := formTitle | sectionTitle | label | helper | input | button.
End ThemeTag.

(** [keyof ThemeToken] *)
Module TokenKey.
Inductive t :=
| color | fontSize | fontFamily | fontWeight | background | borderColor.
End TokenKey.

(** The payload value of UPDATE_THEME_TOKEN is [string | number] whatever
    the key, so at run time every attribute of a token holds one or the
    other. *)
Inductive AttrValue :=
| Str (s : string)
| Num (n : Js.number).

Module ThemeToken.
Record t := {
  color : AttrValue;
  fontSize : AttrValue;
  fontFamily : AttrValue;
  fontWeight : AttrValue;
  background : option AttrValue;
  borderColor : option AttrValue
}.

(** [token[key]] *)
Definition get (k : TokenKey.t) (tok : t) : option AttrValue :=
  match k with
  | TokenKey.color => Some (color tok)
  | TokenKey.fontSize => Some (fontSize tok)
  | TokenKey.fontFamily => Some (fontFamily tok)
  | TokenKey.fontWeight => Some (fontWeight tok)
  | TokenKey.background => background tok
  | TokenKey.borderColor => borderColor tok
  end.

(** [{ ...token, [key]: value }] *)
Definition set (k : TokenKey.t) (v : AttrValue) (tok : t) : t :=
  match k with
  | TokenKey.color =>
      {| color := v; fontSize := fontSize tok; fontFamily := fontFamily tok;
         fontWeight := fontWeight tok; background := background tok;
         borderColor := borderColor tok |}
  | TokenKey.fontSize =>
      {| color := color tok; fontSize := v; fontFamily := fontFamily tok;
         fontWeight := fontWeight tok; background := background tok;
         borderColor := borderColor tok |}
  | TokenKey.fontFamily =>
      {| color := color tok; fontSize := fontSize tok; fontFamily := v;
         fontWeight := fontWeight tok; background := background tok;
         borderColor := borderColor tok |}
  | TokenKey.fontWeight =>
      {| color := color tok; fontSize := fontSize tok;
         fontFamily := fontFamily tok; fontWeight := v;
         background := background tok; borderColor := borderColor tok |}
  | TokenKey.background =>
      {| color := color tok; fontSize := fontSize tok;
         fontFamily := fontFamily tok; fontWeight := fontWeight tok;
         background := Some v; borderColor := borderColor tok |}
  | TokenKey.borderColor =>
      {| color := color tok; fontSize := fontSize tok;
         fontFamily := fontFamily tok; fontWeight := fontWeight tok;
         background := background tok; borderColor := Some v |}
  end.
End ThemeToken.

(** [Record<ThemeTag, ThemeToken>] *)
Module Tokens.
Record t := {
  formTitle : ThemeToken.t;
  sectionTitle : ThemeToken.t;
  label : ThemeToken.t;
  helper : ThemeToken.t;
  input : ThemeToken.t;
  button : ThemeToken.t
}.

Definition get (tag : ThemeTag.t) (ts : t) : ThemeToken.t :=
  match tag with
  | ThemeTag.formTitle => formTitle ts
  | ThemeTag.sectionTitle => sectionTitle ts
  | ThemeTag.label => label ts
  | ThemeTag.helper => helper ts
  | ThemeTag.input => input ts
  | ThemeTag.button => button ts
  end.

(** [{ ...tokens, [tag]: token }] *)
Definition set (tag : ThemeTag.t) (tok : ThemeToken.t) (ts : t) : t :=
  match tag with
  | ThemeTag.formTitle =>
      {| formTitle := tok; sectionTitle := sectionTitle ts;
         label := label ts; helper := helper ts; input := input ts;
         button := button ts |}
  | ThemeTag.sectionTitle =>
      {| formTitle := formTitle ts; sectionTitle := tok;
         label := label ts; helper := helper ts; input := input ts;
         button := button ts |}
  | ThemeTag.label =>
      {| formTitle := formTitle ts; sectionTitle := sectionTitle ts;
         label := tok; helper := helper ts; input := input ts;
         button := button ts |}
  | ThemeTag.helper =>
      {| formTitle := formTitle ts; sectionTitle := sectionTitle ts;
         label := label ts; helper := tok; input := input ts;
         button := button ts |}
  | ThemeTag.input =>
      {| formTitle := formTitle ts; sectionTitle := sectionTitle ts;
         label := label ts; helper := helper ts; input := tok;
         button := button ts |}
  | ThemeTag.button =>
      {| formTitle := formTitle ts; sectionTitle := sectionTitle ts;
         label := label ts; helper := helper ts; input := input ts;
         button := tok |}
  end.
End Tokens.

(** [keyof Omit<ThemeSnapshot, "tokens">] *)
Module SurfaceKey.
Inductive t := background | panel | card | border | text | muted.
End SurfaceKey.

Module ThemeSnapshot.
Record t := {
  background : string;
  panel : string;
  card : string;
  border : string;
  text : string;
  muted : string;
  tokens : Tokens.t
}.

(** [{ ...snapshot, tokens }] *)
Definition withTokens (ts : Tokens.t) (s : t) : t :=
  {| background := background s; panel := panel s; card := card s;
     border := border s; text := text s; muted := muted s; tokens := ts |}.

(** [{ ...snapshot, [key]: value }] *)
Definition setSurface (k : SurfaceKey.t) (v : string) (s : t) : t :=
  match k with
  | SurfaceKey.background =>
      {| background := v; panel := panel s; card := card s;
         border := border s; text := text s; muted := muted s;
         tokens := tokens s |}
  | SurfaceKey.panel =>
      {| background := background s; panel := v; card := card s;
         border := border s; text := text s; muted := muted s;
         tokens := tokens s |}
  | SurfaceKey.card =>
      {| background := background s; panel := panel s; card := v;
         border := border s; text := text s; muted := muted s;
         tokens := tokens s |}
  | SurfaceKey.border =>
      {| background := background s; panel := panel s; card := card s;
         border := v; text := text s; muted := muted s;
         tokens := tokens s |}
  | SurfaceKey.text =>
      {| background := background s; panel := panel s; card := card s;
         border := border s; text := v; muted := muted s;
         tokens := tokens s |}
  | SurfaceKey.muted =>
      {| background := background s; panel := panel s; card := card s;
         border := border s; text := text s; muted := v;
         tokens := tokens s |}
  end.
End ThemeSnapshot.

(** [Record<ThemeMode, ThemeSnapshot>] *)
Module Palette.
Record t := { light : ThemeSnapshot.t; dark : ThemeSnapshot.t }.

Definition get (m : ThemeMode) (p : t) : ThemeSnapshot.t :=
  match m with
  | Builder.light => light p
  | Builder.dark => dark p
  end.

(** [{ ...palette, [mode]: snapshot }] *)
Definition set (m : ThemeMode) (s : ThemeSnapshot.t) (p : t) : t :=
  match m with
  | Builder.light => {| light := s; dark := dark p |}
  | Builder.dark => {| light := light p; dark := s |}
  end.
End Palette.

Module ThemeState.
Record t := { mode : ThemeMode; palette : Palette.t }.
End ThemeState.

Module FieldOption.
Record t := { id : string; label : string; value : string }.
End FieldOption.

Module FormField.
Record t := {
  id : string;
  type : FieldType;
  label : string;
  description : option string;
  placeholder : option string;
  required : bool;
  options : option (list FieldOption.t);
  minLength : option Js.number;
  maxLength : option Js.number;
  min : option Js.number;
  max : option Js.number;
  step : option Js.number
}.
End FormField.

(** [Partial<FormField>]: [None] when the key is not in the object. *)
Module FieldChanges.
Record t := {
  id : option string;
  type : option FieldType;
  label : option string;
  description : option (option string);
  placeholder : option (option string);
  required : option bool;
  options : option (option (list FieldOption.t));
  minLength : option (option Js.number);
  maxLength : option (option Js.number);
  min : option (option Js.number);
  max : option (option Js.number);
  step : option (option Js.number)
}.
End FieldChanges.

Module FormMeta.
Record t := { title : string; description : string; submitLabel : string }.
End FormMeta.

(** [Partial<FormMeta>] *)
Module MetaChanges.
Record t := {
  title : option string;
  description : option string;
  submitLabel : option string
}.
End MetaChanges.

Module BuilderState.
Record t := {
  fields : list FormField.t;
  selectedFieldId : option string;
  formMeta : FormMeta.t;
  mode : BuilderMode;
  theme : ThemeState.t
}.
End BuilderState.

Inductive BuilderAction :=
| ADD_FIELD (payload : FormField.t)
| REMOVE_FIELD (id : string)
| DUPLICATE_FIELD (id : string)
| SELECT_FIELD (id : option string)
| UPDATE_FIELD (id : string) (changes : FieldChanges.t)
| REORDER_FIELD (id : string) (direction : Direction)
| UPDATE_FORM_META (payload : MetaChanges.t)
| SET_MODE (payload : BuilderMode)
| SET_THEME_MODE (payload : ThemeMode)
| UPDATE_THEME_TOKEN (tag : ThemeTag.t) (key : TokenKey.t) (value : AttrValue)
| UPDATE_THEME_SURFACE (key : SurfaceKey.t) (value : string).

(** [fontOptions[0].value] *)
Definition systemSans : string :=
  let quote := String (ascii_of_nat 34) EmptyString in
  ("system-ui, -apple-system, BlinkMacSystemFont, " ++ quote ++ "Segoe UI"
   ++ quote ++ ", sans-serif")%string.

Definition mkToken (color fontSize : string) (fontWeight : Z)
  (background borderColor : option string) : ThemeToken.t :=
  {| ThemeToken.color := Str color;
     ThemeToken.fontSize := Str fontSize;
     ThemeToken.fontFamily := Str systemSans;
     ThemeToken.fontWeight := Num (Js.Finite (inject_Z fontWeight));
     ThemeToken.background := option_map Str background;
     ThemeToken.borderColor := option_map Str borderColor |}.

Definition defaultThemePalette : Palette.t :=
  {| Palette.light :=
       {| ThemeSnapshot.background := "#f1f5f9";
          ThemeSnapshot.panel := "#ffffff";
          ThemeSnapshot.card := "#ffffff";
          ThemeSnapshot.border := "#e2e8f0";
          ThemeSnapshot.text := "#0f172a";
          ThemeSnapshot.muted := "#64748b";
          ThemeSnapshot.tokens :=
            {| Tokens.formTitle := mkToken "#0f172a" "1.875rem" 600 None None;
               Tokens.sectionTitle := mkToken "#0f172a" "1.25rem" 600 None None;
               Tokens.label := mkToken "#0f172a" "0.95rem" 500 None None;
               Tokens.helper := mkToken "#64748b" "0.85rem" 400 None None;
               Tokens.input :=
                 mkToken "#0f172a" "1rem" 500 (Some "#ffffff") (Some "#cbd5f5");
               Tokens.button :=
                 mkToken "#ffffff" "1rem" 600 (Some "#2563eb") (Some "#2563eb")
            |} |};
     Palette.dark :=
       {| ThemeSnapshot.background := "#0f172a";
          ThemeSnapshot.panel := "#111827";
          ThemeSnapshot.card := "#111827";
          ThemeSnapshot.border := "#1f2937";
          ThemeSnapshot.text := "#f8fafc";
          ThemeSnapshot.muted := "#94a3b8";
          ThemeSnapshot.tokens :=
            {| Tokens.formTitle := mkToken "#f8fafc" "1.875rem" 600 None None;
               Tokens.sectionTitle := mkToken "#f1f5f9" "1.25rem" 600 None None;
               Tokens.label := mkToken "#e2e8f0" "0.95rem" 500 None None;
               Tokens.helper := mkToken "#94a3b8" "0.85rem" 400 None None;
               Tokens.input :=
                 mkToken "#f8fafc" "1rem" 500 (Some "#1f2937") (Some "#334155");
               Tokens.button :=
                 mkToken "#0f172a" "1rem" 600 (Some "#38bdf8") (Some "#38bdf8")
            |} |} |}.

(** [initialState]; its six identifiers are the results of the calls of
    [createId] in the order of the object literal. *)
Definition initialState (createId : nat -> string) : BuilderState.t :=
  {| BuilderState.fields :=
       [ {| FormField.id := createId 0%nat;
            FormField.type := short_text;
            FormField.label := "Full name";
            FormField.description :=
              Some "We use this to personalise your experience.";
            FormField.placeholder := Some "Jane Doe";
            FormField.required := true;
            FormField.options := None;
            FormField.minLength := Some (Js.Finite (inject_Z 2));
            FormField.maxLength := None;
            FormField.min := None; FormField.max := None;
            FormField.step := None |};
         {| FormField.id := createId 1%nat;
            FormField.type := email;
            FormField.label := "Work email";
            FormField.description := Some "We will never share your email.";
            FormField.placeholder := Some "name@company.com";
            FormField.required := true;
            FormField.options := None;
            FormField.minLength := None; FormField.maxLength := None;
            FormField.min := None; FormField.max := None;
            FormField.step := None |};
         {| FormField.id := createId 2%nat;
            FormField.type := dropdown;
            FormField.label := "Project type";
            FormField.description :=
              Some "Select the service you are interested in.";
            FormField.placeholder := None;
            FormField.required := true;
            FormField.options :=
              Some [ {| FieldOption.id := createId 3%nat;
                        FieldOption.label := "Website redesign";
                        FieldOption.value := "website" |};
                     {| FieldOption.id := createId 4%nat;
                        FieldOption.label := "Mobile app";
                        FieldOption.value := "mobile" |};
                     {| FieldOption.id := createId 5%nat;
                        FieldOption.label := "Design system";
                        FieldOption.value := "design-system" |} ];
            FormField.minLength := None; FormField.maxLength := None;
            FormField.min := None; FormField.max := None;
            FormField.step := None |} ];
     BuilderState.selectedFieldId := None;
     BuilderState.formMeta :=
       {| FormMeta.title := "Project inquiry";
          FormMeta.description :=
            "Tell us about your project. We will get back to you within two working days.";
          FormMeta.submitLabel := "Send request" |};
     BuilderState.mode := edit;
     BuilderState.theme :=
       {| ThemeState.mode := light; ThemeState.palette := defaultThemePalette |}
  |}.

(** An identifier source for examples: call [k] answers [id-k]. *)
Definition countingIds (k : nat) : string :=
  ("id-" ++ NilZero.string_of_uint (Nat.to_uint k))%string.

(** The text-field template of the palette with the label [Name], as a
    field with id [id]. *)
Definition nameField (id : string) : FormField.t :=
  {| FormField.id := id;
     FormField.type := short_text;
     FormField.label := "Name";
     FormField.description := None;
     FormField.placeholder := Some "Enter text";
     FormField.required := false;
     FormField.options := None;
     FormField.minLength := None; FormField.maxLength := None;
     FormField.min := None; FormField.max := None;
     FormField.step := None |}.

(** The same field under another label. *)
Definition labelled (id label : string) : FormField.t :=
  {| FormField.id := id;
     FormField.type := short_text;
     FormField.label := label;
     FormField.description := None;
     FormField.placeholder := Some "Enter text";
     FormField.required := false;
     FormField.options := None;
     FormField.minLength := None; FormField.maxLength := None;
     FormField.min := None; FormField.max := None;
     FormField.step := None |}.

(** The spreads of the reducer, one per object it rebuilds. *)

Definition withFields (fs : list FormField.t) (s : BuilderState.t)
  : BuilderState.t :=
  {| BuilderState.fields := fs;
     BuilderState.selectedFieldId := BuilderState.selectedFieldId s;
     BuilderState.formMeta := BuilderState.formMeta s;
     BuilderState.mode := BuilderState.mode s;
     BuilderState.theme := BuilderState.theme s |}.

Definition withSelected (sel : option string) (s : BuilderState.t)
  : BuilderState.t :=
  {| BuilderState.fields := BuilderState.fields s;
     BuilderState.selectedFieldId := sel;
     BuilderState.formMeta := BuilderState.formMeta s;
     BuilderState.mode := BuilderState.mode s;
     BuilderState.theme := BuilderState.theme s |}.

Definition withFormMeta (m : FormMeta.t) (s : BuilderState.t)
  : BuilderState.t :=
  {| BuilderState.fields := BuilderState.fields s;
     BuilderState.selectedFieldId := BuilderState.selectedFieldId s;
     BuilderState.formMeta := m;
     BuilderState.mode := BuilderState.mode s;
     BuilderState.theme := BuilderState.theme s |}.

Definition withMode (m : BuilderMode) (s : BuilderState.t) : BuilderState.t :=
  {| BuilderState.fields := BuilderState.fields s;
     BuilderState.selectedFieldId := BuilderState.selectedFieldId s;
     BuilderState.formMeta := BuilderState.formMeta s;
     BuilderState.mode := m;
     BuilderState.theme := BuilderState.theme s |}.

Definition withTheme (t : ThemeState.t) (s : BuilderState.t)
  : BuilderState.t :=
  {| BuilderState.fields := BuilderState.fields s;
     BuilderState.selectedFieldId := BuilderState.selectedFieldId s;
     BuilderState.formMeta := BuilderState.formMeta s;
     BuilderState.mode := BuilderState.mode s;
     BuilderState.theme := t |}.

Definition orElse {A} (change : option A) (old : A) : A :=
  match change with Some v => v | None => old end.

(** [{ ...field, ...changes }] *)
Definition mergeField (f : FormField.t) (c : FieldChanges.t) : FormField.t :=
  {| FormField.id := orElse (FieldChanges.id c) (FormField.id f);
     FormField.type := orElse (FieldChanges.type c) (FormField.type f);
     FormField.label := orElse (FieldChanges.label c) (FormField.label f);
     FormField.description :=
       orElse (FieldChanges.description c) (FormField.description f);
     FormField.placeholder :=
       orElse (FieldChanges.placeholder c) (FormField.placeholder f);
     FormField.required :=
       orElse (FieldChanges.required c) (FormField.required f);
     FormField.options := orElse (FieldChanges.options c) (FormField.options f);
     FormField.minLength :=
       orElse (FieldChanges.minLength c) (FormField.minLength f);
     FormField.maxLength :=
       orElse (FieldChanges.maxLength c) (FormField.maxLength f);
     FormField.min := orElse (FieldChanges.min c) (FormField.min f);
     FormField.max := orElse (FieldChanges.max c) (FormField.max f);
     FormField.step := orElse (FieldChanges.step c) (FormField.step f) |}.

(** [{ ...formMeta, ...payload }] *)
Definition mergeMeta (m : FormMeta.t) (c : MetaChanges.t) : FormMeta.t :=
  {| FormMeta.title := orElse (MetaChanges.title c) (FormMeta.title m);
     FormMeta.description :=
       orElse (MetaChanges.description c) (FormMeta.description m);
     FormMeta.submitLabel :=
       orElse (MetaChanges.submitLabel c) (FormMeta.submitLabel m) |}.

(** [.replace(/\(copy\) \(copy\)$/i, "(copy)")]: the pattern is anchored at
    the end, so the only possible match is the last 13 code units. *)
Definition replaceCopyCopy (s : string) : string :=
  let n := String.length s in
  if (13 <=? n)%nat
     && Js.eqbIgnoreCase (substring (n - 13) 13 s) "(copy) (copy)"
  then (substring 0 (n - 13) s ++ "(copy)")%string
  else s.

(** The clone's label: the template literal, the replace and the trim. *)
Definition cloneLabel (label : string) : string :=
  Js.trim (replaceCopyCopy (label ++ " (copy)")%string).

(** [options.map(option => ({ ...option, id: createId() }))]: option number
    [i] takes the result of call number [k + i] of [createId]. *)
Fixpoint cloneOptions (createId : nat -> string) (k : nat)
  (opts : list FieldOption.t) : list FieldOption.t :=
  match opts with
  | [] => []
  | o :: opts' =>
      {| FieldOption.id := createId k;
         FieldOption.label := FieldOption.label o;
         FieldOption.value := FieldOption.value o |}
      :: cloneOptions createId (S k) opts'
  end.

Definition cloneField (createId : nat -> string) (field : FormField.t)
  : FormField.t :=
  {| FormField.id := createId 0%nat;
     FormField.type := FormField.type field;
     FormField.label := cloneLabel (FormField.label field);
     FormField.description := FormField.description field;
     FormField.placeholder := FormField.placeholder field;
     FormField.required := FormField.required field;
     FormField.options :=
       option_map (cloneOptions createId 1%nat) (FormField.options field);
     FormField.minLength := FormField.minLength field;
     FormField.maxLength := FormField.maxLength field;
     FormField.min := FormField.min field;
     FormField.max := FormField.max field;
     FormField.step := FormField.step field |}.

Definition hasId (id : string) (field : FormField.t) : bool :=
  String.eqb (FormField.id field) id.

Definition optionStringEqb (a : option string) (b : string) : bool :=
  match a with Some s => String.eqb s b | None => false end.

(** [builderReducer(state, action)].  [createId] is not a function of the
    state (it draws a random identifier): [createId k] stands for the
    result of its call number [k] during this transition. *)
Definition builderReducer (createId : nat -> string)
  (state : BuilderState.t) (action : BuilderAction) : BuilderState.t :=
  let fields := BuilderState.fields state in
  match action with
  | ADD_FIELD payload =>
      withSelected (Some (FormField.id payload))
        (withFields (fields ++ [payload]) state)
  | REMOVE_FIELD id =>
      let fields' := filter (fun field => negb (hasId id field)) fields in
      let selectedFieldId :=
        if optionStringEqb (BuilderState.selectedFieldId state) id
        then None else BuilderState.selectedFieldId state in
      withSelected selectedFieldId (withFields fields' state)
  | DUPLICATE_FIELD id =>
      match find (hasId id) fields with
      | None => state
      | Some field =>
          let clone := cloneField createId field in
          let index := Js.findIndex (hasId (FormField.id field)) fields in
          let nextFields :=
            Js.spliceInsert (Z.to_nat (index + 1)) clone fields in
          withSelected (Some (FormField.id clone)) (withFields nextFields state)
      end
  | SELECT_FIELD id => withSelected id state
  | UPDATE_FIELD id changes =>
      let nextFields :=
        map (fun field =>
               if hasId id field then mergeField field changes else field)
            fields in
      withFields nextFields state
  | REORDER_FIELD id direction =>
      let index := Js.findIndex (hasId id) fields in
      if (index =? -1)%Z then state
      else
        let targetIndex :=
          match direction with
          | up => (index - 1)%Z
          | down => (index + 1)%Z
          end in
        if (targetIndex <? 0)%Z
           || (Z.of_nat (List.length fields) <=? targetIndex)%Z
        then state
        else
          let (removed, rest) := Js.spliceRemove (Z.to_nat index) fields in
          match removed with
          | field :: _ =>
              withFields (Js.spliceInsert (Z.to_nat targetIndex) field rest)
                         state
          | [] =>
              (* not reached: [index] is a position of [fields], see
                 [spliceRemove_found] *)
              withFields rest state
          end
  | UPDATE_FORM_META payload =>
      withFormMeta (mergeMeta (BuilderState.formMeta state) payload) state
  | SET_MODE payload => withMode payload state
  | SET_THEME_MODE payload =>
      withTheme
        {| ThemeState.mode := payload;
           ThemeState.palette := ThemeState.palette (BuilderState.theme state) |}
        state
  | UPDATE_THEME_TOKEN tag key value =>
      let theme := BuilderState.theme state in
      let current := Palette.get (ThemeState.mode theme) (ThemeState.palette theme) in
      let tokens := ThemeSnapshot.tokens current in
      withTheme
        {| ThemeState.mode := ThemeState.mode theme;
           ThemeState.palette :=
             Palette.set (ThemeState.mode theme)
               (ThemeSnapshot.withTokens
                  (Tokens.set tag
                     (ThemeToken.set key value (Tokens.get tag tokens))
                     tokens)
                  current)
               (ThemeState.palette theme) |}
        state
  | UPDATE_THEME_SURFACE key value =>
      let theme := BuilderState.theme state in
      let current := Palette.get (ThemeState.mode theme) (ThemeState.palette theme) in
      withTheme
        {| ThemeState.mode := ThemeState.mode theme;
           ThemeState.palette :=
             Palette.set (ThemeState.mode theme)
               (ThemeSnapshot.setSurface key value current)
               (ThemeState.palette theme) |}
        state
  end.

(** No field of the list carries the id. *)
Definition absent (id : string) (fields : list FormField.t) : Prop :=
  forall f, In f fields -> FormField.id f <> id.

(** The initial form with a selection that names no field. *)
Definition danglingState : BuilderState.t :=
  withSelected (Some "ghost") (initialState countingIds).

End Builder.

(** ** The responses route: request schema, answer validation, persistence *)

Module Submission.

(** A JSON value: the request body, a stored [options] column, an answer
    value.  The members of an object are its own properties in order, each
    key once. *)
Inductive Json :=
| JNull
| JBool (b : bool)
| JNumber (n : Js.number)
| JString (s : string)
| JArray (items : list Json)
| JObject (members : list (string * Json)).

(** [object[key]]; [None] is [undefined]. *)
Fixpoint member (key : string) (members : list (string * Json)) : option Json :=
  match members with
  | [] => None
  | (k, v) :: rest => if String.eqb k key then Some v else member key rest
  end.

(** A row of the form's fields as the route selects it. *)
Module Field.
Record t := {
  id : string;
  type : string;
  required : bool;
  options : Json;          (* [JNull] for a null column *)
  sortOrder : Z
}.
End Field.

Module Form.
Record t := { id : string; fields : list Field.t }.
End Form.

Module Answer.
Record t := { fieldId : string; value : Json }.
End Answer.

(** [{ fieldId, message }] *)
Module Issue.
Record t := { fieldId : string; message : string }.
End Issue.

(** [{ fieldId, value }], an element of [answersToPersist] *)
Module Persist.
Record t := { fieldId : string; value : Json }.
End Persist.

(** The two arrays the handler fills while it validates. *)
Record Acc := {
  issues : list Issue.t;
  answersToPersist : list Persist.t
}.

Definition emptyAcc : Acc := {| issues := []; answersToPersist := [] |}.

(** [issues.push({ fieldId, message })] *)
Definition pushIssue (fieldId message : string) (acc : Acc) : Acc :=
  {| issues := issues acc ++ [{| Issue.fieldId := fieldId; Issue.message := message |}];
     answersToPersist := answersToPersist acc |}.

(** [answersToPersist.push({ fieldId, value })] *)
Definition pushAnswer (fieldId : string) (value : Json) (acc : Acc) : Acc :=
  {| issues := issues acc;
     answersToPersist :=
       answersToPersist acc ++ [{| Persist.fieldId := fieldId; Persist.value := value |}] |}.

(** The tag of [field.type], when it is one of the seven the switch
    handles. *)
Definition fieldTypeOf (tag : string) : option Builder.FieldType :=
  if String.eqb tag "short_text" then Some Builder.short_text
  else if String.eqb tag "long_text" then Some Builder.long_text
  else if String.eqb tag "email" then Some Builder.email
  else if String.eqb tag "number" then Some Builder.number
  else if String.eqb tag "dropdown" then Some Builder.dropdown
  else if String.eqb tag "checkbox" then Some Builder.checkbox
  else if String.eqb tag "date" then Some Builder.date
  else None.

(** [parseOptions(raw)]: the string [value]s of the array's objects; an
    item without one, or with an empty one, is dropped by
    [filter(Boolean)]. *)
Definition optionValue (item : Json) : option string :=
  match item with
  | JObject members =>
      match member "value" members with
      | Some (JString value) => Some value
      | _ => None
      end
  | _ => None
  end.

Fixpoint keepTruthy (l : list (option string)) : list string :=
  match l with
  | [] => []
  | Some v :: l' =>
      if String.eqb v "" then keepTruthy l' else v :: keepTruthy l'
  | None :: l' => keepTruthy l'
  end.

Definition parseOptions (raw : Json) : list string :=
  match raw with
  | JArray items => keepTruthy (map optionValue items)
  | _ => []
  end.

(** [ensureString(value)] *)
Definition ensureString (value : Json) : option string :=
  match value with JString s => Some s | _ => None end.

(** [ensureStringArray(value)] *)
Definition ensureStringArray (value : Json) : option (list string) :=
  match value with
  | JArray items =>
      Some (flat_map (fun entry => match entry with
                                   | JString s => [s]
                                   | _ => []
                                   end) items)
  | _ => None
  end.

(** [options.includes(value)] *)
Definition includes (options : list string) (value : string) : bool :=
  existsb (String.eqb value) options.

(** [emailRegex.test(value)] for [/^[^\s@]+@[^\s@]+\.[^\s@]+$/].  None of
    the three classes admits an at-sign, so the literal one is the first of
    the string: before it a non-empty run of class characters, after it a
    run of class characters with a dot that is neither its first nor its
    last character. *)
Definition inClass (c : ascii) : bool :=
  negb (Js.isWhiteSpace c || Ascii.eqb c "@").

Fixpoint splitAtSign (s : list ascii) : option (list ascii * list ascii) :=
  match s with
  | [] => None
  | c :: s' =>
      if Ascii.eqb c "@" then Some ([], s')
      else match splitAtSign s' with
           | Some (l, d) => Some (c :: l, d)
           | None => None
           end
  end.

Fixpoint hasInnerDot (d : list ascii) : bool :=
  match d with
  | _ :: ((c :: (_ :: _)) as d') => Ascii.eqb c "." || hasInnerDot d'
  | _ => false
  end.

Definition emailRegex_test (value : string) : bool :=
  match splitAtSign (list_ascii_of_string value) with
  | Some (l, d) =>
      negb (Js.isNil l) && forallb inClass l && forallb inClass d
      && hasInnerDot d
  | None => false
  end.

Definition isEmpty (s : string) : bool := (String.length s =? 0)%nat.

Definition answerFor (fieldId : string) (a : Answer.t) : bool :=
  String.eqb (Answer.fieldId a) fieldId.

Definition persistedFor (fieldId : string) (a : Persist.t) : bool :=
  String.eqb (Persist.fieldId a) fieldId.

(** [fieldMap.has(fieldId)] *)
Definition fieldMap_has (fields : list Field.t) (fieldId : string) : bool :=
  existsb (fun field => String.eqb (Field.id field) fieldId) fields.

(** First loop: flag answers targeting fields outside this form. *)
Definition flagForeign (fields : list Field.t) (acc : Acc) (answer : Answer.t)
  : Acc :=
  if fieldMap_has fields (Answer.fieldId answer) then acc
  else pushIssue (Answer.fieldId answer) "Field does not belong to this form" acc.

Section Engine.

(** [Date.parse]: outside the ISO format its result is left to the
    engine that runs the route, so it is a parameter here. *)
Variable Date_parse : string -> Js.number.

(** [isValidDate(value)] *)
Definition isValidDate (value : string) : bool :=
  if isEmpty value then false
  else Js.Number_isFinite (Date_parse value).

(** Second loop: the body of [form.fields.forEach] for one field. *)
Definition processField (answers : list Answer.t) (acc : Acc) (field : Field.t)
  : Acc :=
  let id := Field.id field in
  match find (answerFor id) answers with
  | None =>
      if Field.required field then pushIssue id "Required field is missing" acc
      else acc
  | Some answer =>
      let rawValue := Answer.value answer in
      let options := parseOptions (Field.options field) in
      let addIssue := pushIssue id in
      match fieldTypeOf (Field.type field) with
      | Some Builder.short_text | Some Builder.long_text =>
          let value :=
            match ensureString rawValue with
            | Some s => Js.trim s
            | None => ""
            end in
          if Field.required field && isEmpty value
          then addIssue "Response is required" acc
          else if negb (Field.required field) && isEmpty value then acc
          else pushAnswer id (JString value) acc
      | Some Builder.email =>
          let value :=
            match ensureString rawValue with
            | Some s => Js.trim s
            | None => ""
            end in
          if Field.required field && isEmpty value
          then addIssue "Email is required" acc
          else if negb (isEmpty value) && negb (emailRegex_test value)
          then addIssue "Email format looks invalid" acc
          else if negb (Field.required field) && isEmpty value then acc
          else pushAnswer id (JString value) acc
      | Some Builder.number =>
          let finish (value : option Js.number) :=
            match value with
            | None =>
                if Field.required field then addIssue "Number is required" acc
                else addIssue "Number could not be parsed" acc
            | Some v => pushAnswer id (JNumber v) acc
            end in
          match rawValue with
          | JNumber n =>
              finish (if Js.Number_isFinite n then Some n else None)
          | JString s =>
              let trimmed := Js.trim s in
              if isEmpty trimmed then
                if Field.required field then addIssue "Number is required" acc
                else acc
              else
                let parsed := Js.Number trimmed in
                finish (if Js.Number_isFinite parsed then Some parsed else None)
          | _ => finish None
          end
      | Some Builder.dropdown =>
          let value :=
            match ensureString rawValue with Some s => s | None => "" end in
          if Field.required field && isEmpty value
          then addIssue "Selection is required" acc
          else if isEmpty value then acc
          else if negb (Js.isNil options) && negb (includes options value)
          then addIssue "Selected option is invalid" acc
          else pushAnswer id (JString value) acc
      | Some Builder.checkbox =>
          match ensureStringArray rawValue with
          | None | Some [] =>
              if Field.required field
              then addIssue "At least one option is required" acc
              else acc
          | Some values =>
              let invalid :=
                filter (fun entry => negb (includes options entry)) values in
              if negb (Js.isNil options) && negb (Js.isNil invalid)
              then addIssue "One or more options are invalid" acc
              else pushAnswer id (JArray (map JString values)) acc
          end
      | Some Builder.date =>
          let value :=
            match ensureString rawValue with Some s => s | None => "" end in
          if Field.required field && isEmpty value
          then addIssue "Date is required" acc
          else if negb (isEmpty value) && negb (isValidDate value)
          then addIssue "Date could not be parsed" acc
          else if negb (Field.required field) && isEmpty value then acc
          else pushAnswer id (JString value) acc
      | None => addIssue "Unsupported field type" acc
      end
  end.

(** Third loop: ensure required answers are not silently skipped. *)
Definition rescanField (acc : Acc) (field : Field.t) : Acc :=
  match find (persistedFor (Field.id field)) (answersToPersist acc) with
  | Some _ => acc
  | None => pushIssue (Field.id field) "Required field is missing" acc
  end.

(** The first two loops, on empty arrays. *)
Definition perField (fields : list Field.t) (answers : list Answer.t) : Acc :=
  fold_left (processField answers) fields
    (fold_left (flagForeign fields) answers emptyAcc).

(** The three loops of the handler, in order, on empty arrays. *)
Definition validateAnswers (fields : list Field.t) (answers : list Answer.t)
  : Acc :=
  fold_left rescanField (filter Field.required fields) (perField fields answers).

End Engine.

(** The issue of the second and of the third loop for a field without an
    answer. *)
Definition missingIssue (field : Field.t) : Issue.t :=
  {| Issue.fieldId := Field.id field;
     Issue.message := "Required field is missing" |}.

(** The issue of the first loop for an answer outside the form. *)
Definition foreignIssue (answer : Answer.t) : Issue.t :=
  {| Issue.fieldId := Answer.fieldId answer;
     Issue.message := "Field does not belong to this form" |}.

(** [answersToPersist] holds nothing for the field. *)
Definition notPersisted (acc : Acc) (field : Field.t) : bool :=
  match find (persistedFor (Field.id field)) (answersToPersist acc) with
  | Some _ => false
  | None => true
  end.

(** Sample data: a [Date.parse] that reads nothing, a stored options column
    with the values [a] and [b], and a field row. *)
Definition noDates (value : string) : Js.number := Js.NaN.

Definition abOptions : Json :=
  JArray [ JObject [("value", JString "a")]; JObject [("value", JString "b")] ].

Definition fieldRow (id type : string) (required : bool) (options : Json)
  : Field.t :=
  {| Field.id := id; Field.type := type; Field.required := required;
     Field.options := options; Field.sortOrder := 0%Z |}.

(** *** The request schema (zod) *)

Inductive PathSeg :=
| Key (k : string)
| Index (i : nat).

Module ZodIssue.
Record t := { path : list PathSeg; message : string }.
End ZodIssue.

(** What a schema found wrong, for the issues that take the library's
    message. *)
Inductive ZodCode :=
| invalid_type (expected : string)
| too_small (minimum : Z)
| too_big (maximum : Z)
| invalid_union.

(** The result of parsing one value: the issues raised, in order, and the
    output unless parsing was aborted. *)
Definition Parsed (A : Type) : Type := list ZodIssue.t * option A.

Definition ZodType (A : Type) : Type :=
  list PathSeg -> option Json -> Parsed A.

(** The parsed [meta] object. *)
Module Meta.
Record t := {
  fingerprint : option string;
  timezone : option string;
  userAgent : option string
}.
End Meta.

(** [z.infer<typeof createResponseSchema>] *)
Module Payload.
Record t := {
  completionMs : option Js.number;
  answers : list Answer.t;
  meta : option Meta.t;
  honey : option string
}.
End Payload.

Inductive SafeParse :=
| ParseSuccess (data : Payload.t)
| ParseError (issues : list ZodIssue.t).

Section Schema.

(** The library's error map: the message of an issue raised without one of
    the route's own, from its code and the value received. *)
Variable defaultMessage : ZodCode -> option Json -> string.

Definition defaultIssue (path : list PathSeg) (code : ZodCode)
  (input : option Json) : ZodIssue.t :=
  {| ZodIssue.path := path; ZodIssue.message := defaultMessage code input |}.

Definition customIssue (path : list PathSeg) (message : string) : ZodIssue.t :=
  {| ZodIssue.path := path; ZodIssue.message := message |}.

(** [z.string()] *)
Definition z_string : ZodType string := fun path input =>
  match input with
  | Some (JString s) => ([], Some s)
  | _ => ([defaultIssue path (invalid_type "string") input], None)
  end.

(** [z.string().min(1, message)] *)
Definition z_string_min1 (message : string) : ZodType string := fun path input =>
  match input with
  | Some (JString s) =>
      (if (String.length s <? 1)%nat then [customIssue path message] else [],
       Some s)
  | _ => ([defaultIssue path (invalid_type "string") input], None)
  end.

(** [z.number()]: a number that is neither NaN nor an infinity. *)
Definition z_number : ZodType Js.number := fun path input =>
  match input with
  | Some (JNumber (Js.Finite q)) => ([], Some (Js.Finite q))
  | _ => ([defaultIssue path (invalid_type "number") input], None)
  end.

(** [Number.MAX_SAFE_INTEGER] *)
Definition maxSafeInteger : Z := (2 ^ 53 - 1)%Z.

(** [z.number().int().positive().max(1000 * 60 * 30)].  The checks run in
    order as long as none has aborted.  [int()] aborts on a number that is
    no integer, so that the later checks do not run; on an integer outside
    the safe range it raises its issue and lets them run. *)
Definition z_completionMs : ZodType Js.number := fun path input =>
  match z_number path input with
  | (_, Some n) =>
      (if Js.Number_isInteger n then
         (if Js.leb (Js.ofZ (- maxSafeInteger)) n
             && Js.leb n (Js.ofZ maxSafeInteger)
          then []
          else if Js.ltb (Js.Finite 0%Q) n
               then [defaultIssue path (too_big maxSafeInteger) input]
               else [defaultIssue path (too_small (- maxSafeInteger)) input])
         ++ (if Js.ltb (Js.Finite 0%Q) n then []
             else [defaultIssue path (too_small 0) input])
         ++ (if Js.leb n (Js.ofZ (1000 * 60 * 30)) then []
             else [defaultIssue path (too_big (1000 * 60 * 30)) input])
       else [defaultIssue path (invalid_type "int") input],
       Some n)
  | r => r
  end.

(** [z.boolean()] and [z.null()], with the value they accept as output. *)
Definition z_boolean : ZodType Json := fun path input =>
  match input with
  | Some (JBool b) => ([], Some (JBool b))
  | _ => ([defaultIssue path (invalid_type "boolean") input], None)
  end.

Definition z_null : ZodType Json := fun path input =>
  match input with
  | Some JNull => ([], Some JNull)
  | _ => ([defaultIssue path (invalid_type "null") input], None)
  end.

(** [schema.optional()] *)
Definition z_optional {A} (schema : ZodType A) : ZodType (option A) :=
  fun path input =>
    match input with
    | None => ([], Some None)
    | Some _ =>
        let (errs, out) := schema path input in (errs, option_map Some out)
    end.

(** The elements of an array, each under its index; aborted as soon as one
    element is. *)
Fixpoint parseItems {A} (schema : ZodType A) (path : list PathSeg) (i : nat)
  (items : list Json) : Parsed (list A) :=
  match items with
  | [] => ([], Some [])
  | item :: items' =>
      let (errs1, out1) := schema (path ++ [Index i]) (Some item) in
      let (errs2, out2) := parseItems schema path (S i) items' in
      (errs1 ++ errs2,
       match out1, out2 with
       | Some v, Some vs => Some (v :: vs)
       | _, _ => None
       end)
  end.

(** [z.array(schema)], with [.min(1, message)] when a message is given: the
    length is checked first, then the elements are parsed. *)
Definition z_array {A} (schema : ZodType A) (minMessage : option string)
  : ZodType (list A) := fun path input =>
  match input with
  | Some (JArray items) =>
      let tooShort :=
        match minMessage with
        | Some message =>
            if (List.length items <? 1)%nat then [customIssue path message]
            else []
        | None => []
        end in
      let (errs, out) := parseItems schema path 0 items in
      (tooShort ++ errs, out)
  | _ => ([defaultIssue path (invalid_type "array") input], None)
  end.

(** [z.union(options)]: the output of the first option that accepts the
    value; when none does, one issue for the union. *)
Fixpoint firstValid (options : list (ZodType Json)) (path : list PathSeg)
  (input : option Json) : option Json :=
  match options with
  | [] => None
  | schema :: options' =>
      match schema path input with
      | ([], Some v) => Some v
      | _ => firstValid options' path input
      end
  end.

Definition z_union (options : list (ZodType Json)) : ZodType Json :=
  fun path input =>
    match firstValid options path input with
    | Some v => ([], Some v)
    | None => ([defaultIssue path invalid_union input], None)
    end.

Definition asJson {A} (inj : A -> Json) (schema : ZodType A) : ZodType Json :=
  fun path input =>
    let (errs, out) := schema path input in (errs, option_map inj out).

(** [answerSchema] *)
Definition answerSchema : ZodType Answer.t := fun path input =>
  match input with
  | Some (JObject members) =>
      let (errs1, fieldId) :=
        z_string_min1 "Field ID is required" (path ++ [Key "fieldId"])
          (member "fieldId" members) in
      let (errs2, value) :=
        z_union [ asJson JString z_string;
                  asJson (fun l => JArray (map JString l)) (z_array z_string None);
                  asJson JNumber z_number;
                  z_boolean;
                  z_null ]
          (path ++ [Key "value"]) (member "value" members) in
      (errs1 ++ errs2,
       match fieldId, value with
       | Some f, Some v => Some {| Answer.fieldId := f; Answer.value := v |}
       | _, _ => None
       end)
  | _ => ([defaultIssue path (invalid_type "object") input], None)
  end.

(** The schema of [meta], before [.optional()]. *)
Definition metaSchema : ZodType Meta.t := fun path input =>
  match input with
  | Some (JObject members) =>
      let (errs1, fingerprint) :=
        z_optional z_string (path ++ [Key "fingerprint"])
          (member "fingerprint" members) in
      let (errs2, timezone) :=
        z_optional z_string (path ++ [Key "timezone"])
          (member "timezone" members) in
      let (errs3, userAgent) :=
        z_optional z_string (path ++ [Key "userAgent"])
          (member "userAgent" members) in
      (errs1 ++ errs2 ++ errs3,
       match fingerprint, timezone, userAgent with
       | Some f, Some t, Some u =>
           Some {| Meta.fingerprint := f; Meta.timezone := t;
                   Meta.userAgent := u |}
       | _, _, _ => None
       end)
  | _ => ([defaultIssue path (invalid_type "object") input], None)
  end.

(** [createResponseSchema] *)
Definition createResponseSchema : ZodType Payload.t := fun path input =>
  match input with
  | Some (JObject members) =>
      let (errs1, completionMs) :=
        z_optional z_completionMs (path ++ [Key "completionMs"])
          (member "completionMs" members) in
      let (errs2, answers) :=
        z_array answerSchema (Some "At least one answer is required")
          (path ++ [Key "answers"]) (member "answers" members) in
      let (errs3, meta) :=
        z_optional metaSchema (path ++ [Key "meta"]) (member "meta" members) in
      let (errs4, honey) :=
        z_optional z_string (path ++ [Key "honey"]) (member "honey" members) in
      (errs1 ++ errs2 ++ errs3 ++ errs4,
       match completionMs, answers, meta, honey with
       | Some c, Some a, Some m, Some h =>
           Some {| Payload.completionMs := c; Payload.answers := a;
                   Payload.meta := m; Payload.honey := h |}
       | _, _, _, _ => None
       end)
  | _ => ([defaultIssue path (invalid_type "object") input], None)
  end.

(** [createResponseSchema.safeParse(json)] *)
Definition safeParse (json : Json) : SafeParse :=
  match createResponseSchema [] (Some json) with
  | ([], Some data) => ParseSuccess data
  | (issues, _) => ParseError issues
  end.

End Schema.

(** *** The handler *)

(** [{ path, message }], an element of the [issues] of a 422 body. *)
Module ResponseIssue.
Record t := { path : string; message : string }.
End ResponseIssue.

Definition segString (seg : PathSeg) : string :=
  match seg with
  | Key k => k
  | Index i => NilZero.string_of_uint (Nat.to_uint i)
  end.

(** [issue.path.join(".")] *)
Definition joinPath (path : list PathSeg) : string :=
  String.concat "." (map segString path).

(** An element of [answers.create] in the call to the database. *)
Module CreateAnswer.
Record t := { value : Json; field_connect_id : string }.
End CreateAnswer.

(** The [data] of [prisma.formResponse.create], without the [metadata]
    assembled from the request headers. *)
Module CreateData.
Record t := {
  formId : string;
  completionMs : option Js.number;
  answers_create : list CreateAnswer.t
}.
End CreateData.

(** What a request ends in: one of the early responses, or the call to the
    database that creates the response (answered with 201). *)
Inductive Outcome :=
| Unauthorized                                        (* 401 *)
| SchemaFailed (issues : list ResponseIssue.t)        (* 422, request schema *)
| Suspicious                                          (* 400 *)
| FormNotFound                                        (* 404 *)
| ValidationFailed (issues : list ResponseIssue.t)    (* 422, answers *)
| Created (data : CreateData.t).                      (* create, then 201 *)

(** [{ path: issue.fieldId, message: issue.message }] *)
Definition toResponseIssue (issue : Issue.t) : ResponseIssue.t :=
  {| ResponseIssue.path := Issue.fieldId issue;
     ResponseIssue.message := Issue.message issue |}.

(** [{ path: issue.path.join("."), message: issue.message }] *)
Definition zodResponseIssue (issue : ZodIssue.t) : ResponseIssue.t :=
  {| ResponseIssue.path := joinPath (ZodIssue.path issue);
     ResponseIssue.message := ZodIssue.message issue |}.

(** [{ value: answer.value, field: { connect: { id: answer.fieldId } } }] *)
Definition toCreateAnswer (answer : Persist.t) : CreateAnswer.t :=
  {| CreateAnswer.value := Persist.value answer;
     CreateAnswer.field_connect_id := Persist.fieldId answer |}.

(** [request.json().catch(() => ({}))] *)
Definition bodyJson (body : option Json) : Json :=
  match body with Some j => j | None => JObject [] end.

Section Handler.

Variable defaultMessage : ZodCode -> option Json -> string.
Variable Date_parse : string -> Js.number.

(** [prisma.form.findFirst] by form id and owner id. *)
Variable findFirst : string -> string -> option Form.t.

(** The handler from the form lookup on. *)
Definition submit (form : Form.t) (payload : Payload.t) : Outcome :=
  let acc := validateAnswers Date_parse (Form.fields form) (Payload.answers payload) in
  if (0 <? List.length (issues acc))%nat then
    ValidationFailed (map toResponseIssue (issues acc))
  else
    Created
      {| CreateData.formId := Form.id form;
         CreateData.completionMs := Payload.completionMs payload;
         CreateData.answers_create :=
           map toCreateAnswer (answersToPersist acc) |}.

(** [POST(request, { params })]: [session] is the id of the signed-in user,
    [body] the JSON of the request ([None] when it is not JSON). *)
Definition POST (session : option string) (formId : string)
  (body : option Json) : Outcome :=
  match session with
  | None => Unauthorized
  | Some userId =>
      match safeParse defaultMessage (bodyJson body) with
      | ParseError issues => SchemaFailed (map zodResponseIssue issues)
      | ParseSuccess payload =>
          let honeyFilled :=
            match Payload.honey payload with
            | Some honey =>
                negb (isEmpty honey)
                && (0 <? String.length (Js.trim honey))%nat
            | None => false
            end in
          if honeyFilled then Suspicious
          else
            match findFirst formId userId with
            | None => FormNotFound
            | Some form => submit form payload
            end
      end
  end.

End Handler.

(** Sample data: an error map with one message for everything, and a
    database that holds one form of one owner. *)
Definition plainMessages (code : ZodCode) (input : option Json) : string :=
  "Invalid input".

Definition oneForm (form : Form.t) (owner : string) (formId userId : string)
  : option Form.t :=
  if String.eqb formId (Form.id form) && String.eqb userId owner
  then Some form else None.

(** A form with one required text field, and one with a required checkbox
    field whose options are [a] and [b]. *)
Definition contactForm : Form.t :=
  {| Form.id := "form-1";
     Form.fields := [fieldRow "name" "short_text" true JNull] |}.

Definition requiredCheckbox : Field.t := fieldRow "c" "checkbox" true abOptions.

Definition answerOf (fieldId : string) (value : Json) : Answer.t :=
  {| Answer.fieldId := fieldId; Answer.value := value |}.

Definition payloadOf (answers : list Answer.t) : Payload.t :=
  {| Payload.completionMs := None; Payload.answers := answers;
     Payload.meta := None; Payload.honey := None |}.

End Submission.

(** ** The editor around the reducer *)

Module Editor.

Import Builder.

(** The ids of the fields, in order. *)
Definition fieldIds (s : BuilderState.t) : list string :=
  map FormField.id (BuilderState.fields s).

(** No two fields carry the same id. *)
Definition uniqueIds (s : BuilderState.t) : Prop := NoDup (fieldIds s).

(** The selection is empty or names a field of the form. *)
Definition selectionValid (s : BuilderState.t) : Prop :=
  match BuilderState.selectedFieldId s with
  | None => True
  | Some id => In id (fieldIds s)
  end.

(** [selectedField] of [FormBuilder]:
    [state.fields.find(field => field.id === state.selectedFieldId) ?? null] *)
Definition selectedField (s : BuilderState.t) : option FormField.t :=
  match BuilderState.selectedFieldId s with
  | None => None
  | Some id => find (hasId id) (BuilderState.fields s)
  end.

(** What the callers of [dispatch] see to: the id of an added field and the
    id drawn for a clone are not in use, and an update does not rename a
    field. *)
Definition idsKept (createId : nat -> string) (s : BuilderState.t)
  (action : BuilderAction) : Prop :=
  match action with
  | ADD_FIELD payload => absent (FormField.id payload) (BuilderState.fields s)
  | DUPLICATE_FIELD _ => absent (createId 0%nat) (BuilderState.fields s)
  | UPDATE_FIELD _ changes => FieldChanges.id changes = None
  | _ => True
  end.

(** The action does not select an id outside the form and does not rename
    a field. *)
Definition selectionKept (s : BuilderState.t) (action : BuilderAction) : Prop :=
  match action with
  | SELECT_FIELD (Some id) => In id (fieldIds s)
  | UPDATE_FIELD _ changes => FieldChanges.id changes = None
  | _ => True
  end.

(** The actions on the field list and the selection, as opposed to those on
    the form meta, the builder mode and the theme. *)
Definition isFieldAction (action : BuilderAction) : bool :=
  match action with
  | ADD_FIELD _ | REMOVE_FIELD _ | DUPLICATE_FIELD _ | SELECT_FIELD _
  | UPDATE_FIELD _ _ | REORDER_FIELD _ _ => true
  | _ => false
  end.

(** A [Partial<FormField>] that holds the key [options] only. *)
Definition optionsChange (options : list FieldOption.t) : FieldChanges.t :=
  {| FieldChanges.id := None; FieldChanges.type := None;
     FieldChanges.label := None; FieldChanges.description := None;
     FieldChanges.placeholder := None; FieldChanges.required := None;
     FieldChanges.options := Some (Some options);
     FieldChanges.minLength := None; FieldChanges.maxLength := None;
     FieldChanges.min := None; FieldChanges.max := None;
     FieldChanges.step := None |}.

(** [field.options ?? []] of [OptionEditor] *)
Definition editorOptions (field : FormField.t) : list FieldOption.t :=
  match FormField.options field with Some options => options | None => [] end.

(** [handleOptionChange(optionId, value)]: the argument of [onUpdate]. *)
Definition handleOptionChange (field : FormField.t) (optionId value : string)
  : FieldChanges.t :=
  optionsChange
    (map (fun option =>
            if String.eqb (FieldOption.id option) optionId
            then {| FieldOption.id := FieldOption.id option;
                    FieldOption.label := value;
                    FieldOption.value := value |}
            else option)
         (editorOptions field)).

(** [handleRemove(optionId)] *)
Definition handleRemove (field : FormField.t) (optionId : string)
  : FieldChanges.t :=
  optionsChange
    (filter (fun option => negb (String.eqb (FieldOption.id option) optionId))
            (editorOptions field)).

(** The decimal digits of an index, as a template literal prints it. *)
Definition decimal (n : nat) : string := NilZero.string_of_uint (Nat.to_uint n).

(** [handleAdd()]; [createId 0] is the one id it draws. *)
Definition handleAdd (createId : nat -> string) (field : FormField.t)
  : FieldChanges.t :=
  let index := (List.length (editorOptions field) + 1)%nat in
  optionsChange
    (editorOptions field
     ++ [{| FieldOption.id := createId 0%nat;
            FieldOption.label := ("Option " ++ decimal index)%string;
            FieldOption.value := ("option-" ++ decimal index)%string |}]).

(** An entry of [fields] in the body of the publish request. *)
Module PublishField.
Record t := {
  id : string;
  label : string;
  type : FieldType;
  required : bool;
  options : option (list FieldOption.t)
}.
End PublishField.

(** The body of the publish request. *)
Module PublishPayload.
Record t := {
  title : string;
  description : string;
  fields : list PublishField.t
}.
End PublishPayload.

(** What [publishForm] does up to its request: nothing while a request is
    under way, one of the two alerts, or the POST of the payload to
    [/api/forms]. *)
Inductive PublishStep :=
| PublishIgnored
| AlertTitleTooShort
| AlertNoFields
| PublishRequest (payload : PublishPayload.t).

Definition toPublishField (f : FormField.t) : PublishField.t :=
  {| PublishField.id := FormField.id f;
     PublishField.label := FormField.label f;
     PublishField.type := FormField.type f;
     PublishField.required := FormField.required f;
     PublishField.options := FormField.options f |}.

(** [publishForm()], up to the call of [fetch]. *)
Definition publishForm (publishing : bool) (state : BuilderState.t)
  : PublishStep :=
  if publishing then PublishIgnored
  else
    let title := FormMeta.title (BuilderState.formMeta state) in
    if (String.length title =? 0)%nat
       || (String.length (Js.trim title) <? 3)%nat
    then AlertTitleTooShort
    else if (List.length (BuilderState.fields state) =? 0)%nat
    then AlertNoFields
    else
      PublishRequest
        {| PublishPayload.title := title;
           PublishPayload.description :=
             FormMeta.description (BuilderState.formMeta state);
           PublishPayload.fields :=
             map toPublishField (BuilderState.fields state) |}.

End Editor.

(** ** Reading a theme snapshot *)

Module ThemeView.

Import Builder.

(** [snapshot[key]] for a surface key. *)
Definition surface (k : SurfaceKey.t) (s : ThemeSnapshot.t) : string :=
  match k with
  | SurfaceKey.background => ThemeSnapshot.background s
  | SurfaceKey.panel => ThemeSnapshot.panel s
  | SurfaceKey.card => ThemeSnapshot.card s
  | SurfaceKey.border => ThemeSnapshot.border s
  | SurfaceKey.text => ThemeSnapshot.text s
  | SurfaceKey.muted => ThemeSnapshot.muted s
  end.

(** [activeTheme] of [FormBuilder]: [state.theme.palette[state.theme.mode]] *)
Definition activeTheme (s : BuilderState.t) : ThemeSnapshot.t :=
  Palette.get (ThemeState.mode (BuilderState.theme s))
    (ThemeState.palette (BuilderState.theme s)).

(** The snapshot of the mode that is not active. *)
Definition inactiveTheme (s : BuilderState.t) : ThemeSnapshot.t :=
  Palette.get
    (match ThemeState.mode (BuilderState.theme s) with
     | light => dark
     | dark => light
     end)
    (ThemeState.palette (BuilderState.theme s)).

(** Switching to a mode and editing a token there: the two dispatches the
    mode card and the theme panel send. *)
Definition editTokenIn (createId : nat -> string) (m : ThemeMode)
  (tag : ThemeTag.t) (key : TokenKey.t) (value : AttrValue)
  (s : BuilderState.t) : BuilderState.t :=
  builderReducer createId (builderReducer createId s (SET_THEME_MODE m))
    (UPDATE_THEME_TOKEN tag key value).

End ThemeView.

(** ** What the route keeps and what its schema accepts *)

Module Normal.

Import Submission.

(** One list is the other with some elements left out. *)
Inductive Subsequence {A : Type} : list A -> list A -> Prop :=
| Subsequence_nil : Subsequence [] []
| Subsequence_skip x l1 l2 : Subsequence l1 l2 -> Subsequence l1 (x :: l2)
| Subsequence_take x l1 l2 : Subsequence l1 l2 -> Subsequence (x :: l1) (x :: l2).

Definition isJString (j : Json) : bool :=
  match j with JString _ => true | _ => false end.

(** The values the union of [answerSchema] lets through: a string, an
    array of strings, a finite number, a boolean or null. *)
Definition answerValueShape (v : Json) : bool :=
  match v with
  | JString _ | JBool _ | JNull => true
  | JNumber n => Js.Number_isFinite n
  | JArray items => forallb isJString items
  | JObject _ => false
  end.

(** The value is what the per-field loop keeps for a field of this type:
    a trimmed non-empty text; a trimmed address that the pattern accepts; a
    finite number; a non-empty choice among the declared options, if any
    are declared; a non-empty array of such choices; a non-empty date text
    that [Date.parse] reads. *)
Definition normalizedFor (Date_parse : string -> Js.number) (field : Field.t)
  (value : Json) : bool :=
  let options := parseOptions (Field.options field) in
  let declared (v : string) := Js.isNil options || includes options v in
  match fieldTypeOf (Field.type field), value with
  | Some Builder.short_text, JString s | Some Builder.long_text, JString s =>
      negb (isEmpty s) && String.eqb (Js.trim s) s
  | Some Builder.email, JString s =>
      negb (isEmpty s) && String.eqb (Js.trim s) s && emailRegex_test s
  | Some Builder.number, JNumber n => Js.Number_isFinite n
  | Some Builder.dropdown, JString s => negb (isEmpty s) && declared s
  | Some Builder.checkbox, JArray items =>
      negb (Js.isNil items)
      && forallb (fun item => match item with
                              | JString v => declared v
                              | _ => false
                              end) items
  | Some Builder.date, JString s =>
      negb (isEmpty s) && Js.Number_isFinite (Date_parse s)
  | _, _ => false
  end.

(** A persisted answer sent in again as an answer. *)
Definition resubmit (p : Persist.t) : Answer.t :=
  {| Answer.fieldId := Persist.fieldId p; Answer.value := Persist.value p |}.

(** An answer of the create sent in again as an answer. *)
Definition resubmitCreated (c : CreateAnswer.t) : Answer.t :=
  {| Answer.fieldId := CreateAnswer.field_connect_id c;
     Answer.value := CreateAnswer.value c |}.

(** The persisted answer belongs to the field and is normalized for it. *)
Definition keptFor (Date_parse : string -> Js.number) (p : Persist.t)
  (field : Field.t) : Prop :=
  Persist.fieldId p = Field.id field
  /\ normalizedFor Date_parse field (Persist.value p) = true.

(** The union of [answerSchema] for the key [value]. *)
Definition valueSchema (defaultMessage : ZodCode -> option Json -> string)
  : ZodType Json :=
  z_union defaultMessage
    [ asJson JString (z_string defaultMessage);
      asJson (fun l => JArray (map JString l))
        (z_array defaultMessage (z_string defaultMessage) None);
      asJson JNumber (z_number defaultMessage);
      z_boolean defaultMessage;
      z_null defaultMessage ].

(** The JSON of an answer as a client sends it. *)
Definition encodeAnswer (a : Answer.t) : Json :=
  JObject [("fieldId", JString (Answer.fieldId a)); ("value", Answer.value a)].

(** An answer the schema lets through. *)
Definition answerAccepted (a : Answer.t) : bool :=
  negb (isEmpty (Answer.fieldId a)) && answerValueShape (Answer.value a).

(** The item of a request body reads as the answer: an object with the
    answer's field id and value under the keys [fieldId] and [value]. *)
Definition readsAs (item : Json) (a : Answer.t) : Prop :=
  exists members,
    item = JObject members
    /\ member "fieldId" members = Some (JString (Answer.fieldId a))
    /\ member "value" members = Some (Answer.value a).

(** [completionMs], when given, is a positive integer of at most half an
    hour of milliseconds. *)
Definition completionMsAccepted (c : option Js.number) : bool :=
  match c with
  | None => true
  | Some n =>
      Js.Number_isInteger n && Js.ltb (Js.Finite 0%Q) n
      && Js.leb n (Js.ofZ (1000 * 60 * 30))
  end.

End Normal.

(** ** The route that lists the responses *)

Module Responses.

Import Submission.

(** [Array.prototype.sort(compare)] on a copy.  The sort is stable, so for
    a comparison that orders by a key the result is the one of inserting
    the elements, last to first, each before the first element that it
    does not come after. *)
Fixpoint insertSorted {A} (compare : A -> A -> Z) (x : A) (l : list A)
  : list A :=
  match l with
  | [] => [x]
  | y :: l' =>
      if (compare x y <=? 0)%Z then x :: l else y :: insertSorted compare x l'
  end.

Fixpoint sort {A} (compare : A -> A -> Z) (l : list A) : list A :=
  match l with
  | [] => []
  | x :: l' => insertSorted compare x (sort compare l')
  end.

(** A field as the route selects it. *)
Module FieldHead.
Record t := { id : string; sortOrder : Z; label : string }.
End FieldHead.

Module FormHead.
Record t := { id : string; fields : list FieldHead.t }.
End FormHead.

(** A stored answer with the label and the type of its field. *)
Module StoredAnswer.
Record t := {
  id : string;
  fieldId : string;
  value : Json;
  field_label : string;
  field_type : string
}.
End StoredAnswer.

(** A stored response; [submittedAt] in milliseconds, [metadata] is
    [JNull] for a null column. *)
Module StoredResponse.
Record t := {
  id : string;
  formId : string;
  submittedAt : Z;
  completionMs : option Js.number;
  metadata : Json;
  answers : list StoredAnswer.t
}.
End StoredResponse.

Module AnswerView.
Record t := {
  id : string;
  fieldId : string;
  label : string;
  type : string;
  value : Json
}.
End AnswerView.

Module ResponseView.
Record t := {
  id : string;
  formId : string;
  submittedAt : string;
  completionMs : option Js.number;
  meta : option Json;
  answers : list AnswerView.t
}.
End ResponseView.

Inductive GetOutcome :=
| GetUnauthorized                                           (* 401 *)
| GetNotFound                                               (* 404 *)
| GetOk (formId : string) (responses : list ResponseView.t). (* 200 *)

(** [new Map(form.fields.map(field => [field.id, field.sortOrder])).get(id)]:
    the entry of the last field with the id. *)
Fixpoint sortOrderMap_get (fields : list FieldHead.t) (id : string) : option Z :=
  match fields with
  | [] => None
  | field :: fields' =>
      match sortOrderMap_get fields' id with
      | Some order => Some order
      | None =>
          if String.eqb (FieldHead.id field) id
          then Some (FieldHead.sortOrder field) else None
      end
  end.

(** [sortOrderMap.get(answer.fieldId) ?? 0] *)
Definition sortKey (fields : list FieldHead.t) (a : StoredAnswer.t) : Z :=
  match sortOrderMap_get fields (StoredAnswer.fieldId a) with
  | Some order => order
  | None => 0%Z
  end.

(** The comparison passed to [sort]. *)
Definition compareAnswers (fields : list FieldHead.t) (a b : StoredAnswer.t) : Z :=
  (sortKey fields a - sortKey fields b)%Z.

Definition toAnswerView (a : StoredAnswer.t) : AnswerView.t :=
  {| AnswerView.id := StoredAnswer.id a;
     AnswerView.fieldId := StoredAnswer.fieldId a;
     AnswerView.label := StoredAnswer.field_label a;
     AnswerView.type := StoredAnswer.field_type a;
     AnswerView.value := StoredAnswer.value a |}.

Section Get.

(** [Date.prototype.toISOString], on milliseconds. *)
Variable toISOString : Z -> string.

(** [prisma.form.findFirst] by form id and owner id, and
    [prisma.formResponse.findMany] by form id. *)
Variable findFirst : string -> string -> option FormHead.t.
Variable findMany : string -> list StoredResponse.t.

Definition toResponseView (fields : list FieldHead.t) (r : StoredResponse.t)
  : ResponseView.t :=
  {| ResponseView.id := StoredResponse.id r;
     ResponseView.formId := StoredResponse.formId r;
     ResponseView.submittedAt := toISOString (StoredResponse.submittedAt r);
     ResponseView.completionMs := StoredResponse.completionMs r;
     ResponseView.meta :=
       match StoredResponse.metadata r with
       | JNull => None
       | metadata => Some metadata
       end;
     ResponseView.answers :=
       map toAnswerView
         (sort (compareAnswers fields) (StoredResponse.answers r)) |}.

(** [GET(request, { params })] *)
Definition GET (session : option string) (formId : string) : GetOutcome :=
  match session with
  | None => GetUnauthorized
  | Some userId =>
      match findFirst formId userId with
      | None => GetNotFound
      | Some form =>
          GetOk formId
            (map (toResponseView (FormHead.fields form))
                 (findMany (FormHead.id form)))
      end
  end.

End Get.

(** The answers come in the order of their sort keys. *)
Definition inSortOrder (fields : list FieldHead.t) (l : list StoredAnswer.t)
  : Prop :=
  StronglySorted (fun a b => (sortKey fields a <= sortKey fields b)%Z) l.

End Responses.

(** ** The interactive preview *)

Module Preview.

Import Builder.

(** [FieldValue = string | string[]] *)
Inductive FieldValue :=
| TextValue (s : string)
| ListValue (l : list string).

(** What a check of one field ends in: [undefined], a message, or the
    TypeError of calling [trim] on an array. *)
Inductive Checked :=
| NoError
| Error (message : string)
| Throws.

(** The tag of a field type, as the publish request and the stored form
    carry it. *)
Definition typeTag (t : FieldType) : string :=
  match t with
  | short_text => "short_text"
  | long_text => "long_text"
  | email => "email"
  | number => "number"
  | dropdown => "dropdown"
  | checkbox => "checkbox"
  | date => "date"
  end.

(** [FormErrors] and the values of the form: objects used as maps from
    field ids.  Setting a key replaces the entry of the key or adds one.
    The keys are ids made by [createId], a UUID or eight characters of
    digits and lower-case letters: none of them names a property that an
    object inherits, so a key that was not set reads as [undefined].  The
    order of the keys is not observed by the code, only their number. *)
Fixpoint assocSet {A} (key : string) (v : A) (m : list (string * A))
  : list (string * A) :=
  match m with
  | [] => [(key, v)]
  | (k, w) :: m' =>
      if String.eqb k key then (key, v) :: m' else (k, w) :: assocSet key v m'
  end.

Fixpoint assocGet {A} (key : string) (m : list (string * A)) : option A :=
  match m with
  | [] => None
  | (k, w) :: m' => if String.eqb k key then Some w else assocGet key m'
  end.

(** [delete object[key]] *)
Definition assocDelete {A} (key : string) (m : list (string * A))
  : list (string * A) :=
  filter (fun entry => negb (String.eqb (fst entry) key)) m.

Section Validate.

(** The text of a number inside a template literal. *)
Variable numberToString : Js.number -> string.

(** [validateField(field, value)]; [None] is a value that is
    [undefined]. *)
Definition validateField (field : FormField.t) (value : option FieldValue)
  : Checked :=
  match FormField.type field with
  | checkbox =>
      let selections :=
        match value with Some (ListValue l) => l | _ => [] end in
      if FormField.required field && Js.isNil selections
      then Error "Please choose at least one option."
      else NoError
  | type =>
      match value with
      | Some (ListValue _) => Throws
      | _ =>
          let stringValue :=
            match value with Some (TextValue s) => s | _ => "" end in
          let blank := (String.length (Js.trim stringValue) =? 0)%nat in
          if FormField.required field && blank
          then Error "This field is required."
          else if negb (FormField.required field) && blank then NoError
          else
            match type with
            | email =>
                if negb (Submission.emailRegex_test stringValue)
                then Error "Enter a valid email address."
                else NoError
            | number =>
                let numericValue := Js.Number stringValue in
                match numericValue with
                | Js.NaN => Error "Enter a numeric value."
                | _ =>
                    match FormField.min field with
                    | Some min =>
                        if Js.ltb numericValue min
                        then Error ("Minimum value is "
                                    ++ numberToString min ++ ".")%string
                        else
                          match FormField.max field with
                          | Some max =>
                              if Js.ltb max numericValue
                              then Error ("Maximum value is "
                                          ++ numberToString max ++ ".")%string
                              else NoError
                          | None => NoError
                          end
                    | None =>
                        match FormField.max field with
                        | Some max =>
                            if Js.ltb max numericValue
                            then Error ("Maximum value is "
                                        ++ numberToString max ++ ".")%string
                            else NoError
                        | None => NoError
                        end
                    end
                end
            | short_text | long_text =>
                let length := Js.ofZ (Z.of_nat (String.length stringValue)) in
                match FormField.minLength field with
                | Some minLength =>
                    if Js.ltb length minLength
                    then Error ("Must be at least "
                                ++ numberToString minLength
                                ++ " characters.")%string
                    else
                      match FormField.maxLength field with
                      | Some maxLength =>
                          if Js.ltb maxLength length
                          then Error ("Cannot exceed "
                                      ++ numberToString maxLength
                                      ++ " characters.")%string
                          else NoError
                      | None => NoError
                      end
                | None =>
                    match FormField.maxLength field with
                    | Some maxLength =>
                        if Js.ltb maxLength length
                        then Error ("Cannot exceed "
                                    ++ numberToString maxLength
                                    ++ " characters.")%string
                        else NoError
                    | None => NoError
                    end
                end
            | dropdown =>
                if (String.length stringValue =? 0)%nat
                then Error "Select an option."
                else NoError
            | _ => NoError
            end
      end
  end.

(** The loop of [validate()]: [None] when a check throws; otherwise the
    object it has filled. *)
Fixpoint validateFields (fields : list FormField.t)
  (values : list (string * FieldValue)) (nextErrors : list (string * string))
  : option (list (string * string)) :=
  match fields with
  | [] => Some nextErrors
  | field :: fields' =>
      match validateField field (assocGet (FormField.id field) values) with
      | Throws => None
      | NoError => validateFields fields' values nextErrors
      | Error message =>
          validateFields fields' values
            (if (String.length message =? 0)%nat then nextErrors
             else assocSet (FormField.id field) message nextErrors)
      end
  end.

(** [validate()] *)
Definition validate (fields : list FormField.t)
  (values : list (string * FieldValue)) : option (list (string * string)) :=
  validateFields fields values [].

(** [handleSubmit]: the submit state it sets, [true] for ["success"]. *)
Definition handleSubmit (fields : list FormField.t)
  (values : list (string * FieldValue)) : option bool :=
  match validate fields values with
  | Some validation => Some (List.length validation =? 0)%nat
  | None => None
  end.

End Validate.

(** [createInitialValues()] *)
Definition createInitialValues (fields : list FormField.t)
  : list (string * FieldValue) :=
  fold_left
    (fun values field =>
       assocSet (FormField.id field)
         (match FormField.type field with
          | checkbox => ListValue []
          | _ => TextValue ""
          end)
         values)
    fields [].

(** [handleChange(id, newValue)]: the new values and the new errors. *)
Definition handleChange (id : string) (newValue : FieldValue)
  (values : list (string * FieldValue)) (errors : list (string * string))
  : list (string * FieldValue) * list (string * string) :=
  (assocSet id newValue values,
   match assocGet id errors with
   | Some message =>
       if (String.length message =? 0)%nat then errors
       else assocDelete id errors
   | None => errors
   end).

(** The row of the stored form for a field of the builder, as the publish
    request sends it: same id, type and required flag. *)
Definition publishedAs (field : FormField.t) (row : Submission.Field.t) : Prop :=
  Submission.Field.id row = FormField.id field
  /\ Submission.Field.type row = typeTag (FormField.type field)
  /\ Submission.Field.required row = FormField.required field.

End Preview.

(** ** The flashlights of the theme provider *)

Module Flashlights.

Module FlashlightColor.
Record t := {
  id : string;
  label : string;
  color : string;
  halo : string;
  description : string
}.
End FlashlightColor.

(** [map.set(flash.id, flash)] on a [Map], whose entries keep the order in
    which their keys were first set. *)
Definition setFlash (map : list (string * FlashlightColor.t))
  (flash : FlashlightColor.t) : list (string * FlashlightColor.t) :=
  Preview.assocSet (FlashlightColor.id flash) flash map.

(** [mergeFlashlights(base, dynamic?)]; [None] is an argument left out. *)
Definition mergeFlashlights (base : list FlashlightColor.t)
  (dynamic : option (list FlashlightColor.t)) : list FlashlightColor.t :=
  match dynamic with
  | None | Some [] => base
  | Some dynamic =>
      let map := fold_left setFlash base [] in
      let map := fold_left setFlash dynamic map in
      List.map snd map
  end.

(** The last flashlight of a list that carries an id. *)
Definition lastWith (id : string) (l : list FlashlightColor.t)
  : option FlashlightColor.t :=
  find (fun flash => String.eqb (FlashlightColor.id flash) id) (rev l).

(** The elements of a list of ids, each once, in the order of their first
    occurrences. *)
Definition firstOccurrences (ids : list string) : list string :=
  rev (nodup string_dec (rev ids)).

(** A map whose entries sit under the ids of their flashlights. *)
Definition keyed (m : list (string * FlashlightColor.t)) : Prop :=
  Forall (fun entry => fst entry = FlashlightColor.id (snd entry)) m.

End Flashlights.

(** ** The metadata of a stored response *)

Module Metadata.

Import Submission.

(** The [metadata] object once its empty entries are deleted: the keys it
    can have, each with its string or without one. *)
Record t := {
  ipAddress : option string;
  userAgent : option string;
  timezone : option string;
  fingerprint : option string
}.

(** [s.split(",")[0]]: the text before the first comma. *)
Fixpoint firstPiece (s : string) : string :=
  match s with
  | EmptyString => EmptyString
  | String c s' => if Ascii.eqb c "," then EmptyString else String c (firstPiece s')
  end.

(** [payload.meta?.key] *)
Definition metaPart (key : Meta.t -> option string) (meta : option Meta.t)
  : option string :=
  match meta with Some m => key m | None => None end.

(** The metadata that [POST] hands to the create, from the [meta] of the
    payload and the request headers [x-forwarded-for], [x-real-ip] and
    [user-agent] ([None] for a header that is not sent); [None] is
    [undefined], for an object left without keys. *)
Definition requestMetadata (meta : option Meta.t)
  (xForwardedFor xRealIp userAgentHeader : option string) : option t :=
  let forwardedFor :=
    match xForwardedFor with Some v => Some v | None => xRealIp end in
  let ipAddress :=
    match forwardedFor with
    | Some v => Some (Js.trim (firstPiece v))
    | None => None
    end in
  let serverUserAgent := userAgentHeader in
  let metadata :=
    {| ipAddress := ipAddress;
       userAgent :=
         match metaPart Meta.userAgent meta with
         | Some u => Some u
         | None => serverUserAgent
         end;
       timezone := metaPart Meta.timezone meta;
       fingerprint := metaPart Meta.fingerprint meta |} in
  match ipAddress, userAgent metadata,
        timezone metadata, fingerprint metadata with
  | None, None, None, None => None
  | _, _, _, _ => Some metadata
  end.

End Metadata.

(** ** Sample data for the builder, the preview and the lists *)

Module Sample.

Import Builder Submission Responses Preview Flashlights.

(** A builder with the two text fields [a] and [b], the first selected. *)
Definition pairState : BuilderState.t :=
  withSelected (Some "a")
    (withFields [nameField "a"; nameField "b"] (initialState countingIds)).

Definition yesNo : list FieldOption.t :=
  [{| FieldOption.id := "o1"; FieldOption.label := "Yes";
      FieldOption.value := "yes" |};
   {| FieldOption.id := "o2"; FieldOption.label := "No";
      FieldOption.value := "no" |}].

(** A dropdown with two options. *)
Definition choiceField : FormField.t :=
  {| FormField.id := "choice";
     FormField.type := dropdown;
     FormField.label := "Choice";
     FormField.description := None;
     FormField.placeholder := None;
     FormField.required := false;
     FormField.options := Some yesNo;
     FormField.minLength := None; FormField.maxLength := None;
     FormField.min := None; FormField.max := None;
     FormField.step := None |}.

Definition choiceState : BuilderState.t :=
  withFields [choiceField] (initialState countingIds).

(** A printer of numbers for checks that print none. *)
Definition plainNumbers (n : Js.number) : string := "0".

Definition plainDates (ms : Z) : string := "1970-01-01T00:00:00.000Z".

(** A listed form whose second field sorts before its first. *)
Definition listedForm : FormHead.t :=
  {| FormHead.id := "form-1";
     FormHead.fields :=
       [{| FieldHead.id := "name"; FieldHead.sortOrder := 1%Z;
           FieldHead.label := "Name" |};
        {| FieldHead.id := "age"; FieldHead.sortOrder := 0%Z;
           FieldHead.label := "Age" |}] |}.

Definition storedAnswer (id fieldId : string) : StoredAnswer.t :=
  {| StoredAnswer.id := id; StoredAnswer.fieldId := fieldId;
     StoredAnswer.value := JString "x";
     StoredAnswer.field_label := fieldId;
     StoredAnswer.field_type := "short_text" |}.

Definition storedResponse : StoredResponse.t :=
  {| StoredResponse.id := "r1"; StoredResponse.formId := "form-1";
     StoredResponse.submittedAt := 0%Z;
     StoredResponse.completionMs := None;
     StoredResponse.metadata := JNull;
     StoredResponse.answers :=
       [storedAnswer "a1" "name"; storedAnswer "a2" "age"] |}.

Definition listedForms (formId userId : string) : option FormHead.t :=
  if String.eqb formId "form-1" && String.eqb userId "owner"
  then Some listedForm else None.

Definition storedResponses (formId : string) : list StoredResponse.t :=
  if String.eqb formId "form-1" then [storedResponse] else [].

Definition flash (id color : string) : FlashlightColor.t :=
  {| FlashlightColor.id := id; FlashlightColor.label := id;
     FlashlightColor.color := color; FlashlightColor.halo := color;
     FlashlightColor.description := "" |}.

End Sample.

(** * Properties of the embedding *)

(** ** Runtime pieces on sample inputs *)

Example Number_42 : Js.Number "42" = Js.Finite (42 # 1).
Proof. vm_compute. reflexivity. Qed.

Example Number_abc : Js.Number "abc" = Js.NaN.
Proof. vm_compute. reflexivity. Qed.

Example Number_signed_fraction : Js.Number " -1.50e1 " = Js.Finite (-15 # 1).
Proof. vm_compute. reflexivity. Qed.

Example Number_hex : Js.Number "0x1F" = Js.Finite (31 # 1).
Proof. vm_compute. reflexivity. Qed.

Example Number_overflow : Js.Number "1e400" = Js.Infinity false.
Proof. vm_compute. reflexivity. Qed.

Example Number_lonely_dot : Js.Number "." = Js.NaN.
Proof. vm_compute. reflexivity. Qed.

Example Number_nearest_double :
  Js.Number "0.1" = Js.Finite (3602879701896397 # 36028797018963968).
Proof. vm_compute. reflexivity. Qed.

Example Number_tie_to_even :
  Js.Number "9007199254740993" = Js.Finite (9007199254740992 # 1)
  /\ Js.Number "9007199254740995" = Js.Finite (9007199254740996 # 1).
Proof. split; vm_compute; reflexivity. Qed.

Example Number_underflow :
  Js.Number "1e-400" = Js.Finite (0 # 1)
  /\ Js.Number "3e-324" = Js.Number "5e-324".
Proof. split; vm_compute; reflexivity. Qed.

Example Number_largest :
  Js.Number "1.7976931348623158e308" = Js.Number "1.7976931348623157e308"
  /\ Js.Number_isFinite (Js.Number "1.7976931348623158e308") = true
  /\ Js.Number "1.7976931348623159e308" = Js.Infinity false.
Proof. repeat split; vm_compute; reflexivity. Qed.

Example trim_both_ends : Js.trim "  a b  " = "a b".
Proof. vm_compute. reflexivity. Qed.

Example email_accepts : Submission.emailRegex_test "user@example.com" = true.
Proof. vm_compute. reflexivity. Qed.

Example email_rejects_plain : Submission.emailRegex_test "not-an-email" = false.
Proof. vm_compute. reflexivity. Qed.

Example email_rejects_edge_dot : Submission.emailRegex_test "a@.b" = false.
Proof. vm_compute. reflexivity. Qed.

Example cloneLabel_upper : Builder.cloneLabel "Name (COPY)" = "Name (copy)".
Proof. vm_compute. reflexivity. Qed.

Example cloneLabel_empty : Builder.cloneLabel "" = "(copy)".
Proof. vm_compute. reflexivity. Qed.

(** ** Lists as the reducer uses them *)

Section ListFacts.

Context {A : Type}.
Variable p : A -> bool.

Lemma findIndex_lower (l : list A) : (-1 <= Js.findIndex p l)%Z.
Proof.
  induction l as [|x l IH]; simpl; [lia|].
  destruct (p x); [lia|].
  destruct (Z.ltb_spec (Js.findIndex p l) 0); lia.
Qed.

(** No element satisfies the predicate: [findIndex] answers [-1] and [find]
    answers nothing. *)
Lemma findIndex_absent (l : list A) :
  (forall x, In x l -> p x = false) -> Js.findIndex p l = (-1)%Z.
Proof.
  induction l as [|x l IH]; simpl; intros H; [reflexivity|].
  rewrite (H x) by (left; reflexivity).
  rewrite IH by (intros y Hy; apply H; right; exact Hy).
  reflexivity.
Qed.

Lemma find_absent (l : list A) :
  (forall x, In x l -> p x = false) -> find p l = None.
Proof.
  induction l as [|x l IH]; simpl; intros H; [reflexivity|].
  rewrite (H x) by (left; reflexivity).
  apply IH. intros y Hy. apply H. right. exact Hy.
Qed.

(** The first element that satisfies the predicate sits at the index
    [findIndex] answers, and is the one [find] answers. *)
Lemma findIndex_first (pre : list A) (x : A) (post : list A) :
  (forall y, In y pre -> p y = false) -> p x = true ->
  Js.findIndex p (pre ++ x :: post) = Z.of_nat (List.length pre).
Proof.
  intros Hpre Hx. induction pre as [|y pre IH]; simpl.
  - rewrite Hx. reflexivity.
  - rewrite (Hpre y) by (left; reflexivity).
    rewrite IH by (intros z Hz; apply Hpre; right; exact Hz).
    destruct (Z.ltb_spec (Z.of_nat (List.length pre)) 0); lia.
Qed.

Lemma find_first (pre : list A) (x : A) (post : list A) :
  (forall y, In y pre -> p y = false) -> p x = true ->
  find p (pre ++ x :: post) = Some x.
Proof.
  intros Hpre Hx. induction pre as [|y pre IH]; simpl.
  - rewrite Hx. reflexivity.
  - rewrite (Hpre y) by (left; reflexivity).
    apply IH. intros z Hz. apply Hpre. right. exact Hz.
Qed.

(** What [find] answers splits the list at its first match. *)
Lemma find_split (l : list A) (x : A) :
  find p l = Some x ->
  exists pre post,
    l = pre ++ x :: post /\ (forall y, In y pre -> p y = false) /\ p x = true.
Proof.
  induction l as [|y l IH]; simpl; intros H; [discriminate|].
  destruct (p y) eqn:Hy.
  - inversion H; subst. exists [], l. repeat split; auto.
    intros z [].
  - destruct (IH H) as (pre & post & -> & Hpre & Hx).
    exists (y :: pre), post. repeat split; auto.
    intros z [<-|Hz]; auto.
Qed.

(** A non-negative answer of [findIndex] is a position of the list. *)
Lemma findIndex_range (l : list A) :
  (0 <= Js.findIndex p l)%Z ->
  (Js.findIndex p l < Z.of_nat (List.length l))%Z.
Proof.
  induction l as [|x l IH]; simpl; [lia|].
  destruct (p x); [lia|].
  destruct (Z.ltb_spec (Js.findIndex p l) 0); lia.
Qed.

Lemma firstn_prefix (pre l : list A) : firstn (List.length pre) (pre ++ l) = pre.
Proof. induction pre as [|y pre IH]; simpl; [destruct l|]; congruence. Qed.

Lemma skipn_prefix (pre l : list A) : skipn (List.length pre) (pre ++ l) = l.
Proof. induction pre as [|y pre IH]; simpl; auto. Qed.

Lemma spliceRemove_at (pre : list A) (x : A) (post : list A) :
  Js.spliceRemove (List.length pre) (pre ++ x :: post) = ([x], pre ++ post).
Proof.
  unfold Js.spliceRemove.
  rewrite skipn_prefix, firstn_prefix.
  replace (skipn (S (List.length pre)) (pre ++ x :: post)) with post.
  - reflexivity.
  - replace (pre ++ x :: post) with ((pre ++ [x]) ++ post)
      by (rewrite <- app_assoc; reflexivity).
    replace (S (List.length pre)) with (List.length (pre ++ [x]))
      by (rewrite length_app; simpl; lia).
    symmetry. apply skipn_prefix.
Qed.

Lemma spliceInsert_at (pre : list A) (x : A) (post : list A) :
  Js.spliceInsert (List.length pre) x (pre ++ post) = pre ++ x :: post.
Proof.
  unfold Js.spliceInsert. rewrite firstn_prefix, skipn_prefix. reflexivity.
Qed.

(** A non-negative answer of [findIndex] names the first match. *)
Lemma findIndex_split (l : list A) :
  (0 <= Js.findIndex p l)%Z ->
  exists pre x post,
    l = pre ++ x :: post
    /\ (forall y, In y pre -> p y = false) /\ p x = true
    /\ Js.findIndex p l = Z.of_nat (List.length pre).
Proof.
  induction l as [|x l IH]; cbn [Js.findIndex]; [lia|].
  destruct (p x) eqn:Hx.
  - intros _. exists [], x, l. repeat split; auto. intros y [].
  - destruct (Z.ltb_spec (Js.findIndex p l) 0) as [Hneg|Hpos]; [lia|].
    intros _. destruct (IH Hpos) as (pre & y & post & -> & Hpre & Hy & Hi).
    exists (x :: pre), y, post. repeat split; auto.
    + intros z [<-|Hz]; auto.
    + rewrite Hi. cbn [List.length]. lia.
Qed.

(** The [splice] that takes the field out in REORDER_FIELD takes exactly
    one element: the one [findIndex] found. *)
Lemma spliceRemove_found (l : list A) :
  (0 <= Js.findIndex p l)%Z ->
  exists x rest,
    Js.spliceRemove (Z.to_nat (Js.findIndex p l)) l = ([x], rest)
    /\ p x = true.
Proof.
  intros H. destruct (findIndex_split l H) as (pre & x & post & -> & _ & Hx & Hi).
  rewrite Hi, Nat2Z.id, spliceRemove_at. eauto.
Qed.

Lemma filter_all (l : list A) :
  (forall x, In x l -> p x = true) -> filter p l = l.
Proof.
  induction l as [|x l IH]; simpl; intros H; [reflexivity|].
  rewrite (H x) by (left; reflexivity).
  f_equal. apply IH. intros y Hy. apply H. right. exact Hy.
Qed.

End ListFacts.

(** ** Strings as the clone label uses them *)

Section StringFacts.

Lemma append_assoc (a b c : string) :
  ((a ++ b) ++ c)%string = (a ++ (b ++ c))%string.
Proof. induction a as [|x a IH]; cbn; [reflexivity|]. rewrite IH. reflexivity. Qed.

Lemma length_append (a b : string) :
  String.length (a ++ b)%string = (String.length a + String.length b)%nat.
Proof. induction a as [|x a IH]; cbn; [reflexivity|]. rewrite IH. reflexivity. Qed.

Lemma substring_whole (b : string) : substring 0 (String.length b) b = b.
Proof. induction b as [|x b IH]; cbn; [reflexivity|]. rewrite IH. reflexivity. Qed.

Lemma substring_after (a b : string) (n : nat) :
  substring (String.length a) n (a ++ b)%string = substring 0 n b.
Proof. induction a as [|x a IH]; cbn; [reflexivity|]. exact IH. Qed.

Lemma substring_before (a b : string) :
  substring 0 (String.length a) (a ++ b)%string = a.
Proof.
  induction a as [|x a IH]; cbn.
  - destruct b; reflexivity.
  - rewrite IH. reflexivity.
Qed.

Lemma list_ascii_of_append (a b : string) :
  list_ascii_of_string (a ++ b)%string
  = list_ascii_of_string a ++ list_ascii_of_string b.
Proof. induction a as [|x a IH]; cbn; [reflexivity|]. rewrite IH. reflexivity. Qed.

Lemma string_of_list_app (a b : list ascii) :
  string_of_list_ascii (a ++ b)
  = (string_of_list_ascii a ++ string_of_list_ascii b)%string.
Proof. induction a as [|x a IH]; cbn; [reflexivity|]. rewrite IH. reflexivity. Qed.

Lemma trimStartChars_idem (l : list ascii) :
  Js.trimStartChars (Js.trimStartChars l) = Js.trimStartChars l.
Proof.
  induction l as [|c l IH]; cbn; [reflexivity|].
  destruct (Js.isWhiteSpace c) eqn:E; [exact IH|].
  cbn. rewrite E. reflexivity.
Qed.

(** Trimming in front of a text that starts with a visible character. *)
Lemma trimStartChars_app (l : list ascii) (c : ascii) (t : list ascii) :
  Js.isWhiteSpace c = false ->
  Js.trimStartChars (l ++ c :: t) = Js.trimStartChars l ++ c :: t.
Proof.
  intros Hc. induction l as [|x l IH]; cbn.
  - rewrite Hc. reflexivity.
  - destruct (Js.isWhiteSpace x); [exact IH|reflexivity].
Qed.

(** Trimming a text that ends in the marker only trims its front. *)
Lemma trim_before_marker (x : string) :
  Js.trim (x ++ "(copy)")%string
  = (string_of_list_ascii (Js.trimStartChars (list_ascii_of_string x))
     ++ "(copy)")%string.
Proof.
  unfold Js.trim, Js.trimChars. rewrite list_ascii_of_append.
  change (list_ascii_of_string "(copy)")
    with ("("%char :: list_ascii_of_string "copy)").
  rewrite trimStartChars_app by reflexivity.
  rewrite rev_app_distr.
  change (rev ("("%char :: list_ascii_of_string "copy)"))
    with (")"%char :: list_ascii_of_string "ypoc(").
  cbn [app Js.trimStartChars].
  change (Js.isWhiteSpace ")"%char) with false. cbv iota.
  change (")"%char :: (list_ascii_of_string "ypoc("
                       ++ rev (Js.trimStartChars (list_ascii_of_string x))))
    with (rev (list_ascii_of_string "(copy)")
          ++ rev (Js.trimStartChars (list_ascii_of_string x))).
  rewrite <- rev_app_distr, rev_involutive, string_of_list_app.
  reflexivity.
Qed.

(** The label of a clone: a front without leading white space, then the
    marker. *)
Lemma cloneLabel_shape (label : string) :
  exists y,
    Builder.cloneLabel label = (y ++ "(copy)")%string
    /\ Js.trimStartChars (list_ascii_of_string y) = list_ascii_of_string y.
Proof.
  unfold Builder.cloneLabel.
  assert (H : exists x, Builder.replaceCopyCopy (label ++ " (copy)")%string
                        = (x ++ "(copy)")%string).
  { unfold Builder.replaceCopyCopy.
    destruct ((13 <=? String.length (label ++ " (copy)")%string)%nat
              && Js.eqbIgnoreCase
                   (substring (String.length (label ++ " (copy)")%string - 13) 13
                      (label ++ " (copy)")%string)
                   "(copy) (copy)").
    - eexists. reflexivity.
    - exists (label ++ " ")%string. rewrite append_assoc. reflexivity. }
  destruct H as [x ->]. rewrite trim_before_marker.
  eexists. split; [reflexivity|].
  rewrite list_ascii_of_string_of_list_ascii. apply trimStartChars_idem.
Qed.

(** Cloning the label of a clone gives the same label again. *)
Lemma cloneLabel_idempotent (label : string) :
  Builder.cloneLabel (Builder.cloneLabel label) = Builder.cloneLabel label.
Proof.
  destruct (cloneLabel_shape label) as (y & -> & Hy).
  unfold Builder.cloneLabel, Builder.replaceCopyCopy.
  rewrite append_assoc.
  change ("(copy)" ++ " (copy)")%string with "(copy) (copy)".
  rewrite length_append.
  change (String.length "(copy) (copy)") with 13%nat.
  replace (String.length y + 13 - 13)%nat with (String.length y) by lia.
  replace (13 <=? String.length y + 13)%nat with true
    by (symmetry; apply Nat.leb_le; lia).
  rewrite substring_after, substring_before.
  change (substring 0 13 "(copy) (copy)") with "(copy) (copy)".
  change (Js.eqbIgnoreCase "(copy) (copy)" "(copy) (copy)") with true.
  cbn [andb]. rewrite trim_before_marker, Hy, string_of_list_ascii_of_string.
  reflexivity.
Qed.

Lemma mapString_append (f : ascii -> ascii) (a b : string) :
  Js.mapString f (a ++ b)%string
  = (Js.mapString f a ++ Js.mapString f b)%string.
Proof. induction a as [|x a IH]; cbn; [reflexivity|]. rewrite IH. reflexivity. Qed.

Lemma mapString_length (f : ascii -> ascii) (a : string) :
  String.length (Js.mapString f a) = String.length a.
Proof. induction a as [|x a IH]; cbn; [reflexivity|]. rewrite IH. reflexivity. Qed.

Lemma eqb_append_same_length (a b c : string) :
  String.length a = String.length b ->
  String.eqb (a ++ c) (b ++ c) = String.eqb a b.
Proof.
  revert b. induction a as [|x a IH]; intros [|y b]; cbn; try discriminate.
  - intros _. apply String.eqb_refl.
  - intros H. injection H as H. rewrite (IH b H). reflexivity.
Qed.

Lemma eqbIgnoreCase_length (a b : string) :
  Js.eqbIgnoreCase a b = true -> String.length a = String.length b.
Proof.
  unfold Js.eqbIgnoreCase. intros H. apply String.eqb_eq in H.
  rewrite <- (mapString_length Js.canonicalize a), H. apply mapString_length.
Qed.

(** A text of at least [k] characters is a front and its last [k]
    characters. *)
Lemma split_last (k : nat) (s : string) :
  (k <= String.length s)%nat ->
  exists x m, s = (x ++ m)%string /\ String.length m = k.
Proof.
  induction s as [|c s IH]; cbn; intros H.
  - exists "", "". split; [reflexivity|]. cbn. lia.
  - destruct (Nat.eq_dec k (S (String.length s))) as [->|Hne].
    + exists "", (String c s). split; reflexivity.
    + destruct IH as (x & m & -> & Hm); [lia|].
      exists (String c x), m. split; [reflexivity|exact Hm].
Qed.

(** The last 13 characters of a text followed by the suffix, when the text
    has a last six. *)
Lemma last13_of_suffixed (x m : string) :
  String.length m = 6%nat ->
  let t := ((x ++ m) ++ " (copy)")%string in
  (13 <=? String.length t)%nat = true
  /\ substring (String.length t - 13) 13 t = (m ++ " (copy)")%string
  /\ substring 0 (String.length t - 13) t = x.
Proof.
  intros Hm. cbv zeta. rewrite append_assoc.
  assert (Hlen : String.length (x ++ (m ++ " (copy)"))%string
                 = (String.length x + 13)%nat).
  { rewrite !length_append, Hm. reflexivity. }
  rewrite Hlen.
  replace (String.length x + 13 - 13)%nat with (String.length x) by lia.
  split; [apply Nat.leb_le; lia|]. split.
  - rewrite substring_after.
    replace 13%nat with (String.length (m ++ " (copy)")%string)
      by (rewrite length_append, Hm; reflexivity).
    apply substring_whole.
  - apply substring_before.
Qed.

(** The replace on a label that ends in the marker, in any letter case:
    the marker is written anew and none is added. *)
Lemma replaceCopyCopy_marked (x m : string) :
  Js.eqbIgnoreCase m "(copy)" = true ->
  Builder.replaceCopyCopy ((x ++ m) ++ " (copy)")%string = (x ++ "(copy)")%string.
Proof.
  intros Hm.
  assert (Hlen : String.length m = 6%nat)
    by (apply eqbIgnoreCase_length in Hm; exact Hm).
  destruct (last13_of_suffixed x m Hlen) as (H13 & Hsub & Hfront).
  unfold Builder.replaceCopyCopy. rewrite H13, Hsub, Hfront.
  assert (E : Js.eqbIgnoreCase (m ++ " (copy)")%string "(copy) (copy)" = true).
  { unfold Js.eqbIgnoreCase in *. rewrite mapString_append.
    apply String.eqb_eq in Hm. rewrite Hm. reflexivity. }
  rewrite E. reflexivity.
Qed.

(** The replace on a label that does not end in the marker: nothing is
    replaced. *)
Lemma replaceCopyCopy_plain (label : string) :
  (forall x m, label = (x ++ m)%string -> Js.eqbIgnoreCase m "(copy)" = false) ->
  Builder.replaceCopyCopy (label ++ " (copy)")%string = (label ++ " (copy)")%string.
Proof.
  intros Hplain. unfold Builder.replaceCopyCopy.
  destruct (13 <=? String.length (label ++ " (copy)")%string)%nat eqn:H13;
    [|reflexivity].
  apply Nat.leb_le in H13. rewrite length_append in H13. cbn in H13.
  destruct (split_last 6 label) as (x & m & -> & Hlen); [lia|].
  destruct (last13_of_suffixed x m Hlen) as (_ & Hsub & _).
  rewrite Hsub.
  assert (E : Js.eqbIgnoreCase (m ++ " (copy)")%string "(copy) (copy)"
              = Js.eqbIgnoreCase m "(copy)").
  { unfold Js.eqbIgnoreCase. rewrite mapString_append.
    change (Js.mapString Js.canonicalize "(copy) (copy)")
      with (Js.mapString Js.canonicalize "(copy)"
            ++ Js.mapString Js.canonicalize " (copy)")%string.
    apply eqb_append_same_length.
    rewrite mapString_length, Hlen. reflexivity. }
  rewrite E, (Hplain x m eq_refl). reflexivity.
Qed.

(** Trimming a label that starts with a visible character and ends in the
    suffix changes nothing. *)
Lemma trim_suffixed_visible (c : ascii) (rest : string) :
  Js.isWhiteSpace c = false ->
  Js.trim (String c rest ++ " (copy)")%string
  = (String c rest ++ " (copy)")%string.
Proof.
  intros Hc.
  change (String c rest ++ " (copy)")%string
    with (String c (rest ++ " (copy)"))%string.
  replace (String c (rest ++ " (copy)"))%string
    with ((String c (rest ++ " ")) ++ "(copy)")%string
    by (cbn; rewrite append_assoc; reflexivity).
  rewrite trim_before_marker. cbn [list_ascii_of_string Js.trimStartChars].
  rewrite Hc. cbn [string_of_list_ascii].
  rewrite string_of_list_ascii_of_string. reflexivity.
Qed.

End StringFacts.

(** ** The builder reducer *)

Section BuilderFacts.

Import Builder.

Variable createId : nat -> string.

Lemma absent_hasId id fields :
  absent id fields -> forall f, In f fields -> hasId id f = false.
Proof. intros H f Hf. apply String.eqb_neq. apply H. exact Hf. Qed.

Lemma withFields_same (s : BuilderState.t) : withFields (BuilderState.fields s) s = s.
Proof. destruct s. reflexivity. Qed.

Lemma withSelected_same (s : BuilderState.t) :
  withSelected (BuilderState.selectedFieldId s) s = s.
Proof. destruct s. reflexivity. Qed.

(** Moving the field that sits right after [pre], at distance one in either
    direction, exchanges it with its neighbour. *)
Lemma if_false {B} (c : bool) (x y : B) :
  c = false -> (if c then x else y) = y.
Proof. intros ->. reflexivity. Qed.

Lemma reorder_up_fields (s : BuilderState.t) id pre a b post :
  BuilderState.fields s = pre ++ a :: b :: post ->
  absent id pre -> FormField.id a <> id -> FormField.id b = id ->
  builderReducer createId s (REORDER_FIELD id up)
  = withFields (pre ++ b :: a :: post) s.
Proof.
  intros Hf Hpre Ha Hb. unfold builderReducer. rewrite Hf.
  replace (pre ++ a :: b :: post) with ((pre ++ [a]) ++ b :: post)
    by (rewrite <- app_assoc; reflexivity).
  rewrite (findIndex_first (hasId id) (pre ++ [a]) b post).
  - rewrite if_false; [|apply Z.eqb_neq; lia].
    rewrite if_false.
    2:{ rewrite !length_app. simpl List.length. apply orb_false_iff.
        split; [apply Z.ltb_ge; lia|apply Z.leb_gt; lia]. }
    rewrite Nat2Z.id, spliceRemove_at.
    replace (Z.to_nat (Z.of_nat (List.length (pre ++ [a])) - 1))
      with (List.length pre) by (rewrite length_app; simpl; lia).
    rewrite <- app_assoc. change ([a] ++ post) with (a :: post).
    rewrite spliceInsert_at. reflexivity.
  - intros y Hy. apply in_app_or in Hy. destruct Hy as [Hy|[<-|[]]].
    + apply absent_hasId with (fields := pre); assumption.
    + apply String.eqb_neq. exact Ha.
  - apply String.eqb_eq. exact Hb.
Qed.

Lemma reorder_down_fields (s : BuilderState.t) id pre a b post :
  BuilderState.fields s = pre ++ a :: b :: post ->
  absent id pre -> FormField.id a = id ->
  builderReducer createId s (REORDER_FIELD id down)
  = withFields (pre ++ b :: a :: post) s.
Proof.
  intros Hf Hpre Ha. unfold builderReducer. rewrite Hf.
  rewrite (findIndex_first (hasId id) pre a (b :: post)).
  - rewrite if_false; [|apply Z.eqb_neq; lia].
    rewrite if_false.
    2:{ rewrite !length_app. simpl List.length. apply orb_false_iff.
        split; [apply Z.ltb_ge; lia|apply Z.leb_gt; lia]. }
    rewrite Nat2Z.id, spliceRemove_at.
    replace (Z.to_nat (Z.of_nat (List.length pre) + 1))
      with (List.length (pre ++ [b])) by (rewrite length_app; simpl; lia).
    replace (pre ++ b :: post) with ((pre ++ [b]) ++ post)
      by (rewrite <- app_assoc; reflexivity).
    rewrite spliceInsert_at, <- app_assoc. reflexivity.
  - apply absent_hasId. exact Hpre.
  - apply String.eqb_eq. exact Ha.
Qed.

Lemma reorder_absent (s : BuilderState.t) id direction :
  absent id (BuilderState.fields s) ->
  builderReducer createId s (REORDER_FIELD id direction) = s.
Proof.
  intros H. unfold builderReducer.
  rewrite findIndex_absent by (apply absent_hasId; exact H). reflexivity.
Qed.

(** C7. REORDER_FIELD leaves the state as it is when no field has the id,
    when the field is the first one and the direction is up, and when it is
    the last one and the direction is down; on any other field the field
    list of the new state is the old one with the field and its neighbour
    in the direction named exchanged, and the selection, the form meta, the
    builder mode and the theme are those of the old state.  The field of an
    id is the first one that carries it. *)
Theorem reorder_field_moves_one_step (s : BuilderState.t) (id : string) :
  (forall direction,
      absent id (BuilderState.fields s) ->
      builderReducer createId s (REORDER_FIELD id direction) = s)
  /\ (forall first rest,
         BuilderState.fields s = first :: rest -> FormField.id first = id ->
         builderReducer createId s (REORDER_FIELD id up) = s)
  /\ (forall front last,
         BuilderState.fields s = front ++ [last] ->
         absent id front -> FormField.id last = id ->
         builderReducer createId s (REORDER_FIELD id down) = s)
  /\ (forall pre a b post,
         BuilderState.fields s = pre ++ a :: b :: post ->
         absent id pre -> FormField.id a <> id -> FormField.id b = id ->
         let s' := builderReducer createId s (REORDER_FIELD id up) in
         BuilderState.fields s' = pre ++ b :: a :: post
         /\ BuilderState.selectedFieldId s' = BuilderState.selectedFieldId s
         /\ BuilderState.formMeta s' = BuilderState.formMeta s
         /\ BuilderState.mode s' = BuilderState.mode s
         /\ BuilderState.theme s' = BuilderState.theme s)
  /\ (forall pre a b post,
         BuilderState.fields s = pre ++ a :: b :: post ->
         absent id pre -> FormField.id a = id ->
         let s' := builderReducer createId s (REORDER_FIELD id down) in
         BuilderState.fields s' = pre ++ b :: a :: post
         /\ BuilderState.selectedFieldId s' = BuilderState.selectedFieldId s
         /\ BuilderState.formMeta s' = BuilderState.formMeta s
         /\ BuilderState.mode s' = BuilderState.mode s
         /\ BuilderState.theme s' = BuilderState.theme s).
Proof.
  split; [|split; [|split; [|split]]].
  - intros direction H. apply reorder_absent. exact H.
  - intros first rest Hf Hid. unfold builderReducer. rewrite Hf.
    change (first :: rest) with ([] ++ first :: rest).
    rewrite (findIndex_first (hasId id) [] first rest).
    + reflexivity.
    + intros y [].
    + apply String.eqb_eq. exact Hid.
  - intros front last Hf Hfront Hid. unfold builderReducer. rewrite Hf.
    rewrite (findIndex_first (hasId id) front last []).
    + rewrite if_false; [|apply Z.eqb_neq; lia].
      replace (Z.of_nat (List.length (front ++ [last]))
               <=? Z.of_nat (List.length front) + 1)%Z with true
        by (symmetry; apply Z.leb_le; rewrite length_app; simpl; lia).
      rewrite orb_true_r. reflexivity.
    + apply absent_hasId. exact Hfront.
    + apply String.eqb_eq. exact Hid.
  - intros pre a b post Hf Hpre Ha Hb. cbv zeta.
    rewrite (reorder_up_fields s id pre a b post Hf Hpre Ha Hb).
    destruct s. repeat split; reflexivity.
  - intros pre a b post Hf Hpre Ha. cbv zeta.
    rewrite (reorder_down_fields s id pre a b post Hf Hpre Ha).
    destruct s. repeat split; reflexivity.
Qed.

(** DUPLICATE_FIELD on the first field that carries the id: the clone goes
    right after it and takes the selection. *)
Lemma duplicate_at (c : nat -> string) (s : BuilderState.t) id pre field post :
  BuilderState.fields s = pre ++ field :: post ->
  absent id pre -> FormField.id field = id ->
  builderReducer c s (DUPLICATE_FIELD id)
  = withSelected (Some (c 0%nat))
      (withFields (pre ++ field :: cloneField c field :: post) s).
Proof.
  intros Hf Hpre Hid. unfold builderReducer. rewrite Hf.
  assert (Hfield : hasId id field = true) by (apply String.eqb_eq; exact Hid).
  rewrite (find_first (hasId id) pre field post)
    by (try apply absent_hasId; assumption).
  rewrite Hid.
  rewrite (findIndex_first (hasId id) pre field post)
    by (try apply absent_hasId; assumption).
  replace (Z.to_nat (Z.of_nat (List.length pre) + 1))
    with (List.length (pre ++ [field])) by (rewrite length_app; simpl; lia).
  replace (pre ++ field :: post) with ((pre ++ [field]) ++ post)
    by (rewrite <- app_assoc; reflexivity).
  rewrite spliceInsert_at, <- app_assoc. reflexivity.
Qed.

Lemma duplicate_absent (s : BuilderState.t) id :
  absent id (BuilderState.fields s) ->
  builderReducer createId s (DUPLICATE_FIELD id) = s.
Proof.
  intros H. unfold builderReducer.
  rewrite find_absent by (apply absent_hasId; exact H). reflexivity.
Qed.

Lemma update_absent (s : BuilderState.t) id changes :
  absent id (BuilderState.fields s) ->
  builderReducer createId s (UPDATE_FIELD id changes) = s.
Proof.
  intros H. unfold builderReducer.
  rewrite (map_ext_in _ (fun field => field)).
  - rewrite map_id. apply withFields_same.
  - intros f Hf. rewrite (absent_hasId id _ H f Hf). reflexivity.
Qed.

Lemma remove_absent (s : BuilderState.t) id :
  absent id (BuilderState.fields s) ->
  builderReducer createId s (REMOVE_FIELD id)
  = withSelected
      (if optionStringEqb (BuilderState.selectedFieldId s) id then None
       else BuilderState.selectedFieldId s) s.
Proof.
  intros H. unfold builderReducer.
  rewrite filter_all.
  - rewrite withFields_same. reflexivity.
  - intros f Hf. rewrite (absent_hasId id _ H f Hf). reflexivity.
Qed.

End BuilderFacts.

Section BuilderProperties.

Import Builder.

(** C6, as the reducer has it.  DUPLICATE_FIELD puts, right after the
    field it locates, a clone that takes the selection.  When the source
    label does not end in the marker [(copy)], the label of the clone is
    the source label suffixed by [ (copy)] and trimmed, which for a label
    that starts with a visible character is the label and the suffix as
    they are; when the source label ends in the marker, in any letter case,
    no marker is added: the label of the clone is the source label with its
    last marker written [(copy)], trimmed.  So the clone of a field
    labelled [Name] is labelled [Name (copy)], and duplicating that clone
    (under its fresh id) gives a clone that is again labelled
    [Name (copy)]; whatever the source label is, the clone of a clone
    carries the label of the clone.  Markers are not reduced to one: only
    the marker that the suffix would double is spared. *)
Theorem duplicate_field_label_single_copy
  (c1 c2 : nat -> string) (s : BuilderState.t) (id : string)
  (field : FormField.t) :
  find (hasId id) (BuilderState.fields s) = Some field ->
  let s1 := builderReducer c1 s (DUPLICATE_FIELD id) in
  let s2 := builderReducer c2 s1 (DUPLICATE_FIELD (c1 0%nat)) in
  let clone1 := cloneField c1 field in
  let clone2 := cloneField c2 clone1 in
  exists pre post,
    BuilderState.fields s = pre ++ field :: post
    /\ BuilderState.fields s1 = pre ++ field :: clone1 :: post
    /\ BuilderState.selectedFieldId s1 = Some (c1 0%nat)
    /\ ((forall x m, FormField.label field = (x ++ m)%string ->
                     Js.eqbIgnoreCase m "(copy)" = false) ->
        FormField.label clone1
        = Js.trim (FormField.label field ++ " (copy)")%string
        /\ (forall c rest,
               FormField.label field = String c rest ->
               Js.isWhiteSpace c = false ->
               FormField.label clone1
               = (FormField.label field ++ " (copy)")%string))
    /\ (forall x m,
           FormField.label field = (x ++ m)%string ->
           Js.eqbIgnoreCase m "(copy)" = true ->
           FormField.label clone1 = Js.trim (x ++ "(copy)")%string)
    /\ FormField.label clone2 = FormField.label clone1
    /\ (FormField.label field = "Name" ->
        FormField.label clone1 = "Name (copy)"
        /\ FormField.label clone2 = "Name (copy)")
    /\ (absent (c1 0%nat) (BuilderState.fields s) ->
        BuilderState.fields s2 = pre ++ field :: clone1 :: clone2 :: post
        /\ BuilderState.selectedFieldId s2 = Some (c2 0%nat)).
Proof.
  intros Hfind s1 s2 clone1 clone2.
  destruct (find_split _ _ _ Hfind) as (pre & post & Hf & Hpre & Hx).
  assert (Hid : FormField.id field = id) by (apply String.eqb_eq; exact Hx).
  assert (Habs : absent id pre).
  { intros f Hin. apply String.eqb_neq. apply Hpre. exact Hin. }
  assert (Hs1 : s1 = withSelected (Some (c1 0%nat))
                       (withFields (pre ++ field :: clone1 :: post) s)).
  { apply duplicate_at; assumption. }
  assert (Hl2 : FormField.label clone2 = FormField.label clone1).
  { apply cloneLabel_idempotent. }
  exists pre, post.
  split; [exact Hf|].
  split; [rewrite Hs1; destruct s; reflexivity|].
  split; [rewrite Hs1; destruct s; reflexivity|].
  split; [|split; [|split; [exact Hl2|split]]].
  - intros Hplain.
    assert (Hl1 : FormField.label clone1
                  = Js.trim (FormField.label field ++ " (copy)")%string).
    { unfold clone1, cloneField, cloneLabel. cbn [FormField.label].
      rewrite (replaceCopyCopy_plain _ Hplain). reflexivity. }
    split; [exact Hl1|].
    intros c rest Hlabel Hc. rewrite Hl1, Hlabel.
    apply trim_suffixed_visible. exact Hc.
  - intros x m Hlabel Hm.
    unfold clone1, cloneField, cloneLabel. cbn [FormField.label].
    rewrite Hlabel, (replaceCopyCopy_marked x m Hm). reflexivity.
  - intros Hlabel.
    assert (Hl1 : FormField.label clone1 = "Name (copy)").
    { unfold clone1, cloneField. cbn [FormField.label]. rewrite Hlabel.
      vm_compute. reflexivity. }
    split; [exact Hl1|]. rewrite Hl2. exact Hl1.
  - intros Hfresh.
    assert (Hs2 : s2 = withSelected (Some (c2 0%nat))
                         (withFields (pre ++ field :: clone1 :: clone2 :: post) s)).
    { unfold s2. rewrite Hs1.
      replace (withSelected (Some (c2 0%nat))
                 (withFields (pre ++ field :: clone1 :: clone2 :: post) s))
        with (withSelected (Some (c2 0%nat))
                (withFields ((pre ++ [field]) ++ clone1 :: clone2 :: post)
                   (withSelected (Some (c1 0%nat))
                      (withFields (pre ++ field :: clone1 :: post) s))))
        by (rewrite <- app_assoc; reflexivity).
      apply duplicate_at.
      + cbn [withSelected withFields BuilderState.fields].
        rewrite <- app_assoc. reflexivity.
      + intros f Hin. apply Hfresh. rewrite Hf.
        apply in_app_or in Hin. apply in_or_app.
        destruct Hin as [Hin|[<-|[]]]; [left; exact Hin|right; left; reflexivity].
      + reflexivity. }
    rewrite Hs2. destruct s. split; reflexivity.
Qed.

(** C8. UPDATE_THEME_TOKEN sets one attribute of one token of the snapshot
    of the active theme mode: the snapshot of the other mode is the same
    as before (light while dark is active, dark while light is active), and
    so are the fields, the selection, the form meta, the builder mode and
    the active mode; inside the active snapshot the surfaces, the tokens of
    the other tags and the other attributes of the token are kept. *)
Theorem update_theme_token_only_active_mode
  (createId : nat -> string) (s : BuilderState.t)
  (tag : ThemeTag.t) (key : TokenKey.t) (value : AttrValue) :
  let s' := builderReducer createId s (UPDATE_THEME_TOKEN tag key value) in
  let theme := BuilderState.theme s in
  let theme' := BuilderState.theme s' in
  let active := Palette.get (ThemeState.mode theme) (ThemeState.palette theme) in
  let active' := Palette.get (ThemeState.mode theme) (ThemeState.palette theme') in
  (ThemeState.mode theme = dark ->
   Palette.light (ThemeState.palette theme')
   = Palette.light (ThemeState.palette theme))
  /\ (ThemeState.mode theme = light ->
      Palette.dark (ThemeState.palette theme')
      = Palette.dark (ThemeState.palette theme))
  /\ BuilderState.fields s' = BuilderState.fields s
  /\ BuilderState.selectedFieldId s' = BuilderState.selectedFieldId s
  /\ BuilderState.formMeta s' = BuilderState.formMeta s
  /\ BuilderState.mode s' = BuilderState.mode s
  /\ ThemeState.mode theme' = ThemeState.mode theme
  /\ ThemeSnapshot.withTokens (ThemeSnapshot.tokens active) active' = active
  /\ (forall tag', tag' <> tag ->
      Tokens.get tag' (ThemeSnapshot.tokens active')
      = Tokens.get tag' (ThemeSnapshot.tokens active))
  /\ (forall key', key' <> key ->
      ThemeToken.get key' (Tokens.get tag (ThemeSnapshot.tokens active'))
      = ThemeToken.get key' (Tokens.get tag (ThemeSnapshot.tokens active)))
  /\ ThemeToken.get key (Tokens.get tag (ThemeSnapshot.tokens active'))
     = Some value.
Proof.
  destruct s as [fields sel meta mode [m [l d]]].
  cbv zeta. cbn [builderReducer withTheme BuilderState.theme BuilderState.fields
    BuilderState.selectedFieldId BuilderState.formMeta BuilderState.mode
    ThemeState.mode ThemeState.palette].
  repeat split.
  - intros ->. reflexivity.
  - intros ->. reflexivity.
  - destruct m; cbn; [destruct l | destruct d]; reflexivity.
  - intros tag' Hne. destruct m; cbn; destruct tag', tag; try reflexivity;
      exfalso; apply Hne; reflexivity.
  - intros key' Hne. destruct m; cbn; destruct tag; cbn;
      destruct key', key; try reflexivity; exfalso; apply Hne; reflexivity.
  - destruct m; cbn; destruct tag; cbn; destruct key; reflexivity.
Qed.

(** C9, as the reducer has it.  For an id that no field carries,
    DUPLICATE_FIELD, UPDATE_FIELD and REORDER_FIELD give the state back;
    REMOVE_FIELD keeps the fields and every other component, and gives the
    state back unless the selection is that very id, which it clears. *)
Theorem absent_id_actions_keep_state
  (createId : nat -> string) (s : BuilderState.t) (id : string) :
  absent id (BuilderState.fields s) ->
  builderReducer createId s (DUPLICATE_FIELD id) = s
  /\ (forall changes, builderReducer createId s (UPDATE_FIELD id changes) = s)
  /\ (forall direction,
         builderReducer createId s (REORDER_FIELD id direction) = s)
  /\ builderReducer createId s (REMOVE_FIELD id)
     = withSelected
         (if optionStringEqb (BuilderState.selectedFieldId s) id then None
          else BuilderState.selectedFieldId s) s
  /\ (BuilderState.selectedFieldId s <> Some id ->
      builderReducer createId s (REMOVE_FIELD id) = s).
Proof.
  intros H.
  split; [apply duplicate_absent; exact H|].
  split; [intros changes; apply update_absent; exact H|].
  split; [intros direction; apply reorder_absent; exact H|].
  split; [apply remove_absent; exact H|].
  intros Hsel. rewrite remove_absent by exact H.
  destruct (BuilderState.selectedFieldId s) as [sel|] eqn:E; cbn [optionStringEqb].
  - destruct (String.eqb_spec sel id) as [->|Hne].
    + exfalso. apply Hsel. reflexivity.
    + rewrite <- E. apply withSelected_same.
  - rewrite <- E. apply withSelected_same.
Qed.

Lemma ghost_absent : absent "ghost" (BuilderState.fields danglingState).
Proof.
  intros f Hin. cbn in Hin.
  destruct Hin as [<-|[<-|[<-|[]]]]; vm_compute; discriminate.
Qed.

(** C9 as stated fails: removing an id that no field carries changes the
    state when the selection is that id. *)
Lemma remove_absent_id_clears_dangling_selection :
  absent "ghost" (BuilderState.fields danglingState)
  /\ builderReducer countingIds danglingState (REMOVE_FIELD "ghost")
     <> danglingState.
Proof.
  split; [exact ghost_absent|].
  intros H. apply (f_equal BuilderState.selectedFieldId) in H.
  vm_compute in H. discriminate.
Qed.

Lemma absent_id_actions_keep_state_witness :
  builderReducer countingIds danglingState (DUPLICATE_FIELD "ghost")
  = danglingState
  /\ builderReducer countingIds danglingState (REMOVE_FIELD "ghost")
     = withSelected None danglingState.
Proof.
  pose proof (absent_id_actions_keep_state countingIds danglingState "ghost"
                ghost_absent) as (Hdup & _ & _ & Hrem & _).
  split; [exact Hdup|exact Hrem].
Defined.

Lemma reorder_field_moves_one_step_witness :
  let s := initialState countingIds in
  match BuilderState.fields s with
  | [a; b; c] =>
      builderReducer countingIds s (REORDER_FIELD "id-0" up) = s
      /\ builderReducer countingIds s (REORDER_FIELD "id-2" down) = s
      /\ BuilderState.fields
           (builderReducer countingIds s (REORDER_FIELD "id-1" up))
         = [b; a; c]
      /\ BuilderState.fields
           (builderReducer countingIds s (REORDER_FIELD "id-1" down))
         = [a; c; b]
      /\ builderReducer countingIds s (REORDER_FIELD "ghost" up) = s
  | _ => False
  end.
Proof.
  cbv zeta.
  set (s := initialState countingIds).
  cbn [s initialState BuilderState.fields].
  set (a := FormField.Build_t _ _ "Full name" _ _ _ _ _ _ _ _ _).
  set (b := FormField.Build_t _ _ "Work email" _ _ _ _ _ _ _ _ _).
  set (c := FormField.Build_t _ _ "Project type" _ _ _ _ _ _ _ _ _).
  split; [|split; [|split; [|split]]].
  - apply (proj1 (proj2 (reorder_field_moves_one_step countingIds s "id-0")) a [b; c]);
      reflexivity.
  - apply (proj1 (proj2 (proj2 (reorder_field_moves_one_step countingIds s "id-2")))
             [a; b] c); [reflexivity| |reflexivity].
    intros f [<-|[<-|[]]]; vm_compute; discriminate.
  - apply (proj1 (proj2 (proj2 (proj2
             (reorder_field_moves_one_step countingIds s "id-1")))) [] a b [c]);
      [reflexivity|intros f []|vm_compute; discriminate|reflexivity].
  - apply (proj2 (proj2 (proj2 (proj2
             (reorder_field_moves_one_step countingIds s "id-1")))) [a] b c []);
      [reflexivity| |reflexivity].
    intros f [<-|[]]; vm_compute; discriminate.
  - apply (proj1 (reorder_field_moves_one_step countingIds s "ghost") up).
    intros f [<-|[<-|[<-|[]]]]; vm_compute; discriminate.
Defined.

(** C6 as stated fails where the source label carries two markers
    already: the clone keeps both.  It also adds nothing to a label that
    ends in the marker without a space before it, and rewrites a marker in
    capitals. *)
Lemma duplicate_keeps_doubled_marker :
  let duplicated label :=
    map FormField.label
      (BuilderState.fields
         (builderReducer countingIds
            (withFields [labelled "n" label] (initialState countingIds))
            (DUPLICATE_FIELD "n"))) in
  duplicated "a (copy) (copy)" = ["a (copy) (copy)"; "a (copy) (copy)"]
  /\ duplicated "Draft(copy)" = ["Draft(copy)"; "Draft(copy)"]
  /\ duplicated "Name (COPY)" = ["Name (COPY)"; "Name (copy)"].
Proof. cbv zeta. repeat split; vm_compute; reflexivity. Qed.

Lemma duplicate_field_label_single_copy_witness :
  let s := withFields [nameField "n"] (initialState countingIds) in
  let c2 := fun k => countingIds (10 + k) in
  let s1 := builderReducer countingIds s (DUPLICATE_FIELD "n") in
  let s2 := builderReducer c2 s1 (DUPLICATE_FIELD "id-0") in
  map FormField.label (BuilderState.fields s1) = ["Name"; "Name (copy)"]
  /\ map FormField.label (BuilderState.fields s2)
     = ["Name"; "Name (copy)"; "Name (copy)"].
Proof.
  cbv zeta.
  destruct (duplicate_field_label_single_copy countingIds
              (fun k => countingIds (10 + k))
              (withFields [nameField "n"] (initialState countingIds))
              "n" (nameField "n") eq_refl)
    as (pre & post & Hf & Hs1 & _ & _ & _ & _ & Hname & Hs2).
  destruct pre as [|x pre]; [|destruct pre; discriminate Hf].
  destruct post; [|discriminate Hf].
  destruct (Hname eq_refl) as [Hl1 Hl2].
  assert (Hfresh : absent (countingIds 0)
                     (BuilderState.fields
                        (withFields [nameField "n"] (initialState countingIds)))).
  { intros f [<-|[]]. vm_compute. discriminate. }
  apply Hs2 in Hfresh. destruct Hfresh as [Hfields2 _].
  change (countingIds 0) with "id-0" in Hfields2.
  rewrite Hfields2, Hs1.
  cbn [map app].
  rewrite Hl1, Hl2. split; reflexivity.
Defined.

Lemma update_theme_token_only_active_mode_witness :
  let s := withTheme {| ThemeState.mode := dark;
                        ThemeState.palette := defaultThemePalette |}
             (initialState countingIds) in
  let s' := builderReducer countingIds s
              (UPDATE_THEME_TOKEN ThemeTag.label TokenKey.color (Str "#ff0000")) in
  Palette.light (ThemeState.palette (BuilderState.theme s'))
  = Palette.light defaultThemePalette
  /\ ThemeToken.color
       (Tokens.label (ThemeSnapshot.tokens
          (Palette.dark (ThemeState.palette (BuilderState.theme s')))))
     = Str "#ff0000".
Proof.
  cbv zeta.
  pose proof (update_theme_token_only_active_mode countingIds
                (withTheme {| ThemeState.mode := dark;
                              ThemeState.palette := defaultThemePalette |}
                   (initialState countingIds))
                ThemeTag.label TokenKey.color (Str "#ff0000")) as H.
  cbv zeta in H.
  destruct H as (Hlight & _ & _ & _ & _ & _ & _ & _ & _ & _ & Hset).
  split.
  - exact (Hlight eq_refl).
  - apply (f_equal (fun o => match o with Some v => v | None => Str "" end))
      in Hset.
    exact Hset.
Defined.

End BuilderProperties.

(** ** The answer validation of the route *)

Section EngineFacts.

Import Submission.

Variable Date_parse : string -> Js.number.

Ltac break_if :=
  match goal with
  | |- context [if ?c then _ else _] => destruct c eqn:?
  end.

(** One field adds at most one thing: an issue or an answer, under the
    field's own id. *)
Lemma processField_cases answers acc field :
  processField Date_parse answers acc field = acc
  \/ (exists message,
         processField Date_parse answers acc field
         = pushIssue (Field.id field) message acc)
  \/ (exists value,
         processField Date_parse answers acc field
         = pushAnswer (Field.id field) value acc).
Proof.
  unfold processField.
  destruct (find (answerFor (Field.id field)) answers) as [answer|].
  2:{ destruct (Field.required field); eauto. }
  destruct (fieldTypeOf (Field.type field)) as [[]|]; eauto.
  - repeat break_if; eauto.
  - repeat break_if; eauto.
  - repeat break_if; eauto.
  - destruct (Answer.value answer); repeat break_if; eauto.
  - repeat break_if; eauto.
  - destruct (ensureStringArray (Answer.value answer)) as [[|v vs]|];
      repeat break_if; eauto.
  - repeat break_if; eauto.
Qed.

Lemma processField_issues answers acc field :
  exists added,
    issues (processField Date_parse answers acc field) = issues acc ++ added.
Proof.
  destruct (processField_cases answers acc field) as [->|[[m ->]|[v ->]]].
  - exists []. rewrite app_nil_r. reflexivity.
  - eexists. reflexivity.
  - exists []. rewrite app_nil_r. reflexivity.
Qed.

Lemma processField_persisted answers acc field p :
  In p (answersToPersist (processField Date_parse answers acc field)) ->
  In p (answersToPersist acc) \/ Persist.fieldId p = Field.id field.
Proof.
  destruct (processField_cases answers acc field) as [->|[[m ->]|[v ->]]];
    cbn [pushIssue pushAnswer answersToPersist]; auto.
  intros H. apply in_app_or in H. destruct H as [H|[<-|[]]]; auto.
Qed.

(** The first loop: one issue per answer outside the form, in order. *)
Lemma flagForeign_fold fields answers acc :
  fold_left (flagForeign fields) answers acc
  = {| issues :=
         issues acc
         ++ map foreignIssue
              (filter (fun a => negb (fieldMap_has fields (Answer.fieldId a)))
                      answers);
       answersToPersist := answersToPersist acc |}.
Proof.
  revert acc. induction answers as [|a answers IH]; intros acc; cbn [fold_left].
  - cbn. rewrite app_nil_r. destruct acc. reflexivity.
  - rewrite IH. unfold flagForeign. cbn [filter].
    destruct (fieldMap_has fields (Answer.fieldId a)); cbn [negb].
    + reflexivity.
    + cbn [pushIssue issues answersToPersist map].
      rewrite <- app_assoc. reflexivity.
Qed.

(** The second loop keeps what is there: issues are only appended, and an
    answer it adds carries the id of a field of the list. *)
Lemma processField_fold_issues answers fields acc :
  exists added,
    issues (fold_left (processField Date_parse answers) fields acc)
    = issues acc ++ added.
Proof.
  revert acc. induction fields as [|f fields IH]; intros acc; cbn [fold_left].
  - exists []. rewrite app_nil_r. reflexivity.
  - destruct (IH (processField Date_parse answers acc f)) as [d2 ->].
    destruct (processField_issues answers acc f) as [d1 ->].
    exists (d1 ++ d2). rewrite app_assoc. reflexivity.
Qed.

Lemma processField_fold_persisted answers fields acc p :
  In p (answersToPersist (fold_left (processField Date_parse answers) fields acc)) ->
  In p (answersToPersist acc)
  \/ exists f, In f fields /\ Persist.fieldId p = Field.id f.
Proof.
  revert acc. induction fields as [|f fields IH]; intros acc; cbn [fold_left].
  - auto.
  - intros H. apply IH in H. destruct H as [H|(g & Hg & E)].
    + apply processField_persisted in H. destruct H as [H|E]; auto.
      right. exists f. split; [left; reflexivity|exact E].
    + right. exists g. split; [right; exact Hg|exact E].
Qed.

(** The third loop: one issue, in order, for each field of the list that
    has nothing in [answersToPersist], whatever [issues] holds already. *)
Lemma rescanField_fold fields acc :
  fold_left rescanField fields acc
  = {| issues := issues acc ++ map missingIssue (filter (notPersisted acc) fields);
       answersToPersist := answersToPersist acc |}.
Proof.
  revert acc. induction fields as [|f fields IH]; intros acc; cbn [fold_left].
  - cbn. rewrite app_nil_r. destruct acc. reflexivity.
  - rewrite IH.
    assert (Hkeep : answersToPersist (rescanField acc f) = answersToPersist acc).
    { unfold rescanField.
      destruct (find (persistedFor (Field.id f)) (answersToPersist acc));
        reflexivity. }
    assert (Hsame : filter (notPersisted (rescanField acc f)) fields
                    = filter (notPersisted acc) fields).
    { apply filter_ext. intros g. unfold notPersisted. rewrite Hkeep.
      reflexivity. }
    rewrite Hsame, Hkeep. cbn [filter].
    unfold rescanField, notPersisted at 2.
    destruct (find (persistedFor (Field.id f)) (answersToPersist acc)).
    + reflexivity.
    + cbn [pushIssue issues answersToPersist map].
      rewrite <- app_assoc. reflexivity.
Qed.

(** Where no answer addresses a field of the list, every required field is
    reported by the second loop and nothing is kept. *)
Lemma processField_fold_unanswered fields answers acc :
  forallb Field.required fields = true ->
  (forall f, In f fields -> find (answerFor (Field.id f)) answers = None) ->
  fold_left (processField Date_parse answers) fields acc
  = {| issues := issues acc ++ map missingIssue fields;
       answersToPersist := answersToPersist acc |}.
Proof.
  revert acc. induction fields as [|f fields IH]; intros acc; cbn [fold_left forallb].
  - intros _ _. cbn. rewrite app_nil_r. destruct acc. reflexivity.
  - intros H Hnone. apply andb_true_iff in H. destruct H as [Hf Hrest].
    rewrite IH; [|exact Hrest|intros g Hg; apply Hnone; right; exact Hg].
    unfold processField. rewrite (Hnone f (or_introl eq_refl)), Hf.
    cbn [pushIssue issues answersToPersist map].
    rewrite <- app_assoc. reflexivity.
Qed.

(** An answer addressed to a field of the form is not a foreign one. *)
Lemma foreign_answers_address_no_field fields answers :
  (forall a, In a answers -> fieldMap_has fields (Answer.fieldId a) = false) ->
  forall f, In f fields -> find (answerFor (Field.id f)) answers = None.
Proof.
  intros Hforeign f Hf.
  destruct (find (answerFor (Field.id f)) answers) as [a|] eqn:E; [|reflexivity].
  apply find_some in E. destruct E as [Ha Hid].
  unfold answerFor in Hid. apply String.eqb_eq in Hid.
  pose proof (Hforeign a Ha) as Hno. unfold fieldMap_has in Hno.
  assert (Hyes : existsb (fun field => String.eqb (Field.id field) (Answer.fieldId a))
                   fields = true).
  { apply existsb_exists. exists f. split; [exact Hf|].
    rewrite Hid. apply String.eqb_refl. }
  congruence.
Qed.

Lemma filter_true {A} (p : A -> bool) (l : list A) :
  forallb p l = true -> filter p l = l.
Proof.
  induction l as [|x l IH]; cbn; [reflexivity|].
  intros H. apply andb_true_iff in H. destruct H as [-> H].
  rewrite IH by exact H. reflexivity.
Qed.

(** C1, as the route has it.  The re-scan appends one issue
    [Required field is missing] for each required field that has no
    normalized answer, whether the per-field pass recorded an issue for the
    field or not: the issues of the first two loops stay and every such
    field is reported after them.  For a schema of required fields and
    answers that address none of them (the request schema lets no empty
    answer list through, so there is at least one), the issue list holds
    one issue per answer, [Field does not belong to this form], and then
    every field twice with [Required field is missing]: its length is the
    number of answers and twice the field count. *)
Theorem rescan_reports_every_required_field_without_answer
  (fields : list Field.t) (answers : list Answer.t) :
  let first := perField Date_parse fields answers in
  let result := validateAnswers Date_parse fields answers in
  issues result
  = issues first
    ++ map missingIssue
         (filter (notPersisted first) (filter Field.required fields))
  /\ answersToPersist result = answersToPersist first
  /\ (forall field,
        In field fields -> Field.required field = true ->
        notPersisted first field = true ->
        In (missingIssue field) (issues result)
        /\ forall issue, In issue (issues first) -> In issue (issues result))
  /\ (forallb Field.required fields = true ->
      (forall a, In a answers ->
                 fieldMap_has fields (Answer.fieldId a) = false) ->
      issues result
      = map foreignIssue answers
        ++ map missingIssue fields ++ map missingIssue fields
      /\ List.length (issues result)
         = (List.length answers + 2 * List.length fields)%nat).
Proof.
  cbv zeta. unfold validateAnswers. rewrite rescanField_fold.
  cbn [issues answersToPersist].
  split; [reflexivity|]. split; [reflexivity|]. split.
  - intros field Hin Hreq Hnot. split.
    + apply in_or_app. right. apply in_map. apply filter_In.
      split; [|exact Hnot]. apply filter_In. split; assumption.
    + intros issue Hissue. apply in_or_app. left. exact Hissue.
  - intros Hreq Hforeign. unfold perField.
    rewrite processField_fold_unanswered;
      [|exact Hreq|apply foreign_answers_address_no_field; exact Hforeign].
    rewrite flagForeign_fold.
    cbn [issues answersToPersist emptyAcc app].
    rewrite (filter_true _ answers).
    2:{ apply forallb_forall. intros a Ha. rewrite (Hforeign a Ha). reflexivity. }
    rewrite (filter_true _ _ Hreq).
    assert (Hall : filter (notPersisted
                             {| issues := map foreignIssue answers
                                          ++ map missingIssue fields;
                                answersToPersist := [] |}) fields
                   = fields).
    { apply filter_true. apply forallb_forall. intros f _. reflexivity. }
    rewrite Hall. rewrite <- app_assoc.
    split; [reflexivity|].
    rewrite !length_app, !length_map. lia.
Qed.

(** The route on a one-field form and one answer addressed to the field. *)
Lemma validate_single (field : Field.t) (value : Json) :
  let answer := {| Answer.fieldId := Field.id field; Answer.value := value |} in
  validateAnswers Date_parse [field] [answer]
  = fold_left rescanField (filter Field.required [field])
      (processField Date_parse [answer] emptyAcc field).
Proof.
  cbv zeta. unfold validateAnswers, perField. cbn [fold_left].
  unfold flagForeign, fieldMap_has. cbn [existsb Answer.fieldId].
  rewrite String.eqb_refl. reflexivity.
Qed.

Lemma find_single_answer (id : string) (value : Json) :
  find (answerFor id) [{| Answer.fieldId := id; Answer.value := value |}]
  = Some {| Answer.fieldId := id; Answer.value := value |}.
Proof. cbn. unfold answerFor. cbn. rewrite String.eqb_refl. reflexivity. Qed.

Lemma fieldTypeOf_number : fieldTypeOf "number" = Some Builder.number.
Proof. reflexivity. Qed.

Lemma fieldTypeOf_checkbox : fieldTypeOf "checkbox" = Some Builder.checkbox.
Proof. reflexivity. Qed.

(** C2. On a number field the answer [42], given as a string, is kept as
    the number 42; the answer [abc] is reported as [Number is required]
    when the field is required and as [Number could not be parsed] when it
    is not.  This holds for the step of the per-field loop, and for the
    whole validation of a one-field form: the persisted list holds the
    number 42; the issues of a required field hold [Number is required]
    and not [Number could not be parsed]; the issues of a non-required
    field are the one issue [Number could not be parsed]. *)
Theorem number_field_coercion (field : Field.t) :
  Field.type field = "number" ->
  let id := Field.id field in
  let answer value := {| Answer.fieldId := id; Answer.value := value |} in
  let issue message := {| Issue.fieldId := id; Issue.message := message |} in
  (forall answers acc a,
      find (answerFor id) answers = Some a ->
      (Answer.value a = JString "42" ->
       processField Date_parse answers acc field
       = pushAnswer id (JNumber (Js.Finite (42 # 1))) acc)
      /\ (Answer.value a = JString "abc" -> Field.required field = true ->
          processField Date_parse answers acc field
          = pushIssue id "Number is required" acc)
      /\ (Answer.value a = JString "abc" -> Field.required field = false ->
          processField Date_parse answers acc field
          = pushIssue id "Number could not be parsed" acc))
  /\ validateAnswers Date_parse [field] [answer (JString "42")]
     = {| issues := [];
          answersToPersist :=
            [{| Persist.fieldId := id;
                Persist.value := JNumber (Js.Finite (42 # 1)) |}] |}
  /\ (Field.required field = true ->
      let result := validateAnswers Date_parse [field] [answer (JString "abc")] in
      In (issue "Number is required") (issues result)
      /\ ~ In (issue "Number could not be parsed") (issues result)
      /\ answersToPersist result = [])
  /\ (Field.required field = false ->
      validateAnswers Date_parse [field] [answer (JString "abc")]
      = {| issues := [issue "Number could not be parsed"];
           answersToPersist := [] |}).
Proof.
  intros Htype. cbv zeta.
  assert (Hstep : forall answers acc a,
      find (answerFor (Field.id field)) answers = Some a ->
      (Answer.value a = JString "42" ->
       processField Date_parse answers acc field
       = pushAnswer (Field.id field) (JNumber (Js.Finite (42 # 1))) acc)
      /\ (Answer.value a = JString "abc" -> Field.required field = true ->
          processField Date_parse answers acc field
          = pushIssue (Field.id field) "Number is required" acc)
      /\ (Answer.value a = JString "abc" -> Field.required field = false ->
          processField Date_parse answers acc field
          = pushIssue (Field.id field) "Number could not be parsed" acc)).
  { intros answers acc a Hfind. unfold processField.
    rewrite Hfind, Htype, fieldTypeOf_number.
    split; [|split].
    - intros ->. reflexivity.
    - intros -> ->. reflexivity.
    - intros -> ->. reflexivity. }
  split; [exact Hstep|].
  split; [|split].
  - rewrite validate_single.
    destruct (Hstep [ {| Answer.fieldId := Field.id field;
                         Answer.value := JString "42" |} ] emptyAcc _
                (find_single_answer _ _)) as (H42 & _ & _).
    rewrite (H42 eq_refl).
    cbn [filter]. destruct (Field.required field); cbn [fold_left]; [|reflexivity].
    unfold rescanField. cbn [pushAnswer answersToPersist emptyAcc app find].
    unfold persistedFor. cbn [Persist.fieldId]. rewrite String.eqb_refl.
    reflexivity.
  - intros Hreq. rewrite validate_single.
    destruct (Hstep [ {| Answer.fieldId := Field.id field;
                         Answer.value := JString "abc" |} ] emptyAcc _
                (find_single_answer _ _)) as (_ & Habc & _).
    rewrite (Habc eq_refl Hreq).
    cbn [filter]. rewrite Hreq. cbn.
    split; [left; reflexivity|]. split; [|reflexivity].
    intros [H|[H|[]]]; discriminate H.
  - intros Hreq. rewrite validate_single.
    destruct (Hstep [ {| Answer.fieldId := Field.id field;
                         Answer.value := JString "abc" |} ] emptyAcc _
                (find_single_answer _ _)) as (_ & _ & Habc).
    rewrite (Habc eq_refl Hreq).
    cbn [filter]. rewrite Hreq. reflexivity.
Qed.

Lemma ensureStringArray_strings (values : list string) :
  ensureStringArray (JArray (map JString values)) = Some values.
Proof.
  unfold ensureStringArray. f_equal.
  induction values as [|v values IH]; cbn; [reflexivity|]. rewrite IH. reflexivity.
Qed.

Lemma no_invalid_entry (options values : list string) :
  Js.isNil (filter (fun entry => negb (includes options entry)) values)
  = forallb (includes options) values.
Proof.
  induction values as [|v values IH]; cbn; [reflexivity|].
  destruct (includes options v); cbn; [exact IH|reflexivity].
Qed.

(** The step of the per-field loop on a checkbox field with the options [a]
    and [b] and a non-empty selection of strings. *)
Lemma checkbox_step (field : Field.t) answers acc a (values : list string) :
  Field.type field = "checkbox" ->
  parseOptions (Field.options field) = ["a"; "b"] ->
  find (answerFor (Field.id field)) answers = Some a ->
  Answer.value a = JArray (map JString values) ->
  values <> [] ->
  processField Date_parse answers acc field
  = if forallb (includes ["a"; "b"]) values
    then pushAnswer (Field.id field) (JArray (map JString values)) acc
    else pushIssue (Field.id field) "One or more options are invalid" acc.
Proof.
  intros Htype Hoptions Hfind Hvalue Hne. unfold processField.
  rewrite Hfind, Htype, fieldTypeOf_checkbox, Hoptions, Hvalue,
    ensureStringArray_strings.
  destruct values as [|v values]; [contradiction Hne; reflexivity|].
  rewrite no_invalid_entry.
  destruct (forallb (includes ["a"; "b"]) (v :: values)); reflexivity.
Qed.

(** C3, as the route has it.  For a checkbox field whose options are [a]
    and [b], the answer [a, b] gives no issue and the normalized answer
    [a, b]; a selection of strings with at least one that is not declared,
    [a, z] among them, makes the per-field pass record the one aggregate
    issue [One or more options are invalid], however many of its values
    are undeclared.  That is the only issue when the field is not
    required; when the field is required the re-scan adds
    [Required field is missing] for the same field. *)
Theorem checkbox_options_round_trip (field : Field.t) :
  Field.type field = "checkbox" ->
  parseOptions (Field.options field) = ["a"; "b"] ->
  let id := Field.id field in
  let answer values :=
    {| Answer.fieldId := id; Answer.value := JArray (map JString values) |} in
  let issue message := {| Issue.fieldId := id; Issue.message := message |} in
  (forall answers acc a values,
      find (answerFor id) answers = Some a ->
      Answer.value a = JArray (map JString values) ->
      values <> [] ->
      (forallb (includes ["a"; "b"]) values = true ->
       processField Date_parse answers acc field
       = pushAnswer id (JArray (map JString values)) acc)
      /\ (forallb (includes ["a"; "b"]) values = false ->
          processField Date_parse answers acc field
          = pushIssue id "One or more options are invalid" acc))
  /\ validateAnswers Date_parse [field] [answer ["a"; "b"]]
     = {| issues := [];
          answersToPersist :=
            [{| Persist.fieldId := id;
                Persist.value := JArray [JString "a"; JString "b"] |}] |}
  /\ (forall values,
        forallb (includes ["a"; "b"]) values = false ->
        (Field.required field = false ->
         validateAnswers Date_parse [field] [answer values]
         = {| issues := [issue "One or more options are invalid"];
              answersToPersist := [] |})
        /\ (Field.required field = true ->
            validateAnswers Date_parse [field] [answer values]
            = {| issues := [issue "One or more options are invalid";
                            issue "Required field is missing"];
                 answersToPersist := [] |}))
  /\ forallb (includes ["a"; "b"]) ["a"; "z"] = false.
Proof.
  intros Htype Hoptions. cbv zeta.
  split; [|split; [|split; [|reflexivity]]].
  - intros answers acc a values Hfind Hvalue Hne.
    rewrite (checkbox_step field answers acc a values Htype Hoptions Hfind
               Hvalue Hne).
    split; intros ->; reflexivity.
  - rewrite validate_single.
    rewrite (checkbox_step field _ emptyAcc _ ["a"; "b"] Htype Hoptions
               (find_single_answer _ _) eq_refl) by discriminate.
    cbn [forallb includes existsb String.eqb Ascii.eqb Bool.eqb orb andb map].
    cbn [filter]. destruct (Field.required field); cbn [fold_left]; [|reflexivity].
    unfold rescanField. cbn [pushAnswer answersToPersist emptyAcc app find].
    unfold persistedFor. cbn [Persist.fieldId]. rewrite String.eqb_refl.
    reflexivity.
  - intros values Hinvalid.
    assert (Hne : values <> []) by (intros ->; discriminate Hinvalid).
    assert (Hstep : processField Date_parse
                      [{| Answer.fieldId := Field.id field;
                          Answer.value := JArray (map JString values) |}]
                      emptyAcc field
                    = pushIssue (Field.id field)
                        "One or more options are invalid" emptyAcc).
    { rewrite (checkbox_step field _ emptyAcc _ values Htype Hoptions
                 (find_single_answer _ _) eq_refl Hne).
      rewrite Hinvalid. reflexivity. }
    split; intros Hreq; rewrite validate_single, Hstep; cbn [filter];
      rewrite Hreq; reflexivity.
Qed.

(** C5. An answer whose field id is not one of the form's fields is
    reported as [Field does not belong to this form], whatever the other
    answers are, and nothing is persisted under its field id.  The issue
    list starts with these issues, one per such answer, in the order of the
    answers. *)
Theorem foreign_answer_reported_never_persisted
  (fields : list Field.t) (answers : list Answer.t) :
  let result := validateAnswers Date_parse fields answers in
  (exists rest,
      issues result
      = map foreignIssue
          (filter (fun a => negb (fieldMap_has fields (Answer.fieldId a)))
                  answers)
        ++ rest)
  /\ (forall a,
         In a answers -> fieldMap_has fields (Answer.fieldId a) = false ->
         In {| Issue.fieldId := Answer.fieldId a;
               Issue.message := "Field does not belong to this form" |}
            (issues result)
         /\ forall p, In p (answersToPersist result) ->
                      Persist.fieldId p <> Answer.fieldId a).
Proof.
  cbv zeta.
  assert (Hissues : exists rest,
      issues (validateAnswers Date_parse fields answers)
      = map foreignIssue
          (filter (fun a => negb (fieldMap_has fields (Answer.fieldId a)))
                  answers)
        ++ rest).
  { unfold validateAnswers. rewrite rescanField_fold. cbn [issues].
    unfold perField.
    destruct (processField_fold_issues answers fields
                (fold_left (flagForeign fields) answers emptyAcc))
      as [added ->].
    rewrite flagForeign_fold. cbn [issues emptyAcc app].
    eexists. rewrite <- app_assoc. reflexivity. }
  split; [exact Hissues|].
  intros a Hin Hforeign. split.
  - destruct Hissues as [rest ->]. apply in_or_app. left.
    change {| Issue.fieldId := Answer.fieldId a;
              Issue.message := "Field does not belong to this form" |}
      with (foreignIssue a).
    apply in_map. apply filter_In. split; [exact Hin|].
    rewrite Hforeign. reflexivity.
  - intros p Hp Heq.
    unfold validateAnswers in Hp. rewrite rescanField_fold in Hp.
    cbn [answersToPersist] in Hp. unfold perField in Hp.
    apply processField_fold_persisted in Hp.
    rewrite flagForeign_fold in Hp. cbn [answersToPersist emptyAcc] in Hp.
    destruct Hp as [[]|(f & Hf & E)].
    assert (Hhas : fieldMap_has fields (Answer.fieldId a) = true).
    { unfold fieldMap_has. apply existsb_exists. exists f.
      split; [exact Hf|]. apply String.eqb_eq. congruence. }
    congruence.
Qed.

End EngineFacts.

(** ** The request schema and the handler *)

Section HandlerFacts.

Import Submission.

Variable defaultMessage : ZodCode -> option Json -> string.
Variable Date_parse : string -> Js.number.
Variable findFirst : string -> string -> option Form.t.




Lemma submit_outcome form payload :
  let acc :=
    validateAnswers Date_parse (Form.fields form) (Payload.answers payload) in
  (issues acc <> [] ->
   submit Date_parse form payload
   = ValidationFailed (map toResponseIssue (issues acc)))
  /\ (issues acc = [] ->
      submit Date_parse form payload
      = Created
          {| CreateData.formId := Form.id form;
             CreateData.completionMs := Payload.completionMs payload;
             CreateData.answers_create :=
               map toCreateAnswer (answersToPersist acc) |}).
Proof.
  cbv zeta. unfold submit.
  destruct (issues (validateAnswers Date_parse (Form.fields form)
                      (Payload.answers payload))) as [|i is'].
  - split; [intros H; contradiction H; reflexivity|reflexivity].
  - split; [reflexivity|discriminate].
Qed.

(** A request that gets as far as the validation of its answers. *)
Lemma POST_reaches_submit session formId body outcome :
  POST defaultMessage Date_parse findFirst session formId body = outcome ->
  (exists issues, outcome = ValidationFailed issues)
  \/ (exists data, outcome = Created data) ->
  exists userId payload form,
    session = Some userId
    /\ safeParse defaultMessage (bodyJson body) = ParseSuccess payload
    /\ findFirst formId userId = Some form
    /\ outcome = submit Date_parse form payload.
Proof.
  unfold POST. intros HP Hout.
  destruct session as [userId|].
  2:{ subst outcome. destruct Hout as [[? H]|[? H]]; discriminate H. }
  destruct (safeParse defaultMessage (bodyJson body)) as [payload|zis] eqn:Hparse.
  2:{ subst outcome. destruct Hout as [[? H]|[? H]]; discriminate H. }
  destruct (match Payload.honey payload with
            | Some honey =>
                negb (isEmpty honey) && (0 <? String.length (Js.trim honey))%nat
            | None => false
            end).
  { subst outcome. destruct Hout as [[? H]|[? H]]; discriminate H. }
  destruct (findFirst formId userId) as [form|] eqn:Hform.
  2:{ subst outcome. destruct Hout as [[? H]|[? H]]; discriminate H. }
  exists userId, payload, form. subst outcome.
  split; [reflexivity|]. split; [reflexivity|]. split; [exact Hform|].
  reflexivity.
Qed.

(** C4. The submission is all or nothing.  When the validation leaves an
    issue, the handler answers with the rejection that lists the issues and
    hands nothing to the database; when it leaves none, the handler hands
    the whole normalized answer list to the database in one create.  A
    request that ends in the create is one whose validation left no issue,
    and the create carries the whole list. *)
Theorem submission_all_or_nothing :
  (forall form payload,
      let acc :=
        validateAnswers Date_parse (Form.fields form) (Payload.answers payload) in
      (issues acc <> [] ->
       submit Date_parse form payload
       = ValidationFailed (map toResponseIssue (issues acc)))
      /\ (issues acc = [] ->
          submit Date_parse form payload
          = Created
              {| CreateData.formId := Form.id form;
                 CreateData.completionMs := Payload.completionMs payload;
                 CreateData.answers_create :=
                   map toCreateAnswer (answersToPersist acc) |}))
  /\ (forall session formId body data,
         POST defaultMessage Date_parse findFirst session formId body
         = Created data ->
         exists userId payload form,
           session = Some userId
           /\ safeParse defaultMessage (bodyJson body) = ParseSuccess payload
           /\ findFirst formId userId = Some form
           /\ issues (validateAnswers Date_parse (Form.fields form)
                        (Payload.answers payload)) = []
           /\ CreateData.answers_create data
              = map toCreateAnswer
                  (answersToPersist
                     (validateAnswers Date_parse (Form.fields form)
                        (Payload.answers payload)))).
Proof.
  split; [exact submit_outcome|].
  intros session formId body data HP.
  destruct (POST_reaches_submit session formId body (Created data) HP)
    as (userId & payload & form & Hs & Hparse & Hform & Hsubmit).
  { right. exists data. reflexivity. }
  exists userId, payload, form.
  split; [exact Hs|]. split; [exact Hparse|]. split; [exact Hform|].
  destruct (submit_outcome form payload) as [Hbad Hgood]. cbv zeta in *.
  destruct (issues (validateAnswers Date_parse (Form.fields form)
                      (Payload.answers payload))) as [|i is'] eqn:E.
  - split; [reflexivity|]. rewrite Hgood in Hsubmit by reflexivity.
    inversion Hsubmit. reflexivity.
  - rewrite Hbad in Hsubmit by discriminate. discriminate Hsubmit.
Qed.


End HandlerFacts.

(** ** Sample runs *)

Section Samples.

Import Submission.

(** C1 as stated fails at a request the route validates: for the blank
    answer to the one required field of the form the per-field pass records
    [Response is required], and the re-scan reports the field again, so the
    rejection lists the field twice.  (The empty answer list of the claim
    does not get that far: the request schema refuses it.) *)
Lemma required_field_with_issue_reported_again :
  POST plainMessages noDates (oneForm contactForm "owner") (Some "owner")
    "form-1"
    (Some (JObject [("answers",
                     JArray [JObject [("fieldId", JString "name");
                                      ("value", JString "  ")]])]))
  = ValidationFailed
      [{| ResponseIssue.path := "name";
          ResponseIssue.message := "Response is required" |};
       {| ResponseIssue.path := "name";
          ResponseIssue.message := "Required field is missing" |}]
  /\ forallb Field.required (Form.fields contactForm) = true
  /\ POST plainMessages noDates (oneForm contactForm "owner") (Some "owner")
       "form-1" (Some (JObject [("answers", JArray [])]))
     = SchemaFailed
         [{| ResponseIssue.path := "answers";
             ResponseIssue.message := "At least one answer is required" |}].
Proof. repeat split; vm_compute; reflexivity. Qed.

Lemma rescan_reports_every_required_field_without_answer_witness :
  let fields := [fieldRow "name" "short_text" true JNull;
                 fieldRow "age" "number" true JNull] in
  let issue fieldId message :=
    {| Issue.fieldId := fieldId; Issue.message := message |} in
  issues (validateAnswers noDates fields [answerOf "other" (JString "x")])
  = [issue "other" "Field does not belong to this form";
     issue "name" "Required field is missing";
     issue "age" "Required field is missing";
     issue "name" "Required field is missing";
     issue "age" "Required field is missing"]
  /\ List.length
       (issues (validateAnswers noDates fields [answerOf "other" (JString "x")]))
     = 5%nat.
Proof.
  cbv zeta.
  destruct (rescan_reports_every_required_field_without_answer noDates
              [fieldRow "name" "short_text" true JNull;
               fieldRow "age" "number" true JNull]
              [answerOf "other" (JString "x")])
    as (_ & _ & _ & H).
  apply H; [reflexivity|].
  intros a [<-|[]]. reflexivity.
Defined.

Lemma number_field_coercion_witness :
  validateAnswers noDates [fieldRow "age" "number" true JNull]
    [answerOf "age" (JString "42")]
  = {| issues := [];
       answersToPersist :=
         [{| Persist.fieldId := "age";
             Persist.value := JNumber (Js.Finite (42 # 1)) |}] |}
  /\ In {| Issue.fieldId := "age"; Issue.message := "Number is required" |}
        (issues (validateAnswers noDates [fieldRow "age" "number" true JNull]
                   [answerOf "age" (JString "abc")]))
  /\ validateAnswers noDates [fieldRow "age" "number" false JNull]
       [answerOf "age" (JString "abc")]
     = {| issues := [{| Issue.fieldId := "age";
                        Issue.message := "Number could not be parsed" |}];
          answersToPersist := [] |}.
Proof.
  destruct (number_field_coercion noDates (fieldRow "age" "number" true JNull)
              eq_refl) as (_ & H42 & Hreq & _).
  destruct (number_field_coercion noDates (fieldRow "age" "number" false JNull)
              eq_refl) as (_ & _ & _ & Hopt).
  split; [exact H42|]. split.
  - exact (proj1 (Hreq eq_refl)).
  - exact (Hopt eq_refl).
Defined.

(** C3 as stated fails for a required checkbox field: the answer [a, z]
    leaves two issues for the field, the aggregate one and the one of the
    re-scan. *)
Lemma required_checkbox_invalid_option_two_issues :
  let result :=
    validateAnswers noDates [requiredCheckbox]
      [answerOf "c" (JArray [JString "a"; JString "z"])] in
  let forField :=
    filter (fun issue => String.eqb (Issue.fieldId issue) "c") (issues result) in
  parseOptions (Field.options requiredCheckbox) = ["a"; "b"]
  /\ forField
     = [{| Issue.fieldId := "c"; Issue.message := "One or more options are invalid" |};
        {| Issue.fieldId := "c"; Issue.message := "Required field is missing" |}]
  /\ List.length forField <> 1%nat.
Proof.
  cbv zeta. split; [reflexivity|]. split; [reflexivity|].
  vm_compute. discriminate.
Qed.

Lemma checkbox_options_round_trip_witness :
  validateAnswers noDates [fieldRow "c" "checkbox" false abOptions]
    [answerOf "c" (JArray [JString "a"; JString "b"])]
  = {| issues := [];
       answersToPersist :=
         [{| Persist.fieldId := "c";
             Persist.value := JArray [JString "a"; JString "b"] |}] |}
  /\ validateAnswers noDates [fieldRow "c" "checkbox" false abOptions]
       [answerOf "c" (JArray [JString "a"; JString "z"])]
     = {| issues := [{| Issue.fieldId := "c";
                        Issue.message := "One or more options are invalid" |}];
          answersToPersist := [] |}
  /\ validateAnswers noDates [fieldRow "c" "checkbox" false abOptions]
       [answerOf "c" (JArray [JString "y"; JString "a"; JString "z"])]
     = {| issues := [{| Issue.fieldId := "c";
                        Issue.message := "One or more options are invalid" |}];
          answersToPersist := [] |}
  /\ validateAnswers noDates [requiredCheckbox]
       [answerOf "c" (JArray [JString "a"; JString "z"])]
     = {| issues := [{| Issue.fieldId := "c";
                        Issue.message := "One or more options are invalid" |};
                     {| Issue.fieldId := "c";
                        Issue.message := "Required field is missing" |}];
          answersToPersist := [] |}.
Proof.
  destruct (checkbox_options_round_trip noDates
              (fieldRow "c" "checkbox" false abOptions) eq_refl eq_refl)
    as (_ & Hab & Hopt & _).
  destruct (checkbox_options_round_trip noDates requiredCheckbox
              eq_refl eq_refl) as (_ & _ & Hreq & _).
  split; [exact Hab|].
  split; [exact (proj1 (Hopt ["a"; "z"] eq_refl) eq_refl)|].
  split; [exact (proj1 (Hopt ["y"; "a"; "z"] eq_refl) eq_refl)|].
  exact (proj2 (Hreq ["a"; "z"] eq_refl) eq_refl).
Defined.

Lemma foreign_answer_reported_never_persisted_witness :
  let result :=
    validateAnswers noDates (Form.fields contactForm)
      [answerOf "name" (JString "Ada"); answerOf "other" (JString "x")] in
  In {| Issue.fieldId := "other";
        Issue.message := "Field does not belong to this form" |}
     (issues result)
  /\ forall p, In p (answersToPersist result) -> Persist.fieldId p <> "other".
Proof.
  cbv zeta.
  apply (proj2 (foreign_answer_reported_never_persisted noDates
                  (Form.fields contactForm)
                  [answerOf "name" (JString "Ada"); answerOf "other" (JString "x")])
               (answerOf "other" (JString "x"))).
  - right. left. reflexivity.
  - reflexivity.
Defined.

Lemma submission_all_or_nothing_witness :
  submit noDates contactForm (payloadOf [answerOf "name" (JString " Ada ")])
  = Created
      {| CreateData.formId := "form-1";
         CreateData.completionMs := None;
         CreateData.answers_create :=
           [{| CreateAnswer.value := JString "Ada";
               CreateAnswer.field_connect_id := "name" |}] |}
  /\ submit noDates contactForm
       (payloadOf [answerOf "name" (JString "Ada"); answerOf "other" (JString "x")])
     = ValidationFailed
         [{| ResponseIssue.path := "other";
             ResponseIssue.message := "Field does not belong to this form" |}].
Proof.
  pose proof (submission_all_or_nothing plainMessages noDates
                (oneForm contactForm "owner")) as [H _].
  split.
  - exact (proj2 (H contactForm (payloadOf [answerOf "name" (JString " Ada ")]))
             eq_refl).
  - refine (proj1 (H contactForm
                     (payloadOf [answerOf "name" (JString "Ada");
                                 answerOf "other" (JString "x")])) _).
    vm_compute. discriminate.
Defined.


Example POST_accepts_one_answer :
  POST plainMessages noDates (oneForm contactForm "owner") (Some "owner")
    "form-1"
    (Some (JObject [("answers",
                     JArray [JObject [("fieldId", JString "name");
                                      ("value", JString "Ada")]])]))
  = Created
      {| CreateData.formId := "form-1";
         CreateData.completionMs := None;
         CreateData.answers_create :=
           [{| CreateAnswer.value := JString "Ada";
               CreateAnswer.field_connect_id := "name" |}] |}.
Proof. vm_compute. reflexivity. Qed.

Example POST_refuses_empty_answers :
  POST plainMessages noDates (oneForm contactForm "owner") (Some "owner")
    "form-1" (Some (JObject [("answers", JArray [])]))
  = SchemaFailed
      [{| ResponseIssue.path := "answers";
          ResponseIssue.message := "At least one answer is required" |}].
Proof. vm_compute. reflexivity. Qed.

Example POST_refuses_bad_element :
  POST plainMessages noDates (oneForm contactForm "owner") (Some "owner")
    "form-1"
    (Some (JObject [("answers", JArray [JObject [("fieldId", JString "")]])]))
  = SchemaFailed
      [{| ResponseIssue.path := "answers.0.fieldId";
          ResponseIssue.message := "Field ID is required" |};
       {| ResponseIssue.path := "answers.0.value";
          ResponseIssue.message := "Invalid input" |}].
Proof. vm_compute. reflexivity. Qed.

End Samples.

(** ** The reducer beyond single actions *)

Section ReducerFacts.

Import Builder.
Import Editor.

Variable createId : nat -> string.

Lemma hasId_false_absent id (l : list FormField.t) :
  (forall f, In f l -> hasId id f = false) -> absent id l.
Proof. intros H f Hf. apply String.eqb_neq. apply H. exact Hf. Qed.

Lemma reorder_first_up (s : BuilderState.t) id first rest :
  BuilderState.fields s = first :: rest -> FormField.id first = id ->
  builderReducer createId s (REORDER_FIELD id up) = s.
Proof.
  intros Hf Hid. unfold builderReducer. rewrite Hf.
  change (first :: rest) with ([] ++ first :: rest).
  rewrite (findIndex_first (hasId id) [] first rest).
  - reflexivity.
  - intros y [].
  - apply String.eqb_eq. exact Hid.
Qed.

Lemma reorder_last_down (s : BuilderState.t) id front last :
  BuilderState.fields s = front ++ [last] ->
  absent id front -> FormField.id last = id ->
  builderReducer createId s (REORDER_FIELD id down) = s.
Proof.
  intros Hf Hfront Hid. unfold builderReducer. rewrite Hf.
  rewrite (findIndex_first (hasId id) front last []).
  - rewrite if_false; [|apply Z.eqb_neq; lia].
    replace (Z.of_nat (List.length (front ++ [last]))
             <=? Z.of_nat (List.length front) + 1)%Z with true
      by (symmetry; apply Z.leb_le; rewrite length_app; simpl; lia).
    rewrite orb_true_r. reflexivity.
  - apply absent_hasId. exact Hfront.
  - apply String.eqb_eq. exact Hid.
Qed.

(** REORDER_FIELD either gives the state back or exchanges two neighbours. *)
Lemma reorder_cases (s : BuilderState.t) id direction :
  builderReducer createId s (REORDER_FIELD id direction) = s
  \/ exists pre a b post,
       BuilderState.fields s = pre ++ a :: b :: post
       /\ builderReducer createId s (REORDER_FIELD id direction)
          = withFields (pre ++ b :: a :: post) s.
Proof.
  destruct (Z_lt_le_dec (Js.findIndex (hasId id) (BuilderState.fields s)) 0)
    as [Hneg|Hpos].
  - left. unfold builderReducer.
    pose proof (findIndex_lower (hasId id) (BuilderState.fields s)) as Hlow.
    replace (Js.findIndex (hasId id) (BuilderState.fields s)) with (-1)%Z by lia.
    reflexivity.
  - destruct (findIndex_split (hasId id) _ Hpos)
      as (pre & x & post & Hf & Hpre & Hx & _).
    apply hasId_false_absent in Hpre.
    apply String.eqb_eq in Hx.
    destruct direction.
    + destruct pre as [|p0 pre0].
      * left. eapply reorder_first_up; eassumption.
      * destruct (@exists_last _ (p0 :: pre0)) as (pre' & a & Heq);
          [discriminate|].
        rewrite Heq in Hf, Hpre.
        right. exists pre', a, x, post.
        assert (Hf' : BuilderState.fields s = pre' ++ a :: x :: post).
        { rewrite Hf, <- app_assoc. reflexivity. }
        split; [exact Hf'|].
        apply reorder_up_fields; try assumption.
        -- intros f Hin. apply Hpre. apply in_or_app. left. exact Hin.
        -- apply Hpre. apply in_or_app. right. left. reflexivity.
    + destruct post as [|b post'].
      * left. eapply reorder_last_down; eassumption.
      * right. exists pre, x, b, post'. split; [exact Hf|].
        apply reorder_down_fields; assumption.
Qed.

Lemma reorder_rearranges (s : BuilderState.t) id direction :
  let s' := builderReducer createId s (REORDER_FIELD id direction) in
  Permutation (BuilderState.fields s) (BuilderState.fields s')
  /\ s' = withFields (BuilderState.fields s') s.
Proof.
  cbv zeta.
  destruct (reorder_cases s id direction) as [->|(pre & a & b & post & Hf & ->)].
  - split; [apply Permutation_refl|]. symmetry. apply withFields_same.
  - cbn [withFields BuilderState.fields]. rewrite Hf. split.
    + apply Permutation_app_head. apply perm_swap.
    + destruct s. reflexivity.
Qed.

(** X1. REORDER_FIELD only rearranges: whatever the id and the direction,
    the new field list is a permutation of the old one (no field is lost,
    added or changed), it has the same length, and every other component
    of the state is kept. *)
Theorem reorder_field_is_permutation
  (s : BuilderState.t) (id : string) (direction : Direction) :
  let s' := builderReducer createId s (REORDER_FIELD id direction) in
  Permutation (BuilderState.fields s) (BuilderState.fields s')
  /\ List.length (BuilderState.fields s') = List.length (BuilderState.fields s)
  /\ s' = withFields (BuilderState.fields s') s.
Proof.
  cbv zeta. destruct (reorder_rearranges s id direction) as [Hperm Hrest].
  split; [exact Hperm|]. split; [|exact Hrest].
  symmetry. apply Permutation_length. exact Hperm.
Qed.

(** X2. Moving a field up and then down again, or down and then up again,
    gives the state back, when the first move is possible and the field's
    id is not carried by the fields before it nor by the neighbour it
    passes. *)
Theorem reorder_field_up_down_round_trip
  (s : BuilderState.t) (id : string) (pre post : list FormField.t)
  (a b : FormField.t) :
  BuilderState.fields s = pre ++ a :: b :: post ->
  absent id pre ->
  (FormField.id a <> id -> FormField.id b = id ->
   builderReducer createId
     (builderReducer createId s (REORDER_FIELD id up)) (REORDER_FIELD id down)
   = s)
  /\ (FormField.id a = id -> FormField.id b <> id ->
      builderReducer createId
        (builderReducer createId s (REORDER_FIELD id down)) (REORDER_FIELD id up)
      = s).
Proof.
  intros Hf Hpre. split.
  - intros Ha Hb.
    rewrite (reorder_up_fields createId s id pre a b post Hf Hpre Ha Hb).
    rewrite (reorder_down_fields createId _ id pre b a post); try assumption.
    + destruct s. cbn in *. rewrite Hf. reflexivity.
    + reflexivity.
  - intros Ha Hb.
    rewrite (reorder_down_fields createId s id pre a b post Hf Hpre Ha).
    rewrite (reorder_up_fields createId _ id pre b a post); try assumption.
    + destruct s. cbn in *. rewrite Hf. reflexivity.
    + reflexivity.
Qed.

(** DUPLICATE_FIELD either gives the state back or puts the clone right
    after the first field that carries the id. *)
Lemma duplicate_cases (s : BuilderState.t) id :
  (absent id (BuilderState.fields s)
   /\ builderReducer createId s (DUPLICATE_FIELD id) = s)
  \/ exists pre field post,
       BuilderState.fields s = pre ++ field :: post
       /\ absent id pre /\ FormField.id field = id
       /\ builderReducer createId s (DUPLICATE_FIELD id)
          = withSelected (Some (createId 0%nat))
              (withFields (pre ++ field :: cloneField createId field :: post) s).
Proof.
  destruct (find (hasId id) (BuilderState.fields s)) as [field|] eqn:Hfind.
  - right. destruct (find_split _ _ _ Hfind) as (pre & post & Hf & Hpre & Hx).
    apply hasId_false_absent in Hpre. apply String.eqb_eq in Hx.
    exists pre, field, post. repeat split; try assumption.
    apply duplicate_at; assumption.
  - left. assert (Habs : absent id (BuilderState.fields s)).
    { intros f Hin. apply String.eqb_neq.
      exact (find_none _ _ Hfind f Hin). }
    split; [exact Habs|]. apply duplicate_absent. exact Habs.
Qed.

Lemma absent_not_in id (l : list FormField.t) :
  absent id l <-> ~ In id (map FormField.id l).
Proof.
  split.
  - intros H Hin. apply in_map_iff in Hin. destruct Hin as (f & Hid & Hf).
    exact (H f Hf Hid).
  - intros H f Hf Hid. apply H. rewrite <- Hid. apply in_map. exact Hf.
Qed.

Lemma filter_keeps_unique_ids (keep : FormField.t -> bool)
  (fields : list FormField.t) (Hnd : NoDup (map FormField.id fields)) :
  NoDup (map FormField.id (filter keep fields)).
Proof.
  induction fields as [|x l IH]; cbn; [exact Hnd|].
  inversion Hnd as [|? ? Hx Hl]; subst.
  destruct (keep x); [|auto]. cbn. constructor; [|auto].
  intros Hin. apply Hx. apply in_map_iff in Hin.
  destruct Hin as (y & Hy & Hy'). apply filter_In in Hy'.
  rewrite <- Hy. apply in_map. tauto.
Qed.

Lemma map_id_update id changes (l : list FormField.t) :
  FieldChanges.id changes = None ->
  map FormField.id
    (map (fun field => if hasId id field then mergeField field changes else field) l)
  = map FormField.id l.
Proof.
  intros H. rewrite map_map. apply map_ext. intros f.
  destruct (hasId id f); [|reflexivity].
  unfold mergeField. cbn [FormField.id]. rewrite H. reflexivity.
Qed.

(** X3. Unique field ids are an invariant of the reducer: from a state
    whose fields carry pairwise different ids, every action leads to such a
    state again, provided an added field and a clone get an id that is not
    in use and an update does not rename a field. *)
Theorem unique_ids_preserved (s : BuilderState.t) (action : BuilderAction) :
  uniqueIds s -> idsKept createId s action ->
  uniqueIds (builderReducer createId s action).
Proof.
  unfold uniqueIds, fieldIds. intros Hnd Hkept.
  destruct action as [f|id|id|sel|id changes|id direction|meta|m|m|tag key value|key value];
    try exact Hnd.
  - cbn in Hkept |- *. rewrite map_app. cbn [map].
    apply (Permutation_NoDup (l := FormField.id f :: map FormField.id (BuilderState.fields s))).
    + apply Permutation_cons_append.
    + constructor; [|exact Hnd]. apply absent_not_in. exact Hkept.
  - cbn. apply filter_keeps_unique_ids. exact Hnd.
  - cbn [idsKept] in Hkept.
    destruct (duplicate_cases s id) as [[_ ->]|(pre & f & post & Hf & _ & _ & ->)];
      [exact Hnd|].
    cbn [withSelected withFields BuilderState.fields].
    rewrite Hf in Hnd, Hkept.
    apply (Permutation_NoDup
             (l := map FormField.id (cloneField createId f :: pre ++ f :: post))).
    + apply Permutation_map.
      replace (pre ++ f :: cloneField createId f :: post)
        with ((pre ++ [f]) ++ cloneField createId f :: post)
        by (rewrite <- app_assoc; reflexivity).
      replace (pre ++ f :: post) with ((pre ++ [f]) ++ post)
        by (rewrite <- app_assoc; reflexivity).
      apply Permutation_middle.
    + cbn [map cloneField FormField.id]. constructor; [|exact Hnd].
      apply absent_not_in. exact Hkept.
  - cbn in Hkept |- *. rewrite map_id_update by exact Hkept. exact Hnd.
  - destruct (reorder_rearranges s id direction) as [Hperm _].
    eapply Permutation_NoDup; [|exact Hnd].
    apply Permutation_map. exact Hperm.
Qed.

Lemma selectionValid_step (s : BuilderState.t) (action : BuilderAction) :
  selectionValid s -> selectionKept s action ->
  selectionValid (builderReducer createId s action).
Proof.
  unfold selectionValid, fieldIds. intros Hsel Hkept.
  destruct action as [f|id|id|sel|id changes|id direction|meta|m|m|tag key value|key value];
    try exact Hsel.
  - cbn. rewrite map_app. apply in_or_app. right. left. reflexivity.
  - cbn. destruct (BuilderState.selectedFieldId s) as [j|]; cbn [optionStringEqb];
      [|exact I].
    destruct (String.eqb_spec j id) as [->|Hne]; [exact I|].
    apply in_map_iff in Hsel. destruct Hsel as (g & Hg & Hin).
    apply in_map_iff. exists g. split; [exact Hg|].
    apply filter_In. split; [exact Hin|].
    unfold hasId. rewrite Hg. apply negb_true_iff. apply String.eqb_neq. exact Hne.
  - destruct (duplicate_cases s id) as [[_ ->]|(pre & f & post & _ & _ & _ & ->)];
      [exact Hsel|].
    cbn [withSelected withFields BuilderState.fields BuilderState.selectedFieldId].
    rewrite map_app. apply in_or_app. right. right. left. reflexivity.
  - cbn. destruct sel as [j|]; [exact Hkept|exact I].
  - cbn in Hkept |- *. rewrite map_id_update by exact Hkept. exact Hsel.
  - destruct (reorder_rearranges s id direction) as [Hperm ->].
    cbn [withFields BuilderState.fields BuilderState.selectedFieldId].
    destruct (BuilderState.selectedFieldId s) as [j|]; [|exact I].
    eapply Permutation_in; [|exact Hsel]. apply Permutation_map. exact Hperm.
Qed.

Lemma selectionValid_selectedField (s : BuilderState.t) :
  selectionValid s ->
  (selectedField s = None <-> BuilderState.selectedFieldId s = None).
Proof.
  unfold selectionValid, selectedField, fieldIds.
  destruct (BuilderState.selectedFieldId s) as [id|]; [|tauto].
  intros Hin. split; [|discriminate]. intros Hfind. exfalso.
  apply in_map_iff in Hin. destruct Hin as (f & Hf & Hin).
  apply (find_none _ _ Hfind) in Hin. unfold hasId in Hin.
  rewrite Hf, String.eqb_refl in Hin. discriminate.
Qed.

(** X4. A valid selection is an invariant of the reducer: when the
    selection is empty or names a field of the form, it still is after any
    action that does not select an id outside the form and does not rename
    a field.  (Removing the selected field clears the selection,
    duplicating selects the clone, adding selects the new field.)  So the
    [selectedField] that [FormBuilder] looks up is null only when nothing
    is selected. *)
Theorem selection_valid_preserved (s : BuilderState.t) (action : BuilderAction) :
  selectionValid s -> selectionKept s action ->
  selectionValid (builderReducer createId s action)
  /\ (selectedField (builderReducer createId s action) = None
      <-> BuilderState.selectedFieldId (builderReducer createId s action) = None).
Proof.
  intros Hsel Hkept.
  pose proof (selectionValid_step s action Hsel Hkept) as Hstep.
  split; [exact Hstep|exact (selectionValid_selectedField _ Hstep)].
Qed.

Lemma filter_app_single_out {A} (p : A -> bool) (pre post : list A) (x : A) :
  (forall y, In y pre -> p y = true) -> (forall y, In y post -> p y = true) ->
  p x = false ->
  filter p (pre ++ x :: post) = pre ++ post.
Proof.
  intros Hpre Hpost Hx. rewrite filter_app. cbn [filter]. rewrite Hx.
  rewrite (filter_all p pre Hpre), (filter_all p post Hpost). reflexivity.
Qed.

(** X5. REMOVE_FIELD takes out every field that carries the id and nothing
    else: afterwards no field carries it, the other fields are there in
    their order, and the selection is cleared exactly when it was that id.
    When the id is carried by one field only, the list loses that one
    field. *)
Theorem remove_field_removes_exactly (s : BuilderState.t) (id : string) :
  let s' := builderReducer createId s (REMOVE_FIELD id) in
  absent id (BuilderState.fields s')
  /\ (forall f, In f (BuilderState.fields s') <->
                In f (BuilderState.fields s) /\ FormField.id f <> id)
  /\ (forall pre f post,
         BuilderState.fields s = pre ++ f :: post ->
         FormField.id f = id -> absent id pre -> absent id post ->
         BuilderState.fields s' = pre ++ post)
  /\ (BuilderState.selectedFieldId s = Some id ->
      BuilderState.selectedFieldId s' = None)
  /\ (BuilderState.selectedFieldId s <> Some id ->
      BuilderState.selectedFieldId s' = BuilderState.selectedFieldId s)
  /\ BuilderState.formMeta s' = BuilderState.formMeta s
  /\ BuilderState.mode s' = BuilderState.mode s
  /\ BuilderState.theme s' = BuilderState.theme s.
Proof.
  cbv zeta. cbn [builderReducer withSelected withFields BuilderState.fields
                 BuilderState.selectedFieldId BuilderState.formMeta
                 BuilderState.mode BuilderState.theme].
  assert (Hin : forall f,
             In f (filter (fun field => negb (hasId id field)) (BuilderState.fields s))
             <-> In f (BuilderState.fields s) /\ FormField.id f <> id).
  { intros f. rewrite filter_In. unfold hasId.
    rewrite negb_true_iff, String.eqb_neq. reflexivity. }
  split; [|split; [exact Hin|split; [|split; [|split]]]].
  - intros f Hf. apply Hin in Hf. tauto.
  - intros pre f post Hf Hid Hpre Hpost. rewrite Hf.
    apply filter_app_single_out.
    + intros y Hy. rewrite (absent_hasId id pre Hpre y Hy). reflexivity.
    + intros y Hy. rewrite (absent_hasId id post Hpost y Hy). reflexivity.
    + unfold hasId. rewrite Hid, String.eqb_refl. reflexivity.
  - intros ->. cbn. rewrite String.eqb_refl. reflexivity.
  - intros Hne. destruct (BuilderState.selectedFieldId s) as [j|]; cbn; [|reflexivity].
    destruct (String.eqb_spec j id) as [->|_]; [|reflexivity].
    exfalso. apply Hne. reflexivity.
  - repeat split.
Qed.

(** X6. Adding a field under an unused id and removing it again, or
    duplicating a field under an unused id and removing the clone again,
    gives the field list back; the selection is empty afterwards. *)
Theorem add_or_duplicate_then_remove_restores_fields (s : BuilderState.t) :
  (forall f,
      absent (FormField.id f) (BuilderState.fields s) ->
      builderReducer createId (builderReducer createId s (ADD_FIELD f))
        (REMOVE_FIELD (FormField.id f))
      = withSelected None s)
  /\ (forall id,
         absent (createId 0%nat) (BuilderState.fields s) ->
         ~ absent id (BuilderState.fields s) ->
         builderReducer createId (builderReducer createId s (DUPLICATE_FIELD id))
           (REMOVE_FIELD (createId 0%nat))
         = withSelected None s).
Proof.
  split.
  - intros f Hfresh.
    cbn [builderReducer withSelected withFields BuilderState.fields
         BuilderState.selectedFieldId BuilderState.formMeta BuilderState.mode
         BuilderState.theme optionStringEqb].
    rewrite String.eqb_refl.
    rewrite <- (app_nil_r (BuilderState.fields s ++ [f])), <- app_assoc.
    cbn [app]. rewrite filter_app_single_out.
    + rewrite app_nil_r. reflexivity.
    + intros y Hy. rewrite (absent_hasId _ _ Hfresh y Hy). reflexivity.
    + intros y [].
    + unfold hasId. rewrite String.eqb_refl. reflexivity.
  - intros id Hfresh Hpresent.
    destruct (duplicate_cases s id) as [[Habs _]|(pre & f & post & Hf & _ & _ & ->)];
      [contradiction|].
    cbn [builderReducer withSelected withFields BuilderState.fields
         BuilderState.selectedFieldId BuilderState.formMeta BuilderState.mode
         BuilderState.theme optionStringEqb].
    rewrite String.eqb_refl. rewrite Hf in Hfresh.
    replace (pre ++ f :: cloneField createId f :: post)
      with ((pre ++ [f]) ++ cloneField createId f :: post)
      by (rewrite <- app_assoc; reflexivity).
    rewrite filter_app_single_out.
    + rewrite <- app_assoc. cbn [app]. rewrite <- Hf. reflexivity.
    + intros y Hy. rewrite (absent_hasId _ _ Hfresh y); [reflexivity|].
      apply in_app_or in Hy. apply in_or_app.
      destruct Hy as [Hy|[<-|[]]]; [left; exact Hy|right; left; reflexivity].
    + intros y Hy. rewrite (absent_hasId _ _ Hfresh y); [reflexivity|].
      apply in_or_app. right. right. exact Hy.
    + unfold hasId. cbn [cloneField FormField.id]. rewrite String.eqb_refl.
      reflexivity.
Qed.

Lemma cloneOptions_ids (c : nat -> string) k opts :
  map FieldOption.id (cloneOptions c k opts) = map c (seq k (List.length opts)).
Proof.
  revert k. induction opts as [|o opts IH]; intros k; cbn; [reflexivity|].
  rewrite IH. reflexivity.
Qed.

Lemma cloneOptions_labels (c : nat -> string) k opts :
  map FieldOption.label (cloneOptions c k opts) = map FieldOption.label opts
  /\ map FieldOption.value (cloneOptions c k opts) = map FieldOption.value opts.
Proof.
  revert k. induction opts as [|o opts IH]; intros k; cbn; [auto|].
  destruct (IH (S k)) as [-> ->]. auto.
Qed.

(** X7. The clone of DUPLICATE_FIELD is the source field except for its
    id, its label and the ids of its options: type, description,
    placeholder, required flag and constraints are the same; it has options
    exactly when the source has, as many, with the same labels and values in
    the same order; the clone takes the first id drawn and its options the
    following ones, so with a source of ids that never repeats they are all
    different. *)
Theorem duplicate_field_clone_content (field : FormField.t) :
  let clone := cloneField createId field in
  FormField.id clone = createId 0%nat
  /\ FormField.type clone = FormField.type field
  /\ FormField.description clone = FormField.description field
  /\ FormField.placeholder clone = FormField.placeholder field
  /\ FormField.required clone = FormField.required field
  /\ FormField.minLength clone = FormField.minLength field
  /\ FormField.maxLength clone = FormField.maxLength field
  /\ FormField.min clone = FormField.min field
  /\ FormField.max clone = FormField.max field
  /\ FormField.step clone = FormField.step field
  /\ (FormField.options field = None -> FormField.options clone = None)
  /\ (forall opts,
         FormField.options field = Some opts ->
         exists opts',
           FormField.options clone = Some opts'
           /\ map FieldOption.label opts' = map FieldOption.label opts
           /\ map FieldOption.value opts' = map FieldOption.value opts
           /\ map FieldOption.id opts' = map createId (seq 1 (List.length opts))
           /\ ((forall i j, createId i = createId j -> i = j) ->
               NoDup (FormField.id clone :: map FieldOption.id opts'))).
Proof.
  cbv zeta. unfold cloneField. cbn [FormField.id FormField.type
    FormField.description FormField.placeholder FormField.required
    FormField.minLength FormField.maxLength FormField.min FormField.max
    FormField.step FormField.options].
  repeat (split; [reflexivity|]).
  split.
  - intros ->. reflexivity.
  - intros opts ->. cbn [option_map]. eexists. split; [reflexivity|].
    destruct (cloneOptions_labels createId 1 opts) as [Hl Hv].
    split; [exact Hl|]. split; [exact Hv|].
    split; [apply cloneOptions_ids|].
    intros Hinj. rewrite cloneOptions_ids.
    change (createId 0%nat :: map createId (seq 1 (List.length opts)))
      with (map createId (seq 0 (S (List.length opts)))).
    apply Finite.Injective_map_NoDup; [exact Hinj|apply seq_NoDup].
Qed.

End ReducerFacts.

(** ** Updates, frames and the theme *)

Section UpdateFacts.

Import Builder.
Import Editor.
Import ThemeView.

Variable createId : nat -> string.

Lemma orElse_idem {A} (c : option A) (x : A) :
  orElse c (orElse c x) = orElse c x.
Proof. destruct c; reflexivity. Qed.

Lemma mergeField_idem f c : mergeField (mergeField f c) c = mergeField f c.
Proof.
  unfold mergeField. cbn [FormField.id FormField.type FormField.label
    FormField.description FormField.placeholder FormField.required
    FormField.options FormField.minLength FormField.maxLength FormField.min
    FormField.max FormField.step].
  rewrite !orElse_idem. reflexivity.
Qed.

Lemma update_twice id c (f : FormField.t) :
  let upd := fun field => if hasId id field then mergeField field c else field in
  upd (upd f) = upd f.
Proof.
  cbv beta zeta. destruct (hasId id f) eqn:Hf; [|rewrite Hf; reflexivity].
  destruct (hasId id (mergeField f c)); [apply mergeField_idem|reflexivity].
Qed.

(** X8. UPDATE_FIELD touches the fields that carry the id and nothing else:
    the list keeps its length and order, a field with another id is kept
    as it is, a field with the id gets the changes merged in, and the
    selection, the form meta, the builder mode and the theme are kept.
    Dispatching the same update a second time changes nothing more. *)
Theorem update_field_local_and_idempotent
  (s : BuilderState.t) (id : string) (changes : FieldChanges.t) :
  let s' := builderReducer createId s (UPDATE_FIELD id changes) in
  List.length (BuilderState.fields s') = List.length (BuilderState.fields s)
  /\ (forall i f,
         nth_error (BuilderState.fields s) i = Some f ->
         nth_error (BuilderState.fields s') i
         = Some (if String.eqb (FormField.id f) id
                 then mergeField f changes else f))
  /\ s' = withFields (BuilderState.fields s') s
  /\ builderReducer createId s' (UPDATE_FIELD id changes) = s'.
Proof.
  cbv zeta. cbn [builderReducer withFields BuilderState.fields].
  split; [apply length_map|]. split; [|split].
  - intros i f Hi. rewrite nth_error_map, Hi. reflexivity.
  - destruct s. reflexivity.
  - rewrite map_map.
    rewrite (map_ext _ _ (update_twice id changes)).
    destruct s. reflexivity.
Qed.

(** X9. The actions on fields and the actions on the form meta, the mode
    and the theme do not touch each other's part of the state: ADD_FIELD,
    REMOVE_FIELD, DUPLICATE_FIELD, SELECT_FIELD, UPDATE_FIELD and
    REORDER_FIELD keep the form meta, the builder mode and the theme;
    UPDATE_FORM_META, SET_MODE, SET_THEME_MODE, UPDATE_THEME_TOKEN and
    UPDATE_THEME_SURFACE keep the field list and the selection. *)
Theorem field_actions_and_chrome_actions_are_separate
  (s : BuilderState.t) (action : BuilderAction) :
  let s' := builderReducer createId s action in
  (isFieldAction action = true ->
   BuilderState.formMeta s' = BuilderState.formMeta s
   /\ BuilderState.mode s' = BuilderState.mode s
   /\ BuilderState.theme s' = BuilderState.theme s)
  /\ (isFieldAction action = false ->
      BuilderState.fields s' = BuilderState.fields s
      /\ BuilderState.selectedFieldId s' = BuilderState.selectedFieldId s).
Proof.
  cbv zeta.
  destruct action as [f|id|id|sel|id changes|id direction|meta|m|m|tag key value|key value];
    (split; [intros H|intros H]); try discriminate H; try (repeat split; fail).
  - destruct (duplicate_cases createId s id)
      as [[_ ->]|(pre & f & post & _ & _ & _ & ->)]; repeat split.
  - destruct (reorder_rearranges createId s id direction) as [_ ->].
    repeat split.
Qed.

(** X10. UPDATE_THEME_SURFACE sets one surface colour of the snapshot of
    the active mode: that surface reads the new value, the other surfaces
    and all tokens of the active snapshot are kept, the snapshot of the
    other mode is kept, and so is the active mode. *)
Theorem update_theme_surface_only_active_mode
  (s : BuilderState.t) (key : SurfaceKey.t) (value : string) :
  let s' := builderReducer createId s (UPDATE_THEME_SURFACE key value) in
  surface key (activeTheme s') = value
  /\ (forall key', key' <> key ->
         surface key' (activeTheme s') = surface key' (activeTheme s))
  /\ ThemeSnapshot.tokens (activeTheme s') = ThemeSnapshot.tokens (activeTheme s)
  /\ inactiveTheme s' = inactiveTheme s
  /\ ThemeState.mode (BuilderState.theme s')
     = ThemeState.mode (BuilderState.theme s).
Proof.
  destruct s as [fields sel meta mode [m [l d]]].
  cbv zeta. unfold activeTheme, inactiveTheme.
  cbn [builderReducer withTheme BuilderState.theme ThemeState.mode
       ThemeState.palette].
  split; [|split; [|split; [|split]]].
  - destruct m, key; reflexivity.
  - intros key' Hne. destruct m; cbn; destruct key', key; try reflexivity;
      exfalso; apply Hne; reflexivity.
  - destruct m, key; reflexivity.
  - destruct m; reflexivity.
  - reflexivity.
Qed.

(** X11. The two theme modes are edited independently.  SET_THEME_MODE
    keeps both snapshots and everything outside the theme, and switching
    back to the mode one came from gives the state back; a token edit made
    in dark mode and one made in light mode lead to the same palette in
    either order. *)
Theorem theme_modes_switch_and_commute
  (s : BuilderState.t) (m : ThemeMode)
  (tag1 tag2 : ThemeTag.t) (key1 key2 : TokenKey.t) (v1 v2 : AttrValue) :
  let s' := builderReducer createId s (SET_THEME_MODE m) in
  ThemeState.palette (BuilderState.theme s')
  = ThemeState.palette (BuilderState.theme s)
  /\ ThemeState.mode (BuilderState.theme s') = m
  /\ builderReducer createId s'
       (SET_THEME_MODE (ThemeState.mode (BuilderState.theme s))) = s
  /\ ThemeState.palette
       (BuilderState.theme
          (editTokenIn createId light tag2 key2 v2
             (editTokenIn createId dark tag1 key1 v1 s)))
     = ThemeState.palette
         (BuilderState.theme
            (editTokenIn createId dark tag1 key1 v1
               (editTokenIn createId light tag2 key2 v2 s))).
Proof.
  destruct s as [fields sel meta mode [m0 [l d]]].
  cbv zeta. repeat split.
Qed.

End UpdateFacts.

(** ** The option editor and the publish guard *)

Section EditorFacts.

Import Builder.
Import Editor.

Variable createId : nat -> string.

Lemma update_single_field (s : BuilderState.t) pre f post changes :
  BuilderState.fields s = pre ++ f :: post ->
  absent (FormField.id f) pre -> absent (FormField.id f) post ->
  builderReducer createId s (UPDATE_FIELD (FormField.id f) changes)
  = withFields (pre ++ mergeField f changes :: post) s.
Proof.
  intros Hf Hpre Hpost. cbn [builderReducer]. rewrite Hf.
  rewrite map_app. cbn [map].
  unfold hasId at 2. rewrite String.eqb_refl.
  rewrite (map_ext_in _ (fun field => field) pre).
  2:{ intros g Hg. rewrite (absent_hasId _ _ Hpre g Hg). reflexivity. }
  rewrite (map_ext_in _ (fun field => field) post).
  2:{ intros g Hg. rewrite (absent_hasId _ _ Hpost g Hg). reflexivity. }
  rewrite !map_id. reflexivity.
Qed.

(** X12. The option editor changes the options of its field and nothing
    else.  Dispatching what one of its three handlers passes to [onUpdate]
    replaces, in a form with unique ids, the field by one that differs in
    its options only.  Changing an option keeps the number, the order and
    the ids of the options; removing an option keeps the other options in
    order and leaves none with that id; adding appends one option, labelled
    [Option n] with value [option-n] for n one more than the count, after
    the options that were there. *)
Theorem option_editor_changes_options_only
  (s : BuilderState.t) (pre post : list FormField.t) (f : FormField.t)
  (optionId value : string) :
  BuilderState.fields s = pre ++ f :: post ->
  absent (FormField.id f) pre -> absent (FormField.id f) post ->
  (forall opts,
      exists f',
        builderReducer createId s
          (UPDATE_FIELD (FormField.id f) (optionsChange opts))
        = withFields (pre ++ f' :: post) s
        /\ FormField.options f' = Some opts
        /\ FormField.id f' = FormField.id f
        /\ FormField.type f' = FormField.type f
        /\ FormField.label f' = FormField.label f
        /\ FormField.description f' = FormField.description f
        /\ FormField.placeholder f' = FormField.placeholder f
        /\ FormField.required f' = FormField.required f
        /\ FormField.minLength f' = FormField.minLength f
        /\ FormField.maxLength f' = FormField.maxLength f
        /\ FormField.min f' = FormField.min f
        /\ FormField.max f' = FormField.max f
        /\ FormField.step f' = FormField.step f)
  /\ (exists changed,
         FieldChanges.options (handleOptionChange f optionId value)
         = Some (Some changed)
         /\ map FieldOption.id changed = map FieldOption.id (editorOptions f)
         /\ forall o, In o changed -> FieldOption.id o = optionId ->
                      FieldOption.label o = value /\ FieldOption.value o = value)
  /\ (exists kept,
         FieldChanges.options (handleRemove f optionId) = Some (Some kept)
         /\ (forall o, In o kept <->
                       In o (editorOptions f) /\ FieldOption.id o <> optionId))
  /\ FieldChanges.options (handleAdd createId f)
     = Some (Some (editorOptions f
                   ++ [{| FieldOption.id := createId 0%nat;
                          FieldOption.label :=
                            ("Option "
                             ++ decimal (S (List.length (editorOptions f))))%string;
                          FieldOption.value :=
                            ("option-"
                             ++ decimal (S (List.length (editorOptions f))))%string
                       |}])).
Proof.
  intros Hf Hpre Hpost. split; [|split; [|split]].
  - intros opts. exists (mergeField f (optionsChange opts)).
    split; [apply update_single_field; assumption|].
    repeat split.
  - eexists. split; [reflexivity|]. split.
    + rewrite map_map. apply map_ext. intros o.
      destruct (String.eqb (FieldOption.id o) optionId); reflexivity.
    + intros o Hin Hid. apply in_map_iff in Hin.
      destruct Hin as (o0 & Ho & _).
      destruct (String.eqb (FieldOption.id o0) optionId) eqn:E.
      * subst o. split; reflexivity.
      * subst o. apply String.eqb_neq in E. contradiction.
  - eexists. split; [reflexivity|].
    intros o. rewrite filter_In, negb_true_iff, String.eqb_neq. reflexivity.
  - unfold handleAdd. rewrite Nat.add_1_r. reflexivity.
Qed.

Lemma trim_empty_title (title : string) :
  (String.length title =? 0)%nat = true ->
  (String.length (Js.trim title) <? 3)%nat = true.
Proof. destruct title; [reflexivity|discriminate]. Qed.

(** X13. [publishForm] sends its request only for a publishable form: the
    request goes out exactly when no request is under way, the trimmed
    title has at least three characters and there is at least one field.
    Its payload then lists the fields of the state in order, one entry per
    field with the field's id, label, type, required flag and options. *)
Theorem publish_form_guard (publishing : bool) (s : BuilderState.t) :
  let title := FormMeta.title (BuilderState.formMeta s) in
  ((exists payload, publishForm publishing s = PublishRequest payload)
   <-> publishing = false
       /\ (3 <= String.length (Js.trim title))%nat
       /\ BuilderState.fields s <> [])
  /\ (forall payload,
         publishForm publishing s = PublishRequest payload ->
         PublishPayload.title payload = title
         /\ map PublishField.id (PublishPayload.fields payload) = fieldIds s
         /\ List.length (PublishPayload.fields payload)
            = List.length (BuilderState.fields s)
         /\ forall i f,
              nth_error (BuilderState.fields s) i = Some f ->
              nth_error (PublishPayload.fields payload) i
              = Some (toPublishField f)).
Proof.
  cbv zeta. unfold publishForm.
  destruct publishing.
  { split; [split|]; [intros [p H]; discriminate H | intros [H _]; discriminate H
                     | intros p H; discriminate H]. }
  destruct (String.length (FormMeta.title (BuilderState.formMeta s)) =? 0)%nat
    eqn:Hempty.
  { cbn [orb]. apply trim_empty_title in Hempty. apply Nat.ltb_lt in Hempty.
    split; [split|]; [intros [p H]; discriminate H | intros (_ & H & _); lia
                     | intros p H; discriminate H]. }
  cbn [orb].
  destruct (Nat.ltb_spec (String.length
              (Js.trim (FormMeta.title (BuilderState.formMeta s)))) 3)
    as [Hshort|Hlong].
  { split; [split|]; [intros [p H]; discriminate H | intros (_ & H & _); lia
                     | intros p H; discriminate H]. }
  destruct (BuilderState.fields s) as [|f0 fs] eqn:Hfields.
  { cbn. split; [split|]; [intros [p H]; discriminate H
                          | intros (_ & _ & H); contradiction H; reflexivity
                          | intros p H; discriminate H]. }
  cbn [List.length Nat.eqb]. split.
  - split; [intros _|intros _; eexists; reflexivity].
    split; [reflexivity|]. split; [exact Hlong|discriminate].
  - intros p H. inversion H; subst p; clear H.
    cbn [PublishPayload.title PublishPayload.fields].
    unfold fieldIds. rewrite Hfields.
    split; [reflexivity|].
    split; [exact (map_map toPublishField PublishField.id (f0 :: fs))|].
    split; [exact (length_map toPublishField (f0 :: fs))|].
    intros i f Hi.
    pose proof (nth_error_map toPublishField i (f0 :: fs)) as Hnth.
    rewrite Hi in Hnth. exact Hnth.
Qed.

End EditorFacts.

(** ** What the validation keeps *)

Section NormalFacts.

Import Submission.
Import Normal.

Variable Date_parse : string -> Js.number.

Lemma trimStartChars_head (l : list ascii) :
  match Js.trimStartChars l with
  | [] => True
  | c :: _ => Js.isWhiteSpace c = false
  end.
Proof.
  induction l as [|c l IH]; cbn; [exact I|].
  destruct (Js.isWhiteSpace c) eqn:E; [exact IH|exact E].
Qed.

Lemma trimStartChars_fixed (l : list ascii) :
  match l with [] => True | c :: _ => Js.isWhiteSpace c = false end ->
  Js.trimStartChars l = l.
Proof. destruct l as [|c l]; cbn; [reflexivity|]. intros ->. reflexivity. Qed.

(** What [trimStartChars] drops is a prefix. *)
Lemma trimStartChars_suffix (l : list ascii) :
  exists ws, l = ws ++ Js.trimStartChars l.
Proof.
  induction l as [|c l [ws IH]]; cbn; [exists []; reflexivity|].
  destruct (Js.isWhiteSpace c).
  - exists (c :: ws). cbn. rewrite <- IH. reflexivity.
  - exists []. reflexivity.
Qed.

Lemma trimChars_idempotent (l : list ascii) :
  Js.trimChars (Js.trimChars l) = Js.trimChars l.
Proof.
  unfold Js.trimChars.
  set (a := Js.trimStartChars l).
  set (b := Js.trimStartChars (rev a)).
  assert (Hb : Js.trimStartChars b = b) by apply trimStartChars_idem.
  assert (Hc : Js.trimStartChars (rev b) = rev b).
  { apply trimStartChars_fixed.
    destruct (trimStartChars_suffix (rev a)) as [ws Hws]. fold b in Hws.
    assert (Ha : a = rev b ++ rev ws).
    { rewrite <- (rev_involutive a), Hws, rev_app_distr. reflexivity. }
    destruct (rev b) as [|c t]; [exact I|].
    pose proof (trimStartChars_head l) as Hhead. fold a in Hhead.
    rewrite Ha in Hhead. exact Hhead. }
  rewrite Hc, rev_involutive, Hb. reflexivity.
Qed.

Lemma trim_idempotent (s : string) : Js.trim (Js.trim s) = Js.trim s.
Proof.
  unfold Js.trim. rewrite list_ascii_of_string_of_list_ascii, trimChars_idempotent.
  reflexivity.
Qed.

Lemma filter_nil_forallb {A} (p : A -> bool) (l : list A) :
  filter (fun x => negb (p x)) l = [] -> forallb p l = true.
Proof.
  induction l as [|x l IH]; cbn; [reflexivity|].
  destruct (p x); cbn; [exact IH|discriminate].
Qed.

Lemma forallb_map_JString (q : string -> bool) (l : list string) :
  forallb (fun item => match item with JString v => q v | _ => false end)
          (map JString l)
  = forallb q l.
Proof. induction l as [|x l IH]; cbn; [reflexivity|]. rewrite IH. reflexivity. Qed.

Ltac split_if :=
  match goal with
  | |- context [if ?c then _ else _] => destruct c eqn:?
  end.

(** One field adds nothing, an issue, or an answer that is normalized for
    the field. *)
Lemma processField_normalizes answers acc field :
  processField Date_parse answers acc field = acc
  \/ (exists message,
         processField Date_parse answers acc field
         = pushIssue (Field.id field) message acc)
  \/ (exists value,
         processField Date_parse answers acc field
         = pushAnswer (Field.id field) value acc
         /\ normalizedFor Date_parse field value = true).
Proof.
  unfold processField, normalizedFor.
  destruct (find (answerFor (Field.id field)) answers) as [answer|].
  2:{ destruct (Field.required field); eauto. }
  destruct (fieldTypeOf (Field.type field)) as [[]|]; eauto.
  - (* short_text *)
    set (value := match ensureString (Answer.value answer) with
                  | Some s => Js.trim s | None => "" end).
    assert (Htrim : Js.trim value = value).
    { unfold value. destruct (ensureString (Answer.value answer));
        [apply trim_idempotent|reflexivity]. }
    destruct (Field.required field), (isEmpty value) eqn:E; cbn [andb negb];
      eauto; right; right; eexists; (split; [reflexivity|]);
      cbv beta iota; rewrite E, Htrim, String.eqb_refl; reflexivity.
  - (* long_text *)
    set (value := match ensureString (Answer.value answer) with
                  | Some s => Js.trim s | None => "" end).
    assert (Htrim : Js.trim value = value).
    { unfold value. destruct (ensureString (Answer.value answer));
        [apply trim_idempotent|reflexivity]. }
    destruct (Field.required field), (isEmpty value) eqn:E; cbn [andb negb];
      eauto; right; right; eexists; (split; [reflexivity|]);
      cbv beta iota; rewrite E, Htrim, String.eqb_refl; reflexivity.
  - (* email *)
    set (value := match ensureString (Answer.value answer) with
                  | Some s => Js.trim s | None => "" end).
    assert (Htrim : Js.trim value = value).
    { unfold value. destruct (ensureString (Answer.value answer));
        [apply trim_idempotent|reflexivity]. }
    destruct (Field.required field), (isEmpty value) eqn:E,
      (emailRegex_test value) eqn:R; cbn [andb negb]; eauto;
      right; right; eexists; (split; [reflexivity|]);
      cbv beta iota; rewrite E, R, Htrim, String.eqb_refl; reflexivity.
  - (* number *)
    destruct (Answer.value answer) as [| |n|s| |]; cbv beta iota zeta;
      try (destruct (Field.required field); eauto; fail).
    + destruct (Js.Number_isFinite n) eqn:F;
        [right; right; eexists; split; [reflexivity|exact F]|].
      destruct (Field.required field); eauto.
    + destruct (isEmpty (Js.trim s));
        [destruct (Field.required field); eauto|].
      destruct (Js.Number_isFinite (Js.Number (Js.trim s))) eqn:F;
        [right; right; eexists; split; [reflexivity|exact F]|].
      destruct (Field.required field); eauto.
  - (* dropdown *)
    set (value := match ensureString (Answer.value answer) with
                  | Some s => s | None => "" end).
    destruct (Field.required field), (isEmpty value) eqn:E; cbn [andb negb];
      eauto;
      destruct (Js.isNil (parseOptions (Field.options field))) eqn:N,
        (includes (parseOptions (Field.options field)) value) eqn:I;
      cbn [andb negb]; eauto;
      right; right; eexists; (split; [reflexivity|]);
      cbv beta iota zeta; rewrite E, ?N, ?I; reflexivity.
  - (* checkbox *)
    destruct (ensureStringArray (Answer.value answer)) as [[|v vs]|];
      try (destruct (Field.required field); eauto; fail).
    destruct (Js.isNil (parseOptions (Field.options field))) eqn:N; cbn [negb andb].
    + right. right. eexists. split; [reflexivity|].
      cbv beta iota zeta. rewrite forallb_map_JString.
      apply andb_true_iff. split; [reflexivity|].
      apply forallb_forall. intros x _. reflexivity.
    + destruct (Js.isNil
                  (filter (fun entry =>
                             negb (includes (parseOptions (Field.options field)) entry))
                          (v :: vs))) eqn:Inv; cbn [negb]; eauto.
      right. right. eexists. split; [reflexivity|].
      cbv beta iota zeta. rewrite forallb_map_JString.
      apply andb_true_iff. split; [reflexivity|].
      assert (Hall : forallb (includes (parseOptions (Field.options field)))
                       (v :: vs) = true).
      { apply filter_nil_forallb.
        destruct (filter _ (v :: vs)); [reflexivity|discriminate Inv]. }
      apply forallb_forall. intros x Hx.
      rewrite (proj1 (forallb_forall _ _) Hall x Hx). apply orb_true_r.
  - (* date *)
    set (value := match ensureString (Answer.value answer) with
                  | Some s => s | None => "" end).
    unfold isValidDate.
    destruct (Field.required field), (isEmpty value) eqn:E; cbn [andb negb];
      eauto;
      destruct (Js.Number_isFinite (Date_parse value)) eqn:F; cbn [andb negb];
      eauto;
      right; right; eexists; (split; [reflexivity|]);
      cbv beta iota; rewrite E, F; reflexivity.
Qed.

Lemma Subsequence_length {A} (a b : list A) :
  Subsequence a b -> (List.length a <= List.length b)%nat.
Proof. induction 1; cbn; lia. Qed.

Lemma Subsequence_In {A} (a b : list A) (x : A) :
  Subsequence a b -> In x a -> In x b.
Proof.
  induction 1; cbn; [auto|auto|]. intros [->|H']; auto.
Qed.

Lemma Subsequence_NoDup {A} (a b : list A) :
  Subsequence a b -> NoDup b -> NoDup a.
Proof.
  induction 1 as [|x a b H IH|x a b H IH]; intros Hb.
  - constructor.
  - inversion Hb; auto.
  - inversion Hb as [|? ? Hx Hb']; subst. constructor; [|auto].
    intros Hin. apply Hx. eapply Subsequence_In; eassumption.
Qed.

Lemma Subsequence_map {A B} (f : A -> B) (a b : list A) :
  Subsequence a b -> Subsequence (map f a) (map f b).
Proof. induction 1; cbn; constructor; assumption. Qed.

Lemma Subsequence_nil_l {A} (b : list A) : Subsequence [] b.
Proof. induction b; constructor; assumption. Qed.

(** The per-field loop appends, in the order of the fields, at most one
    answer per field, each normalized for its field. *)
Lemma processField_fold_kept answers fields acc :
  exists added kept,
    answersToPersist (fold_left (processField Date_parse answers) fields acc)
    = answersToPersist acc ++ added
    /\ Subsequence kept fields
    /\ Forall2 (keptFor Date_parse) added kept.
Proof.
  revert acc. induction fields as [|f fields IH]; intros acc; cbn [fold_left].
  - exists [], []. rewrite app_nil_r. repeat constructor.
  - destruct (IH (processField Date_parse answers acc f))
      as (added & kept & Hadd & Hsub & Hall).
    rewrite Hadd.
    destruct (processField_normalizes answers acc f)
      as [->|[[m ->]|(v & -> & Hv)]].
    + exists added, kept. split; [reflexivity|]. split; [|exact Hall].
      constructor. exact Hsub.
    + exists added, kept. split; [reflexivity|]. split; [|exact Hall].
      constructor. exact Hsub.
    + exists ({| Persist.fieldId := Field.id f; Persist.value := v |} :: added),
             (f :: kept).
      cbn [pushAnswer answersToPersist]. rewrite <- app_assoc.
      split; [reflexivity|]. split; [constructor; exact Hsub|].
      constructor; [|exact Hall]. split; [reflexivity|exact Hv].
Qed.

Lemma Forall2_map_eq {A B C} (R : A -> B -> Prop) (f : A -> C) (g : B -> C)
  (a : list A) (b : list B) :
  (forall x y, R x y -> f x = g y) -> Forall2 R a b -> map f a = map g b.
Proof.
  intros H. induction 1 as [|x y a b Hxy _ IH]; cbn; [reflexivity|].
  rewrite (H x y Hxy), IH. reflexivity.
Qed.

Lemma validate_persisted fields answers :
  answersToPersist (validateAnswers Date_parse fields answers)
  = answersToPersist
      (fold_left (processField Date_parse answers) fields
         (fold_left (flagForeign fields) answers emptyAcc)).
Proof. unfold validateAnswers, perField. rewrite rescanField_fold. reflexivity. Qed.

(** X14. What the route hands to persistence is normalized, in the order
    of the form and at most one answer per field: the persisted list
    matches, element by element, a sub-list of the form's fields taken in
    order, each answer carrying the id of its field and a value normalized
    for the field's type.  So there are no more answers than fields, and in
    a form with unique field ids no two answers share a field id. *)
Theorem persisted_answers_normalized_in_field_order
  (fields : list Field.t) (answers : list Answer.t) :
  let persisted :=
    answersToPersist (validateAnswers Date_parse fields answers) in
  (exists kept,
      Subsequence kept fields
      /\ Forall2 (keptFor Date_parse) persisted kept)
  /\ (List.length persisted <= List.length fields)%nat
  /\ (NoDup (map Field.id fields) -> NoDup (map Persist.fieldId persisted)).
Proof.
  cbv zeta. rewrite validate_persisted.
  destruct (processField_fold_kept answers fields
              (fold_left (flagForeign fields) answers emptyAcc))
    as (added & kept & Hadd & Hsub & Hall).
  assert (H0 : answersToPersist (fold_left (flagForeign fields) answers emptyAcc)
               = []) by (rewrite flagForeign_fold; reflexivity).
  rewrite H0 in Hadd. cbn [app] in Hadd. rewrite Hadd.
  assert (Hids : map Persist.fieldId added = map Field.id kept).
  { eapply Forall2_map_eq; [|exact Hall]. intros x y [H _]. exact H. }
  split; [exists kept; split; assumption|]. split.
  - rewrite <- (length_map Persist.fieldId), Hids, length_map.
    apply Subsequence_length. exact Hsub.
  - intros Hnd. rewrite Hids.
    eapply Subsequence_NoDup; [|exact Hnd]. apply Subsequence_map. exact Hsub.
Qed.

(** A required field is never passed over in silence. *)
Lemma processField_required answers acc field :
  Field.required field = true ->
  (exists message,
      processField Date_parse answers acc field
      = pushIssue (Field.id field) message acc)
  \/ (exists value,
         processField Date_parse answers acc field
         = pushAnswer (Field.id field) value acc).
Proof.
  intros Hreq. unfold processField. rewrite Hreq.
  destruct (find (answerFor (Field.id field)) answers) as [answer|]; [|eauto].
  destruct (fieldTypeOf (Field.type field)) as [[]|]; eauto;
    cbn [andb negb].
  - repeat split_if; eauto.
  - repeat split_if; eauto.
  - repeat split_if; eauto.
  - destruct (Answer.value answer); repeat split_if; eauto.
  - repeat split_if; eauto.
  - destruct (ensureStringArray (Answer.value answer)) as [[|v vs]|];
      repeat split_if; eauto.
  - repeat split_if; eauto.
Qed.

(** An answer is kept only for a field that was answered. *)
Lemma processField_persisted_answered answers acc field p :
  In p (answersToPersist (processField Date_parse answers acc field)) ->
  In p (answersToPersist acc)
  \/ (Persist.fieldId p = Field.id field
      /\ exists a, find (answerFor (Field.id field)) answers = Some a).
Proof.
  intros H.
  destruct (find (answerFor (Field.id field)) answers) as [a|] eqn:Hfind.
  - apply processField_persisted in H. destruct H as [H|H]; eauto.
  - left. unfold processField in H. rewrite Hfind in H.
    destruct (Field.required field); exact H.
Qed.

Lemma processField_fold_persisted_answered answers fields acc p :
  In p (answersToPersist (fold_left (processField Date_parse answers) fields acc)) ->
  In p (answersToPersist acc)
  \/ exists f a,
       In f fields /\ Persist.fieldId p = Field.id f
       /\ find (answerFor (Field.id f)) answers = Some a.
Proof.
  revert acc. induction fields as [|f fields IH]; intros acc; cbn [fold_left].
  - auto.
  - intros H. apply IH in H. destruct H as [H|(g & a & Hg & E & Ha)].
    + apply processField_persisted_answered in H.
      destruct H as [H|(E & a & Ha)]; auto.
      right. exists f, a. split; [left; reflexivity|]. split; assumption.
    + right. exists g, a. split; [right; exact Hg|]. split; assumption.
Qed.

Lemma processField_persisted_mono answers acc field p :
  In p (answersToPersist acc) ->
  In p (answersToPersist (processField Date_parse answers acc field)).
Proof.
  intros H.
  destruct (processField_cases Date_parse answers acc field)
    as [->|[[m ->]|[v ->]]]; cbn [pushIssue pushAnswer answersToPersist]; auto.
  apply in_or_app. left. exact H.
Qed.

Lemma processField_fold_persisted_mono answers fields acc p :
  In p (answersToPersist acc) ->
  In p (answersToPersist (fold_left (processField Date_parse answers) fields acc)).
Proof.
  revert acc. induction fields as [|f fields IH]; intros acc H; cbn [fold_left].
  - exact H.
  - apply IH. apply processField_persisted_mono. exact H.
Qed.

Lemma app_eq_self {A} (l d : list A) : l ++ d = l -> d = [].
Proof.
  intros H. apply (app_inv_head l). rewrite app_nil_r. exact H.
Qed.

(** When the per-field loop adds no issue, every required field of the
    list has an answer in [answersToPersist]. *)
Lemma processField_fold_no_issue answers fields acc :
  issues (fold_left (processField Date_parse answers) fields acc) = issues acc ->
  forall f, In f fields -> Field.required f = true ->
  exists p,
    In p (answersToPersist (fold_left (processField Date_parse answers) fields acc))
    /\ Persist.fieldId p = Field.id f.
Proof.
  revert acc. induction fields as [|f0 fields IH]; intros acc Hiss f Hf Hreq;
    cbn [fold_left] in *; [destruct Hf|].
  destruct (processField_fold_issues Date_parse answers fields
              (processField Date_parse answers acc f0)) as [d2 Hd2].
  destruct (processField_issues Date_parse answers acc f0) as [d1 Hd1].
  assert (Hnil : d1 ++ d2 = []).
  { apply (app_eq_self (issues acc)). rewrite app_assoc, <- Hd1, <- Hd2.
    exact Hiss. }
  apply app_eq_nil in Hnil. destruct Hnil as [-> ->].
  rewrite app_nil_r in Hd1, Hd2.
  destruct Hf as [<-|Hf].
  - destruct (processField_required answers acc f0 Hreq) as [[m Hm]|[v Hv]].
    + rewrite Hm in Hd1. cbn [pushIssue issues] in Hd1.
      apply app_eq_self in Hd1. discriminate Hd1.
    + exists {| Persist.fieldId := Field.id f0; Persist.value := v |}.
      split; [|reflexivity].
      apply processField_fold_persisted_mono. rewrite Hv.
      cbn [pushAnswer answersToPersist]. apply in_or_app. right. left.
      reflexivity.
  - apply IH; assumption.
Qed.

Lemma find_persisted_some (id : string) (l : list Persist.t) p :
  In p l -> Persist.fieldId p = id ->
  exists q, find (persistedFor id) l = Some q.
Proof.
  intros Hin Hid.
  destruct (find (persistedFor id) l) as [q|] eqn:E; [eauto|].
  pose proof (find_none _ _ E p Hin) as H. unfold persistedFor in H.
  rewrite Hid, String.eqb_refl in H. discriminate H.
Qed.

Lemma map_eq_nil_inv {A B} (f : A -> B) (l : list A) : map f l = [] -> l = [].
Proof. destruct l; [reflexivity|discriminate]. Qed.

Lemma filter_nil_all {A} (p : A -> bool) (l : list A) :
  filter p l = [] -> forall x, In x l -> p x = false.
Proof.
  intros H x Hx. destruct (p x) eqn:E; [|reflexivity].
  assert (Hin : In x (filter p l)) by (apply filter_In; auto).
  rewrite H in Hin. destruct Hin.
Qed.

(** X15. The re-scan never decides a submission: the issue list of the
    whole validation is empty exactly when the list left by the first two
    loops is empty.  (A required field that the per-field loop passes
    without an issue has an answer kept, so the re-scan finds it.) *)
Theorem rescan_never_changes_the_outcome
  (fields : list Field.t) (answers : list Answer.t) :
  issues (validateAnswers Date_parse fields answers) = []
  <-> issues (perField Date_parse fields answers) = [].
Proof.
  unfold validateAnswers. rewrite rescanField_fold. cbn [issues].
  split.
  - intros H. apply app_eq_nil in H. tauto.
  - intros H. rewrite H. cbn [app].
    assert (Hnone : filter (notPersisted (perField Date_parse fields answers))
                      (filter Field.required fields) = []).
    { destruct (filter _ (filter Field.required fields)) as [|f l] eqn:E;
        [reflexivity|exfalso].
      assert (Hin : In f (filter (notPersisted (perField Date_parse fields answers))
                            (filter Field.required fields)))
        by (rewrite E; left; reflexivity).
      apply filter_In in Hin. destruct Hin as [Hin Hnot].
      apply filter_In in Hin. destruct Hin as [Hin Hreq].
      unfold perField in H, Hnot.
      destruct (processField_fold_issues Date_parse answers fields
                  (fold_left (flagForeign fields) answers emptyAcc)) as [d Hd].
      rewrite Hd in H. apply app_eq_nil in H. destruct H as [H0 ->].
      rewrite app_nil_r in Hd.
      destruct (processField_fold_no_issue answers fields _ Hd f Hin Hreq)
        as (p & Hp & Hid).
      destruct (find_persisted_some (Field.id f) _ p Hp Hid) as [q Hq].
      unfold notPersisted in Hnot. rewrite Hq in Hnot. discriminate Hnot. }
    rewrite Hnone. reflexivity.
Qed.

Lemma accepted_complete
  (fields : list Field.t) (answers : list Answer.t) :
  issues (validateAnswers Date_parse fields answers) = [] ->
  (forall a, In a answers -> fieldMap_has fields (Answer.fieldId a) = true)
  /\ (forall f,
         In f fields -> Field.required f = true ->
         (exists a, In a answers /\ Answer.fieldId a = Field.id f)
         /\ exists p,
              In p (answersToPersist (validateAnswers Date_parse fields answers))
              /\ Persist.fieldId p = Field.id f).
Proof.
  intros Hok.
  assert (Hfirst : issues (perField Date_parse fields answers) = []).
  { unfold validateAnswers in Hok. rewrite rescanField_fold in Hok.
    cbn [issues] in Hok. apply app_eq_nil in Hok. tauto. }
  unfold perField in Hfirst.
  destruct (processField_fold_issues Date_parse answers fields
              (fold_left (flagForeign fields) answers emptyAcc)) as [d Hd].
  rewrite Hd in Hfirst. apply app_eq_nil in Hfirst.
  destruct Hfirst as [Hforeign ->]. rewrite app_nil_r in Hd.
  split.
  - intros a Ha. rewrite flagForeign_fold in Hforeign.
    cbn [issues emptyAcc app] in Hforeign.
    apply map_eq_nil_inv in Hforeign.
    pose proof (filter_nil_all _ _ Hforeign a Ha) as H.
    apply negb_false_iff in H. exact H.
  - intros f Hf Hreq.
    destruct (processField_fold_no_issue answers fields _ Hd f Hf Hreq)
      as (p & Hp & Hid).
    split.
    + destruct (processField_fold_persisted_answered answers fields _ p Hp)
        as [H0|(g & a & _ & Hg & Ha)].
      * rewrite flagForeign_fold in H0. destruct H0.
      * exists a. apply find_some in Ha. destruct Ha as [Hin Heq].
        split; [exact Hin|]. unfold answerFor in Heq.
        apply String.eqb_eq in Heq. congruence.
    + exists p. split; [|exact Hid]. rewrite validate_persisted. exact Hp.
Qed.

(** X16. An accepted submission is complete: when the validation leaves no
    issue, every answer addresses a field of the form, and every required
    field was answered and has an answer in the persisted list. *)
Theorem accepted_submission_is_complete
  (fields : list Field.t) (answers : list Answer.t) :
  issues (validateAnswers Date_parse fields answers) = [] ->
  (forall a, In a answers -> fieldMap_has fields (Answer.fieldId a) = true)
  /\ (forall f,
         In f fields -> Field.required f = true ->
         (exists a, In a answers /\ Answer.fieldId a = Field.id f)
         /\ exists p,
              In p (answersToPersist (validateAnswers Date_parse fields answers))
              /\ Persist.fieldId p = Field.id f).
Proof. exact (accepted_complete fields answers). Qed.

Lemma find_app_first {A} (p : A -> bool) (l1 l2 : list A) :
  find p (l1 ++ l2)
  = match find p l1 with Some x => Some x | None => find p l2 end.
Proof.
  induction l1 as [|x l1 IH]; cbn; [reflexivity|].
  destruct (p x); [reflexivity|exact IH].
Qed.

Lemma processField_ext a1 a2 acc field :
  find (answerFor (Field.id field)) a1 = find (answerFor (Field.id field)) a2 ->
  processField Date_parse a1 acc field = processField Date_parse a2 acc field.
Proof. intros H. unfold processField. rewrite H. reflexivity. Qed.

Lemma fold_left_ext_in {A B} (f g : A -> B -> A) (l : list B) (a : A) :
  (forall x b, In b l -> f x b = g x b) -> fold_left f l a = fold_left g l a.
Proof.
  revert a. induction l as [|b l IH]; intros a H; cbn; [reflexivity|].
  rewrite (H a b) by (left; reflexivity).
  apply IH. intros x b' Hb'. apply H. right. exact Hb'.
Qed.

(** X17. Only the first answer for a field counts: answers that come after
    the others and address fields of the form that the others answer
    already change neither the issues nor the persisted answers. *)
Theorem later_answers_for_answered_fields_are_ignored
  (fields : list Field.t) (answers extra : list Answer.t) :
  (forall e, In e extra ->
             fieldMap_has fields (Answer.fieldId e) = true
             /\ existsb (answerFor (Answer.fieldId e)) answers = true) ->
  validateAnswers Date_parse fields (answers ++ extra)
  = validateAnswers Date_parse fields answers.
Proof.
  intros Hextra. unfold validateAnswers. f_equal. unfold perField.
  assert (Hforeign : fold_left (flagForeign fields) (answers ++ extra) emptyAcc
                     = fold_left (flagForeign fields) answers emptyAcc).
  { rewrite fold_left_app.
    generalize (fold_left (flagForeign fields) answers emptyAcc) as acc.
    induction extra as [|e extra IH]; intros acc; cbn [fold_left]; [reflexivity|].
    unfold flagForeign at 2.
    rewrite (proj1 (Hextra e (or_introl eq_refl))).
    apply IH. intros e' He'. apply Hextra. right. exact He'. }
  rewrite Hforeign. apply fold_left_ext_in. intros acc f _.
  apply processField_ext.
  rewrite find_app_first.
  destruct (find (answerFor (Field.id f)) answers) as [a|] eqn:Hfind;
    [reflexivity|].
  destruct (find (answerFor (Field.id f)) extra) as [e|] eqn:He; [|reflexivity].
  exfalso. apply find_some in He. destruct He as [Hin Hid].
  unfold answerFor in Hid. apply String.eqb_eq in Hid.
  destruct (Hextra e Hin) as [_ Hex]. apply existsb_exists in Hex.
  destruct Hex as (a & Ha & Hfor). rewrite Hid in Hfor.
  rewrite (find_none _ _ Hfind a Ha) in Hfor. discriminate Hfor.
Qed.

Lemma filter_none {A} (p : A -> bool) (l : list A) :
  (forall x, In x l -> p x = false) -> filter p l = [].
Proof.
  induction l as [|x l IH]; cbn; [reflexivity|].
  intros H. rewrite (H x) by (left; reflexivity).
  apply IH. intros y Hy. apply H. right. exact Hy.
Qed.

Lemma all_strings (q : string -> bool) (items : list Json) :
  forallb (fun item => match item with JString v => q v | _ => false end) items
  = true ->
  exists vs, items = map JString vs /\ forallb q vs = true.
Proof.
  induction items as [|item items IH]; cbn.
  - intros _. exists []. auto.
  - intros H. apply andb_true_iff in H. destruct H as [Hq H].
    destruct item; try discriminate Hq.
    destruct (IH H) as (vs & -> & Hvs). exists (s :: vs). cbn.
    rewrite Hq, Hvs. auto.
Qed.

Lemma forallb_filter_nil {A} (q : A -> bool) (l : list A) :
  forallb q l = true -> filter (fun x => negb (q x)) l = [].
Proof.
  induction l as [|x l IH]; cbn; [reflexivity|].
  intros H. apply andb_true_iff in H. destruct H as [-> H]. cbn. auto.
Qed.

(** A value that is normalized for a field is kept as it is when it is
    sent as the answer to the field. *)
Lemma processField_renormalizes answers acc field a :
  find (answerFor (Field.id field)) answers = Some a ->
  normalizedFor Date_parse field (Answer.value a) = true ->
  processField Date_parse answers acc field
  = pushAnswer (Field.id field) (Answer.value a) acc.
Proof.
  intros Hfind. unfold processField, normalizedFor. rewrite Hfind.
  destruct (fieldTypeOf (Field.type field)) as [[]|]; [| | | | | | |discriminate];
    destruct (Answer.value a) as [| |n|s|items|]; try discriminate;
    cbv beta iota zeta; cbn [ensureString]; intros H.
  - apply andb_true_iff in H. destruct H as [He Ht].
    apply negb_true_iff in He. apply String.eqb_eq in Ht.
    rewrite Ht, He, !andb_false_r. reflexivity.
  - apply andb_true_iff in H. destruct H as [He Ht].
    apply negb_true_iff in He. apply String.eqb_eq in Ht.
    rewrite Ht, He, !andb_false_r. reflexivity.
  - apply andb_true_iff in H. destruct H as [H Hr].
    apply andb_true_iff in H. destruct H as [He Ht].
    apply negb_true_iff in He. apply String.eqb_eq in Ht.
    rewrite Ht, He, Hr, !andb_false_r. reflexivity.
  - rewrite H. reflexivity.
  - apply andb_true_iff in H. destruct H as [He Hd].
    apply negb_true_iff in He. rewrite He, andb_false_r.
    apply orb_true_iff in Hd. destruct Hd as [Hd|Hd]; rewrite Hd; cbn [negb andb];
      rewrite ?andb_false_r; reflexivity.
  - apply andb_true_iff in H. destruct H as [He Hall].
    destruct (all_strings _ _ Hall) as (vs & -> & Hvs).
    rewrite ensureStringArray_strings.
    destruct vs as [|v vs]; [discriminate He|].
    destruct (Js.isNil (parseOptions (Field.options field))) eqn:N.
    + reflexivity.
    + cbn [orb] in Hvs. rewrite (forallb_filter_nil _ _ Hvs). reflexivity.
  - apply andb_true_iff in H. destruct H as [He Hf].
    apply negb_true_iff in He. unfold isValidDate.
    rewrite He, Hf, !andb_false_r. reflexivity.
Qed.

Lemma find_resubmit_none id (P : list Persist.t) :
  ~ In id (map Persist.fieldId P) ->
  find (answerFor id) (map resubmit P) = None.
Proof.
  induction P as [|p P IH]; cbn; [reflexivity|].
  intros H. unfold answerFor at 1. cbn [resubmit Answer.fieldId].
  destruct (String.eqb_spec (Persist.fieldId p) id) as [E|_]; [tauto|].
  apply IH. tauto.
Qed.

Lemma find_resubmit_some (P : list Persist.t) p :
  NoDup (map Persist.fieldId P) -> In p P ->
  find (answerFor (Persist.fieldId p)) (map resubmit P) = Some (resubmit p).
Proof.
  induction P as [|q P IH]; cbn; [intros _ []|].
  intros Hnd Hin. inversion Hnd as [|? ? Hq Hnd']; subst.
  unfold answerFor at 1. cbn [resubmit Answer.fieldId].
  destruct Hin as [->|Hin]; [rewrite String.eqb_refl; reflexivity|].
  destruct (String.eqb_spec (Persist.fieldId q) (Persist.fieldId p)) as [E|_].
  - exfalso. apply Hq. rewrite E. apply in_map. exact Hin.
  - apply IH; assumption.
Qed.

(** The per-field loop on answers that are, field by field, the kept
    answers [P] keeps exactly [P] and raises no issue. *)
Lemma processField_fold_rerun kept fields :
  Subsequence kept fields ->
  forall P answers acc,
    Forall2 (keptFor Date_parse) P kept ->
    NoDup (map Field.id fields) ->
    (forall p, In p P ->
               find (answerFor (Persist.fieldId p)) answers = Some (resubmit p)) ->
    (forall f, In f fields -> ~ In (Field.id f) (map Persist.fieldId P) ->
               find (answerFor (Field.id f)) answers = None) ->
    (forall f, In f fields -> Field.required f = true ->
               In (Field.id f) (map Persist.fieldId P)) ->
    fold_left (processField Date_parse answers) fields acc
    = {| issues := issues acc; answersToPersist := answersToPersist acc ++ P |}.
Proof.
  induction 1 as [|x kept fields Hsub IH|x kept fields Hsub IH];
    intros P answers acc Hall Hnd H1 H2 H3.
  - inversion Hall; subst. cbn. rewrite app_nil_r. destruct acc. reflexivity.
  - cbn [fold_left map] in *. inversion Hnd as [|? ? Hx Hnd']; subst.
    assert (Hids : map Persist.fieldId P = map Field.id kept).
    { eapply Forall2_map_eq; [|exact Hall]. intros p f [H _]. exact H. }
    assert (Hout : ~ In (Field.id x) (map Persist.fieldId P)).
    { rewrite Hids. intros Hin. apply Hx.
      eapply Subsequence_In; [apply Subsequence_map; exact Hsub|exact Hin]. }
    assert (Hstep : processField Date_parse answers acc x = acc).
    { unfold processField. rewrite (H2 x (or_introl eq_refl) Hout).
      destruct (Field.required x) eqn:Hreq; [|reflexivity].
      exfalso. apply Hout. apply H3; [left; reflexivity|exact Hreq]. }
    rewrite Hstep. apply IH; try assumption.
    + intros f Hf. apply H2. right. exact Hf.
    + intros f Hf. apply H3. right. exact Hf.
  - cbn [fold_left map] in *. inversion Hnd as [|? ? Hx Hnd']; subst.
    inversion Hall as [|p x' P' kept' [Hid Hnorm] Hall']; subst.
    assert (Hids : map Persist.fieldId P' = map Field.id kept).
    { eapply Forall2_map_eq; [|exact Hall']. intros q f [H _]. exact H. }
    assert (Hstep : processField Date_parse answers acc x
                    = pushAnswer (Field.id x) (Persist.value p) acc).
    { apply (processField_renormalizes answers acc x (resubmit p)).
      - rewrite <- Hid. apply H1. left. reflexivity.
      - exact Hnorm. }
    rewrite Hstep.
    rewrite (IH P' answers (pushAnswer (Field.id x) (Persist.value p) acc));
      try assumption.
    + cbn [pushAnswer issues answersToPersist]. rewrite <- app_assoc.
      destruct p as [pid pval]. cbn in Hid |- *. rewrite Hid. reflexivity.
    + intros q Hq. apply H1. right. exact Hq.
    + intros f Hf Hnot. apply H2; [right; exact Hf|].
      cbn [map]. intros [E|Hin]; [|contradiction].
      apply Hx. rewrite <- Hid, E. apply in_map. exact Hf.
    + intros f Hf Hreq. destruct (H3 f (or_intror Hf) Hreq) as [E|Hin];
        [|exact Hin].
      exfalso. apply Hx. rewrite <- Hid, E. apply in_map. exact Hf.
Qed.

(** In a form with unique field ids, the persisted answers of a validation
    without issues validate again without issues, to the same answers. *)
Lemma resubmit_engine
  (fields : list Field.t) (answers : list Answer.t) (P : list Persist.t) :
  NoDup (map Field.id fields) ->
  validateAnswers Date_parse fields answers
  = {| issues := []; answersToPersist := P |} ->
  validateAnswers Date_parse fields (map resubmit P)
  = {| issues := []; answersToPersist := P |}.
Proof.
  intros Hnd Hrun.
  assert (Hiss : issues (validateAnswers Date_parse fields answers) = [])
    by (rewrite Hrun; reflexivity).
  assert (HP : answersToPersist (validateAnswers Date_parse fields answers) = P)
    by (rewrite Hrun; reflexivity).
  destruct (accepted_complete fields answers Hiss) as [_ Hreq].
  rewrite HP in Hreq.
  rewrite validate_persisted in HP.
  destruct (processField_fold_kept answers fields
              (fold_left (flagForeign fields) answers emptyAcc))
    as (added & kept & Hadd & Hsub & Hall).
  assert (H0 : answersToPersist (fold_left (flagForeign fields) answers emptyAcc)
               = []) by (rewrite flagForeign_fold; reflexivity).
  rewrite H0 in Hadd. cbn [app] in Hadd. rewrite HP in Hadd. subst added.
  assert (Hids : map Persist.fieldId P = map Field.id kept).
  { eapply Forall2_map_eq; [|exact Hall]. intros p f [H _]. exact H. }
  assert (HndP : NoDup (map Persist.fieldId P)).
  { rewrite Hids. eapply Subsequence_NoDup; [|exact Hnd].
    apply Subsequence_map. exact Hsub. }
  assert (Hforeign : fold_left (flagForeign fields) (map resubmit P) emptyAcc
                     = emptyAcc).
  { rewrite flagForeign_fold. cbn [issues answersToPersist emptyAcc app].
    rewrite filter_none; [reflexivity|].
    intros a Ha. apply in_map_iff in Ha. destruct Ha as (p & <- & Hp).
    cbn [resubmit Answer.fieldId]. apply negb_false_iff.
    unfold fieldMap_has. apply existsb_exists.
    assert (Hin : In (Persist.fieldId p) (map Field.id fields)).
    { eapply Subsequence_In; [apply Subsequence_map; exact Hsub|].
      rewrite <- Hids. apply in_map. exact Hp. }
    apply in_map_iff in Hin. destruct Hin as (f & Hf & Hin).
    exists f. split; [exact Hin|]. apply String.eqb_eq. exact Hf. }
  assert (Hfold : fold_left (processField Date_parse (map resubmit P)) fields emptyAcc
                  = {| issues := []; answersToPersist := P |}).
  { rewrite (processField_fold_rerun kept fields Hsub P (map resubmit P) emptyAcc);
      try assumption; [reflexivity| | |].
    - intros p Hp. apply find_resubmit_some; assumption.
    - intros f _ Hnot. apply find_resubmit_none. exact Hnot.
    - intros f Hf Hr. destruct (Hreq f Hf Hr) as [_ (p & Hp & Hid)].
      rewrite <- Hid. apply in_map. exact Hp. }
  unfold validateAnswers, perField. rewrite Hforeign, Hfold, rescanField_fold.
  cbn [issues answersToPersist app].
  assert (Hnone : filter (notPersisted {| issues := []; answersToPersist := P |})
                    (filter Field.required fields) = []).
  { apply filter_none. intros f Hf. apply filter_In in Hf.
    destruct Hf as [Hf Hr]. destruct (Hreq f Hf Hr) as [_ (p & Hp & Hid)].
    destruct (find_persisted_some (Field.id f) P p Hp Hid) as [q Hq].
    unfold notPersisted. cbn [answersToPersist]. rewrite Hq. reflexivity. }
  rewrite Hnone. reflexivity.
Qed.

(** A normalized value has one of the shapes the request schema lets
    through. *)
Lemma normalizedFor_shape (field : Field.t) (value : Json) :
  normalizedFor Date_parse field value = true -> answerValueShape value = true.
Proof.
  unfold normalizedFor.
  destruct (fieldTypeOf (Field.type field)) as [[]|];
    destruct value as [|b|n|t|items|members]; try discriminate;
    try reflexivity.
  - intros H. exact H.
  - intros H. apply andb_true_iff in H. destruct H as [_ H].
    cbn [answerValueShape].
    apply forallb_forall. intros item Hitem.
    pose proof (proj1 (forallb_forall _ _) H item Hitem) as Hs.
    destruct item; try discriminate Hs. reflexivity.
Qed.

(** A persisted answer, sent in again, is an answer the request schema
    lets through, when the answers it was made from were. *)
Lemma persisted_accepted fields answers p :
  forallb answerAccepted answers = true ->
  In p (answersToPersist (validateAnswers Date_parse fields answers)) ->
  answerAccepted (resubmit p) = true.
Proof.
  intros Hacc Hp. unfold answerAccepted.
  cbn [resubmit Answer.fieldId Answer.value].
  apply andb_true_iff. split.
  - rewrite validate_persisted in Hp.
    apply processField_fold_persisted_answered in Hp.
    destruct Hp as [Hp|(f & a & _ & Hid & Hfind)].
    + rewrite flagForeign_fold in Hp. destruct Hp.
    + apply find_some in Hfind. destruct Hfind as [Ha Hfor].
      unfold answerFor in Hfor. apply String.eqb_eq in Hfor.
      pose proof (proj1 (forallb_forall _ _) Hacc a Ha) as Haa.
      unfold answerAccepted in Haa. apply andb_true_iff in Haa.
      rewrite Hid, <- Hfor. exact (proj1 Haa).
  - rewrite validate_persisted in Hp.
    destruct (processField_fold_kept answers fields
                (fold_left (flagForeign fields) answers emptyAcc))
      as (added & kept & Hadd & _ & Hall).
    rewrite Hadd, flagForeign_fold in Hp. cbn [answersToPersist emptyAcc app] in Hp.
    clear Hadd. induction Hall as [|q f added kept [_ Hq] _ IH]; [destruct Hp|].
    destruct Hp as [<-|Hp]; [|exact (IH Hp)].
    eapply normalizedFor_shape. exact Hq.
Qed.

End NormalFacts.

(** ** What the request schema accepts *)

Section SchemaFacts.

Import Submission.
Import Normal.

Variable defaultMessage : ZodCode -> option Json -> string.

(** An array of strings parses to its strings. *)
Lemma parseItems_strings path i (items : list Json) :
  forallb isJString items = true ->
  exists l,
    parseItems (z_string defaultMessage) path i items = ([], Some l)
    /\ map JString l = items.
Proof.
  revert i. induction items as [|item items IH]; intros i; cbn [forallb parseItems].
  - intros _. exists []. auto.
  - intros H. apply andb_true_iff in H. destruct H as [Hs H].
    destruct item; try discriminate Hs.
    destruct (IH (S i) H) as (l & -> & <-).
    exists (s :: l). auto.
Qed.

(** What the array of strings parses to gives the array back. *)
Lemma parseItems_strings_inv path i (items : list Json) l :
  parseItems (z_string defaultMessage) path i items = ([], Some l) ->
  map JString l = items.
Proof.
  revert i l. induction items as [|item items IH]; intros i l; cbn [parseItems].
  - intros H. inversion H. reflexivity.
  - destruct item; cbn [z_string];
      destruct (parseItems (z_string defaultMessage) path (S i) items)
        as [e [vs|]] eqn:E; cbn [app]; intros H; inversion H; subst.
    cbn [map]. f_equal. eapply IH. exact E.
Qed.

Lemma forallb_isJString_map (l : list string) :
  forallb isJString (map JString l) = true.
Proof. induction l; cbn; auto. Qed.

(** The union lets a value through exactly when it has one of the five
    shapes, and gives it back as it is. *)
Lemma valueSchema_spec path (input : option Json) v :
  valueSchema defaultMessage path input = ([], Some v)
  <-> input = Some v /\ answerValueShape v = true.
Proof.
  unfold valueSchema, z_union, firstValid, asJson, z_array, z_string, z_number,
    z_boolean, z_null.
  destruct input as [[| |n|s|items|members]|]; cbn -[parseItems].
  - split; [intros H; inversion H; auto|intros [H _]; inversion H; reflexivity].
  - split; [intros H; inversion H; auto|intros [H _]; inversion H; reflexivity].
  - destruct n; cbn.
    + split; [intros H; inversion H; auto|intros [H _]; inversion H; reflexivity].
    + split; [intros H; discriminate H|intros [H S]; inversion H; subst; discriminate S].
    + split; [intros H; discriminate H|intros [H S]; inversion H; subst; discriminate S].
  - split; [intros H; inversion H; auto|intros [H _]; inversion H; reflexivity].
  - change (parseItems
              (fun (path0 : list PathSeg) (input : option Json) =>
                 match input with
                 | Some (JString s) => ([], Some s)
                 | _ => ([defaultIssue defaultMessage path0 (invalid_type "string") input],
                         None)
                 end))
      with (parseItems (z_string defaultMessage)).
    destruct (parseItems (z_string defaultMessage) path 0 items)
      as [e out] eqn:E'.
    destruct e as [|e0 e]; [destruct out as [l|]|]; cbn.
    + pose proof (parseItems_strings_inv _ _ _ _ E') as Hl. rewrite Hl.
      split; [intros H; inversion H; subst|intros [H _]; inversion H; reflexivity].
      split; [reflexivity|]. cbn. apply forallb_isJString_map.
    + split; [intros H; discriminate H|].
      intros [H S]. inversion H; subst. cbn in S.
      destruct (parseItems_strings path 0 items S) as (l & Hp & _).
      rewrite Hp in E'. discriminate E'.
    + split; [intros H; discriminate H|].
      intros [H S]. inversion H; subst. cbn in S.
      destruct (parseItems_strings path 0 items S) as (l & Hp & _).
      rewrite Hp in E'. discriminate E'.
  - split; [intros H; discriminate H|intros [H S]; inversion H; subst; discriminate S].
  - split; [intros H; discriminate H|intros [H _]; discriminate H].
Qed.

Lemma answerSchema_value path members :
  answerSchema defaultMessage path (Some (JObject members))
  = (let (errs1, fieldId) :=
       z_string_min1 defaultMessage "Field ID is required" (path ++ [Key "fieldId"])
         (member "fieldId" members) in
     let (errs2, value) :=
       valueSchema defaultMessage (path ++ [Key "value"])
         (member "value" members) in
     (errs1 ++ errs2,
      match fieldId, value with
      | Some f, Some v => Some {| Answer.fieldId := f; Answer.value := v |}
      | _, _ => None
      end)).
Proof. reflexivity. Qed.

(** [answerSchema] lets an item through exactly when it is an object whose
    [fieldId] is a non-empty string and whose [value] has one of the five
    shapes; the answer it gives holds the two as they are. *)
Lemma answerSchema_spec path (input : option Json) (a : Answer.t) :
  answerSchema defaultMessage path input = ([], Some a)
  <-> (exists item, input = Some item /\ readsAs item a)
      /\ answerAccepted a = true.
Proof.
  destruct input as [[| | | | |members]|];
    try (unfold answerSchema;
         split; [intros H; discriminate H
                |intros [(item & H & m & Hm & _) _]; congruence]; fail).
  - rewrite answerSchema_value. unfold z_string_min1.
    destruct (valueSchema defaultMessage (path ++ [Key "value"])
                (member "value" members)) as [e2 o2] eqn:Ev.
    destruct (member "fieldId" members) as [[|b|n|f|items|m]|] eqn:Ef;
      try (split; [intros H; discriminate H
                  |intros [(item & H & m' & Hm & Hf & _) _];
                   assert (m' = members) by congruence; subst m';
                   rewrite Ef in Hf; discriminate Hf]; fail).
    unfold answerAccepted, isEmpty.
    destruct (String.length f) as [|n] eqn:Hlen; cbn [Nat.ltb Nat.leb Nat.eqb app].
    + split; [intros H; discriminate H|].
      intros [(item & H & m' & Hm & Hf & _) Ha].
      assert (m' = members) by congruence; subst m'.
      rewrite Ef in Hf. inversion Hf; subst.
      rewrite Hlen in Ha. discriminate Ha.
    + split.
      * intros H. destruct e2; [|discriminate H]. destruct o2 as [v|];
          [|discriminate H]. inversion H; subst. clear H.
        apply valueSchema_spec in Ev. destruct Ev as [Ev Hs].
        cbn [Answer.fieldId Answer.value]. rewrite Hlen. cbn [Nat.eqb negb andb].
        split; [|exact Hs].
        exists (JObject members). split; [reflexivity|].
        exists members. cbn [Answer.fieldId Answer.value]. auto.
      * intros [(item & H & m' & Hm & Hf & Hv) Ha].
        assert (m' = members) by congruence; subst m'.
        rewrite Ef in Hf. inversion Hf; subst.
        apply andb_true_iff in Ha. destruct Ha as [_ Hs].
        assert (Ev' : valueSchema defaultMessage (path ++ [Key "value"])
                        (member "value" members) = ([], Some (Answer.value a))).
        { apply valueSchema_spec. auto. }
        rewrite Ev' in Ev. inversion Ev; subst. destruct a. reflexivity.
Qed.

Lemma readsAs_encode a : readsAs (encodeAnswer a) a.
Proof. eexists. split; [reflexivity|]. split; reflexivity. Qed.

(** The items of [answers] parse to answers that read as the items, one by
    one, each accepted; and accepted answers parse from their encoding. *)
Lemma parseItems_answers_inv path i items answers :
  parseItems (answerSchema defaultMessage) path i items = ([], Some answers) ->
  Forall2 readsAs items answers /\ forallb answerAccepted answers = true.
Proof.
  revert i answers. induction items as [|item items IH]; intros i answers;
    cbn [parseItems].
  - intros H. inversion H. split; [constructor|reflexivity].
  - destruct (answerSchema defaultMessage (path ++ [Index i]) (Some item))
      as [e1 o1] eqn:E1.
    destruct (parseItems (answerSchema defaultMessage) path (S i) items)
      as [e2 o2] eqn:E2.
    intros H. destruct e1; [|discriminate H]. destruct e2; [|discriminate H].
    destruct o1 as [a|]; [|discriminate H]. destruct o2 as [l|]; [|discriminate H].
    inversion H; subst. clear H.
    apply answerSchema_spec in E1. destruct E1 as [(it & Hit & Hr) Ha].
    inversion Hit; subst.
    destruct (IH (S i) l E2) as [Hall Hacc].
    split; [constructor; assumption|]. cbn [forallb]. rewrite Ha, Hacc.
    reflexivity.
Qed.

Lemma parseItems_answers_encode path i answers :
  forallb answerAccepted answers = true ->
  parseItems (answerSchema defaultMessage) path i (map encodeAnswer answers)
  = ([], Some answers).
Proof.
  revert i. induction answers as [|a answers IH]; intros i; cbn [map parseItems forallb].
  - reflexivity.
  - intros H. apply andb_true_iff in H. destruct H as [Ha H].
    assert (E : answerSchema defaultMessage (path ++ [Index i])
                  (Some (encodeAnswer a)) = ([], Some a)).
    { apply answerSchema_spec. split; [|exact Ha].
      exists (encodeAnswer a). split; [reflexivity|apply readsAs_encode]. }
    rewrite E, (IH (S i) H). reflexivity.
Qed.

(** A body that carries the encoding of accepted answers, and none of the
    optional keys, parses to these answers. *)
Lemma safeParse_encoded
  (members : list (string * Json)) (answers : list Answer.t) :
  answers <> [] ->
  forallb answerAccepted answers = true ->
  member "answers" members = Some (JArray (map encodeAnswer answers)) ->
  member "completionMs" members = None ->
  member "meta" members = None ->
  member "honey" members = None ->
  safeParse defaultMessage (JObject members) = ParseSuccess (payloadOf answers).
Proof.
  intros Hne Hacc Ha Hc Hm Hh.
  unfold safeParse, createResponseSchema. rewrite Ha, Hc, Hm, Hh.
  cbn [z_optional app]. unfold z_array.
  rewrite parseItems_answers_encode by exact Hacc.
  destruct answers as [|a answers]; [contradiction Hne; reflexivity|].
  reflexivity.
Qed.

(** X19. A well-formed body passes the request schema and comes out as it
    went in: for a non-empty list of answers, each with a non-empty field
    id and a value of one of the five shapes, the body that carries their
    encoding under [answers], and none of the keys [completionMs], [meta]
    and [honey], parses to the payload with exactly these answers; other
    keys of the body are ignored. *)
Theorem request_schema_accepts_encoded_answers
  (members : list (string * Json)) (answers : list Answer.t) :
  answers <> [] ->
  forallb answerAccepted answers = true ->
  member "answers" members = Some (JArray (map encodeAnswer answers)) ->
  member "completionMs" members = None ->
  member "meta" members = None ->
  member "honey" members = None ->
  safeParse defaultMessage (JObject members) = ParseSuccess (payloadOf answers).
Proof. exact (safeParse_encoded members answers). Qed.

Lemma completionMs_checked path input c :
  z_optional (z_completionMs defaultMessage) path input = ([], Some c) ->
  completionMsAccepted c = true.
Proof.
  unfold z_optional.
  destruct input as [j|]; [|intros H; inversion H; reflexivity].
  unfold z_completionMs, z_number.
  destruct j as [|b|n|s|items|m]; try discriminate.
  destruct n as [q|neg|]; try discriminate.
  set (n := Js.Finite q).
  destruct (Js.Number_isInteger n) eqn:E1; [|discriminate].
  destruct (Js.ltb (Js.Finite 0%Q) n) eqn:E2,
    (Js.leb n (Js.ofZ (1000 * 60 * 30))) eqn:E3;
    destruct (Js.leb (Js.ofZ (- maxSafeInteger)) n
              && Js.leb n (Js.ofZ maxSafeInteger));
    cbn [app option_map]; intros H; inversion H; subst.
  unfold completionMsAccepted. fold n. rewrite E1, E2, E3. reflexivity.
Qed.

(** What the request schema lets through: the items of [answers] read as
    the answers, every answer is an accepted one, and [completionMs] is in
    its range. *)
Lemma safeParse_well_formed
  (json : Json) (payload : Payload.t) :
  safeParse defaultMessage json = ParseSuccess payload ->
  (exists members items,
      json = JObject members
      /\ member "answers" members = Some (JArray items)
      /\ Forall2 readsAs items (Payload.answers payload))
  /\ forallb answerAccepted (Payload.answers payload) = true
  /\ completionMsAccepted (Payload.completionMs payload) = true.
Proof.
  unfold safeParse, createResponseSchema.
  destruct json as [| | | | |members]; cbn [app]; try discriminate.
  destruct (z_optional (z_completionMs defaultMessage) [Key "completionMs"]
              (member "completionMs" members)) as [e1 o1] eqn:E1.
  destruct (z_optional (metaSchema defaultMessage) [Key "meta"]
              (member "meta" members)) as [e3 o3].
  destruct (z_optional (z_string defaultMessage) [Key "honey"]
              (member "honey" members)) as [e4 o4].
  unfold z_array.
  destruct (member "answers" members) as [[| | | |items|]|] eqn:Ea;
    try (destruct e1; discriminate).
  destruct (parseItems (answerSchema defaultMessage) [Key "answers"] 0 items)
    as [e2 o2] eqn:E2.
  destruct (e1 ++ ((if (List.length items <? 1)%nat
                    then [customIssue [Key "answers"] "At least one answer is required"]
                    else []) ++ e2) ++ e3 ++ e4) as [|i0 is0] eqn:Eall;
    [|destruct o1, o2, o3, o4; discriminate].
  apply app_eq_nil in Eall. destruct Eall as [-> Eall].
  apply app_eq_nil in Eall. destruct Eall as [Eall _].
  apply app_eq_nil in Eall. destruct Eall as [_ ->].
  destruct o1 as [c|], o2 as [a|], o3 as [m|], o4 as [h|]; try discriminate.
  intros H. inversion H; subst. clear H.
  cbn [Payload.answers Payload.completionMs].
  destruct (parseItems_answers_inv _ _ _ _ E2) as [Hall Hacc].
  split; [exists members, items; auto|].
  split; [exact Hacc|]. eapply completionMs_checked. exact E1.
Qed.

(** X20. What the request schema lets through is well-formed: the answers
    of the payload are the items of the body's [answers] array, in order,
    each with the field id and the value of its item; every field id is a
    non-empty string and every value a string, an array of strings, a
    finite number, a boolean or null; and [completionMs], when given, is a
    positive integer not above 1800000. *)
Theorem request_schema_output_is_well_formed
  (json : Json) (payload : Payload.t) :
  safeParse defaultMessage json = ParseSuccess payload ->
  (exists members items,
      json = JObject members
      /\ member "answers" members = Some (JArray items)
      /\ Forall2 readsAs items (Payload.answers payload))
  /\ forallb answerAccepted (Payload.answers payload) = true
  /\ completionMsAccepted (Payload.completionMs payload) = true.
Proof. exact (safeParse_well_formed json payload). Qed.

End SchemaFacts.

(** ** Sending an accepted submission in again *)

Section ResubmitFacts.

Import Submission.
Import Normal.

Variable defaultMessage : ZodCode -> option Json -> string.
Variable Date_parse : string -> Js.number.
Variable findFirst : string -> string -> option Form.t.

Lemma resubmitCreated_persisted (P : list Persist.t) :
  map resubmitCreated (map toCreateAnswer P) = map resubmit P.
Proof. rewrite map_map. apply map_ext. intros p. reflexivity. Qed.

(** X18. Normalization is a round trip at the route.  When the form has
    unique field ids and a request ends in the create with at least one
    answer, the request whose body carries exactly the created answers,
    as they were stored, ends in the create as well, with the same form
    id and the same answers.  When the create had no answer (every answer
    was a blank for an optional field), that body has an empty [answers]
    array and the route refuses it with [At least one answer is
    required]. *)
Theorem resubmitting_persisted_answers_is_accepted
  (session : option string) (formId : string) (body : option Json)
  (data : CreateData.t) :
  (forall userId form,
      findFirst formId userId = Some form ->
      NoDup (map Field.id (Form.fields form))) ->
  POST defaultMessage Date_parse findFirst session formId body = Created data ->
  let again :=
    Some (JObject
            [("answers",
              JArray (map encodeAnswer
                        (map resubmitCreated (CreateData.answers_create data))))]) in
  (CreateData.answers_create data <> [] ->
   POST defaultMessage Date_parse findFirst session formId again
   = Created {| CreateData.formId := CreateData.formId data;
                CreateData.completionMs := None;
                CreateData.answers_create := CreateData.answers_create data |})
  /\ (CreateData.answers_create data = [] ->
      POST defaultMessage Date_parse findFirst session formId again
      = SchemaFailed
          [{| ResponseIssue.path := "answers";
              ResponseIssue.message := "At least one answer is required" |}]).
Proof.
  intros Hunique HP. cbv zeta.
  destruct (POST_reaches_submit defaultMessage Date_parse findFirst
              session formId body (Created data) HP)
    as (userId & payload & form & -> & Hparse & Hform & Hsubmit).
  { right. exists data. reflexivity. }
  destruct (submit_outcome Date_parse form payload) as [Hbad Hgood].
  cbv zeta in Hbad, Hgood.
  destruct (issues (validateAnswers Date_parse (Form.fields form)
                      (Payload.answers payload))) as [|i0 is0] eqn:Hissues.
  2:{ rewrite Hbad in Hsubmit by discriminate. discriminate Hsubmit. }
  rewrite Hgood in Hsubmit by reflexivity. inversion Hsubmit; subst data.
  clear Hsubmit Hbad Hgood.
  cbn [CreateData.answers_create CreateData.formId].
  set (P := answersToPersist
              (validateAnswers Date_parse (Form.fields form)
                 (Payload.answers payload))) in *.
  assert (Hrun : validateAnswers Date_parse (Form.fields form)
                   (Payload.answers payload)
                 = {| issues := []; answersToPersist := P |}).
  { unfold P. rewrite <- Hissues.
    destruct (validateAnswers Date_parse (Form.fields form)
                (Payload.answers payload)). reflexivity. }
  rewrite resubmitCreated_persisted.
  split.
  - intros Hne.
    assert (HneP : map resubmit P <> []).
    { intros E. apply Hne. destruct P; [reflexivity|discriminate E]. }
    assert (Hfrom : forallb answerAccepted (Payload.answers payload) = true).
    { exact (proj1 (proj2 (safeParse_well_formed defaultMessage _ _ Hparse))). }
    assert (Hacc : forallb answerAccepted (map resubmit P) = true).
    { apply forallb_forall. intros a Ha. apply in_map_iff in Ha.
      destruct Ha as (p & <- & Hp).
      eapply persisted_accepted; [exact Hfrom|]. exact Hp. }
    unfold POST. cbn [bodyJson].
    rewrite (safeParse_encoded defaultMessage
               [("answers", JArray (map encodeAnswer (map resubmit P)))]
               (map resubmit P) HneP Hacc eq_refl eq_refl eq_refl eq_refl).
    cbn [payloadOf Payload.honey]. rewrite Hform.
    unfold submit, payloadOf. cbn [Payload.answers Payload.completionMs].
    cbv zeta.
    rewrite (resubmit_engine Date_parse (Form.fields form)
               (Payload.answers payload) P (Hunique userId form Hform) Hrun).
    reflexivity.
  - intros Hnil. destruct P; [|discriminate Hnil].
    reflexivity.
Qed.

End ResubmitFacts.

(** ** The list of responses *)

Section ResponsesFacts.

Import Submission.
Import Responses.

Lemma insertSorted_perm {A} (compare : A -> A -> Z) x l :
  Permutation (x :: l) (insertSorted compare x l).
Proof.
  induction l as [|y l IH]; cbn; [apply Permutation_refl|].
  destruct (compare x y <=? 0)%Z; [apply Permutation_refl|].
  eapply perm_trans; [apply perm_swap|]. apply perm_skip. exact IH.
Qed.

Lemma sort_perm {A} (compare : A -> A -> Z) l :
  Permutation l (sort compare l).
Proof.
  induction l as [|x l IH]; cbn; [apply Permutation_refl|].
  eapply perm_trans; [apply perm_skip; exact IH|apply insertSorted_perm].
Qed.

Section ByKey.

Context {A : Type}.
Variable key : A -> Z.

Let compare (a b : A) : Z := (key a - key b)%Z.
Let le (a b : A) : Prop := (key a <= key b)%Z.

Lemma insertSorted_sorted x l :
  StronglySorted le l -> StronglySorted le (insertSorted compare x l).
Proof.
  induction 1 as [|y l Hs IH Hy]; cbn.
  - constructor; constructor.
  - unfold compare at 1. destruct (Z.leb_spec (key x - key y) 0) as [Hle|Hgt].
    + constructor; [constructor; assumption|].
      constructor; [unfold le; lia|].
      eapply Forall_impl; [|exact Hy]. unfold le. intros z Hz. lia.
    + constructor; [exact IH|].
      apply (Permutation_Forall (insertSorted_perm compare x l)).
      constructor; [unfold le; lia|exact Hy].
Qed.

Lemma sort_sorted l : StronglySorted le (sort compare l).
Proof.
  induction l as [|x l IH]; cbn; [constructor|].
  apply insertSorted_sorted. exact IH.
Qed.

(** Inserting keeps the elements of one key in their order, the new one
    first. *)
Lemma insertSorted_stable k x l :
  StronglySorted le l ->
  filter (fun a => (key a =? k)%Z) (insertSorted compare x l)
  = filter (fun a => (key a =? k)%Z) (x :: l).
Proof.
  induction 1 as [|y l Hs IH Hy]; [reflexivity|].
  cbn [insertSorted]. unfold compare at 1.
  destruct (Z.leb_spec (key x - key y) 0) as [Hle|Hgt]; [reflexivity|].
  cbn [filter] in *. rewrite IH.
  destruct (Z.eqb_spec (key x) k) as [Hx|Hx];
    destruct (Z.eqb_spec (key y) k) as [Hy'|Hy']; try reflexivity.
  lia.
Qed.

Lemma sort_stable k l :
  filter (fun a => (key a =? k)%Z) (sort compare l)
  = filter (fun a => (key a =? k)%Z) l.
Proof.
  induction l as [|x l IH]; [reflexivity|].
  cbn [sort]. rewrite insertSorted_stable by apply sort_sorted.
  cbn [filter]. rewrite IH. reflexivity.
Qed.

End ByKey.

Variable toISOString : Z -> string.
Variable findFirst : string -> string -> option FormHead.t.
Variable findMany : string -> list StoredResponse.t.

(** X21. The route that lists the responses of a form shows, for a
    signed-in owner of the form, one entry per stored response in the
    stored order, and in each entry all answers of the response, none
    added, ordered by the sort order of their fields (0 for an answer
    whose field is not in the form); answers of equal sort order keep the
    order in which they were stored. *)
Theorem responses_list_sorts_answers_by_field_order
  (userId formId : string) (form : FormHead.t) :
  findFirst formId userId = Some form ->
  exists views,
    GET toISOString findFirst findMany (Some userId) formId = GetOk formId views
    /\ map ResponseView.id views
       = map StoredResponse.id (findMany (FormHead.id form))
    /\ Forall2
         (fun stored view =>
            exists sorted,
              ResponseView.answers view = map toAnswerView sorted
              /\ Permutation (StoredResponse.answers stored) sorted
              /\ inSortOrder (FormHead.fields form) sorted
              /\ forall k,
                   filter (fun a => (sortKey (FormHead.fields form) a =? k)%Z)
                          sorted
                   = filter (fun a => (sortKey (FormHead.fields form) a =? k)%Z)
                            (StoredResponse.answers stored))
         (findMany (FormHead.id form)) views.
Proof.
  intros Hform. unfold GET. rewrite Hform. eexists. split; [reflexivity|].
  split; [rewrite map_map; reflexivity|].
  induction (findMany (FormHead.id form)) as [|r rs IH]; cbn [map];
    constructor; [|exact IH].
  exists (sort (compareAnswers (FormHead.fields form)) (StoredResponse.answers r)).
  split; [reflexivity|]. split; [apply sort_perm|]. split.
  - apply (sort_sorted (sortKey (FormHead.fields form))).
  - intros k. apply (sort_stable (sortKey (FormHead.fields form))).
Qed.

End ResponsesFacts.

(** ** The checks of the preview *)

Section PreviewFacts.

Import Builder.
Import Preview.

Variable numberToString : Js.number -> string.

Lemma trim_blank_of_empty (s : string) :
  (String.length s =? 0)%nat = true ->
  (String.length (Js.trim s) =? 0)%nat = true.
Proof. destruct s; [reflexivity|discriminate]. Qed.

Ltac case_if :=
  match goal with
  | |- context [if ?c then _ else _] => destruct c eqn:?
  end.

(** The messages of [validateField] are not empty. *)
Lemma validateField_message_not_empty field value message :
  validateField numberToString field value = Error message ->
  (String.length message =? 0)%nat = false.
Proof.
  unfold validateField.
  destruct (FormField.type field), value as [[s|l]|];
    destruct (FormField.required field);
    destruct (FormField.min field), (FormField.max field),
      (FormField.minLength field), (FormField.maxLength field);
    cbn [andb negb];
    repeat case_if;
    try (destruct (Js.Number _));
    repeat case_if;
    intros H; inversion H; reflexivity.
Qed.

(** X22. [validateField] on blank input and its unreachable message.  For
    a field that is not a checkbox, a text that is blank after trimming
    (or no value at all) gives [This field is required.] when the field is
    required and no error otherwise, whatever the type and the constraints
    of the field; a checkbox field gives its error exactly when it is
    required and nothing is selected; the check throws exactly for an
    array given to a field that is not a checkbox; and the message
    [Select an option.] of the dropdown branch is never returned, because a
    blank value never gets that far. *)
Theorem validate_field_blank_and_dropdown
  (field : FormField.t) (value : option FieldValue) :
  (FormField.type field <> checkbox ->
   forall s,
     (value = Some (TextValue s) \/ (value = None /\ s = "")) ->
     Js.trim s = "" ->
     validateField numberToString field value
     = if FormField.required field then Error "This field is required."
       else NoError)
  /\ (FormField.type field = checkbox ->
      validateField numberToString field value
      = if FormField.required field
           && match value with Some (ListValue (_ :: _)) => false | _ => true end
        then Error "Please choose at least one option."
        else NoError)
  /\ (validateField numberToString field value = Throws
      <-> FormField.type field <> checkbox /\ exists l, value = Some (ListValue l))
  /\ validateField numberToString field value <> Error "Select an option.".
Proof.
  split; [|split; [|split]].
  - intros Htype s Hvalue Hblank. unfold validateField.
    assert (Hs : match value with Some (TextValue s0) => s0 | _ => "" end = s).
    { destruct Hvalue as [->|[-> ->]]; reflexivity. }
    assert (Hv : match value with Some (ListValue _) => false | _ => true end = true).
    { destruct Hvalue as [->|[-> _]]; reflexivity. }
    destruct (FormField.type field); try (contradiction Htype; reflexivity);
      destruct value as [[s0|l]|]; try discriminate Hv;
      cbn in Hs; subst s; rewrite Hblank;
      destruct (FormField.required field); reflexivity.
  - intros Htype. unfold validateField. rewrite Htype.
    destruct value as [[s|[|x l]]|], (FormField.required field); reflexivity.
  - unfold validateField. split.
    + intros H. destruct (FormField.type field) eqn:Htype;
        destruct value as [[s|l]|];
        try (split; [discriminate|eexists; reflexivity]);
        exfalso; revert H;
        destruct (FormField.required field);
        destruct (FormField.min field), (FormField.max field),
          (FormField.minLength field), (FormField.maxLength field);
        cbn [andb negb]; repeat case_if; try (destruct (Js.Number _));
        repeat case_if; discriminate.
    + intros [Htype [l ->]].
      destruct (FormField.type field); try reflexivity.
      contradiction Htype. reflexivity.
  - unfold validateField.
    destruct (FormField.type field) eqn:Htype;
      try (destruct value as [[s|l]|];
           destruct (FormField.required field);
           destruct (FormField.min field), (FormField.max field),
             (FormField.minLength field), (FormField.maxLength field);
           cbn [andb negb]; repeat case_if; try (destruct (Js.Number _));
           repeat case_if; discriminate).
    destruct value as [[s|l]|]; [|discriminate|].
    + destruct (String.length (Js.trim s) =? 0)%nat eqn:Hblank;
        destruct (FormField.required field); cbn [andb negb]; try discriminate;
        destruct (String.length s =? 0)%nat eqn:Hs; try discriminate;
        apply trim_blank_of_empty in Hs; congruence.
    + destruct (FormField.required field); cbn; discriminate.
Qed.

Lemma no_whitespace_trimChars (l : list ascii) :
  forallb (fun c => negb (Js.isWhiteSpace c)) l = true ->
  Js.trimChars l = l.
Proof.
  intros H. unfold Js.trimChars.
  assert (Hfix : forall m, forallb (fun c => negb (Js.isWhiteSpace c)) m = true ->
                           Js.trimStartChars m = m).
  { intros [|c m]; cbn; [reflexivity|]. intros Hm.
    apply andb_true_iff in Hm. destruct Hm as [Hc _].
    apply negb_true_iff in Hc. rewrite Hc. reflexivity. }
  rewrite (Hfix l H). rewrite Hfix; [apply rev_involutive|].
  apply forallb_forall. intros c Hc. apply in_rev in Hc.
  exact (proj1 (forallb_forall _ _) H c Hc).
Qed.

Lemma splitAtSign_parts (l loc dom : list ascii) :
  Submission.splitAtSign l = Some (loc, dom) -> l = loc ++ "@"%char :: dom.
Proof.
  revert loc. induction l as [|c l IH]; cbn; intros loc; [discriminate|].
  destruct (Ascii.eqb_spec c "@"%char) as [->|_].
  - intros H. inversion H. reflexivity.
  - destruct (Submission.splitAtSign l) as [[l0 d0]|]; [|discriminate].
    intros H. inversion H; subst. cbn. f_equal. apply IH. reflexivity.
Qed.

(** What the address pattern accepts has no white space, so trimming
    leaves it as it is. *)
Lemma email_accepted_is_trimmed (s : string) :
  Submission.emailRegex_test s = true -> Js.trim s = s.
Proof.
  unfold Submission.emailRegex_test.
  destruct (Submission.splitAtSign (list_ascii_of_string s)) as [[loc dom]|] eqn:E;
    [|discriminate].
  intros H. apply andb_true_iff in H. destruct H as [H _].
  apply andb_true_iff in H. destruct H as [H Hdom].
  apply andb_true_iff in H. destruct H as [_ Hloc].
  apply splitAtSign_parts in E.
  unfold Js.trim. rewrite no_whitespace_trimChars.
  - apply string_of_list_ascii_of_string.
  - rewrite E. rewrite forallb_app. cbn [forallb].
    assert (Hcls : forall m, forallb Submission.inClass m = true ->
                             forallb (fun c => negb (Js.isWhiteSpace c)) m = true).
    { intros m Hm. apply forallb_forall. intros c Hc.
      pose proof (proj1 (forallb_forall _ _) Hm c Hc) as Hin.
      unfold Submission.inClass in Hin. apply negb_true_iff in Hin.
      apply orb_false_iff in Hin. apply negb_true_iff. tauto. }
    rewrite (Hcls loc Hloc), (Hcls dom Hdom). reflexivity.
Qed.

(** X23. What the preview accepts for a text or an email field, the server
    accepts too: when [validateField] finds no error in a text for a field
    of type short text, long text or email, the per-field step of the
    route, for the stored field with the same id, type and required flag
    and an answer with that text, records no issue; it persists the trimmed
    text, or nothing when the field is not required and the text is
    blank. *)
Theorem preview_accepted_text_is_accepted_by_route
  (Date_parse : string -> Js.number)
  (field : FormField.t) (row : Submission.Field.t) (s : string)
  (answers : list Submission.Answer.t) (acc : Submission.Acc)
  (a : Submission.Answer.t) :
  publishedAs field row ->
  (FormField.type field = short_text \/ FormField.type field = long_text
   \/ FormField.type field = email) ->
  validateField numberToString field (Some (TextValue s)) = NoError ->
  find (Submission.answerFor (Submission.Field.id row)) answers = Some a ->
  Submission.Answer.value a = Submission.JString s ->
  (Js.trim s <> "" /\
   Submission.processField Date_parse answers acc row
   = Submission.pushAnswer (Submission.Field.id row)
       (Submission.JString (Js.trim s)) acc)
  \/ (Js.trim s = "" /\ FormField.required field = false /\
      Submission.processField Date_parse answers acc row = acc).
Proof.
  intros (Hid & Htype & Hreq) Hkind Hok Hfind Hvalue.
  unfold Submission.processField. rewrite Hfind, Htype, Hvalue, Hreq.
  unfold validateField in Hok.
  assert (Hempty : forall t : string,
             Submission.isEmpty t = (String.length t =? 0)%nat)
    by reflexivity.
  destruct Hkind as [Hk|[Hk|Hk]]; rewrite Hk in Hok |- *;
    cbn [typeTag Submission.fieldTypeOf String.eqb Ascii.eqb Bool.eqb
         Submission.ensureString];
    change (Submission.fieldTypeOf "short_text") with (Some short_text);
    change (Submission.fieldTypeOf "long_text") with (Some long_text);
    change (Submission.fieldTypeOf "email") with (Some email);
    cbv beta iota zeta; rewrite Hempty;
    destruct (String.length (Js.trim s) =? 0)%nat eqn:Hblank;
    destruct (FormField.required field); cbn [andb negb] in Hok |- *;
    try discriminate Hok.
  - right. split; [|auto].
    destruct (Js.trim s); [reflexivity|discriminate Hblank].
  - left. split; [|reflexivity]. intros E. rewrite E in Hblank. discriminate.
  - left. split; [|reflexivity]. intros E. rewrite E in Hblank. discriminate.
  - right. split; [|auto].
    destruct (Js.trim s); [reflexivity|discriminate Hblank].
  - left. split; [|reflexivity]. intros E. rewrite E in Hblank. discriminate.
  - left. split; [|reflexivity]. intros E. rewrite E in Hblank. discriminate.
  - right. split; [|auto].
    destruct (Js.trim s); [reflexivity|discriminate Hblank].
  - destruct (Submission.emailRegex_test s) eqn:R; [|discriminate Hok].
    rewrite (email_accepted_is_trimmed s R), R. cbn [negb andb].
    left. split; [|reflexivity].
    intros E. rewrite (email_accepted_is_trimmed s R) in Hblank.
    rewrite E in Hblank. discriminate.
  - destruct (Submission.emailRegex_test s) eqn:R; [|discriminate Hok].
    rewrite (email_accepted_is_trimmed s R), R. cbn [negb andb].
    left. split; [|reflexivity].
    intros E. rewrite (email_accepted_is_trimmed s R) in Hblank.
    rewrite E in Hblank. discriminate.
Qed.

Lemma assocGet_set_same {A} (key : string) (v : A) m :
  assocGet key (assocSet key v m) = Some v.
Proof.
  induction m as [|[k w] m IH]; cbn.
  - rewrite String.eqb_refl. reflexivity.
  - destruct (String.eqb k key) eqn:E; cbn.
    + rewrite String.eqb_refl. reflexivity.
    + rewrite E. exact IH.
Qed.

Lemma assocGet_set_other {A} (key key' : string) (v : A) m :
  key' <> key -> assocGet key' (assocSet key v m) = assocGet key' m.
Proof.
  intros Hne. induction m as [|[k w] m IH]; cbn.
  - destruct (String.eqb_spec key key'); [congruence|reflexivity].
  - destruct (String.eqb_spec k key) as [->|Hk]; cbn.
    + destruct (String.eqb_spec key key'); [congruence|reflexivity].
    + destruct (String.eqb k key'); [reflexivity|exact IH].
Qed.

Lemma assocGet_delete_same {A} (key : string) (m : list (string * A)) :
  assocGet key (assocDelete key m) = None.
Proof.
  unfold assocDelete. induction m as [|[k w] m IH]; cbn; [reflexivity|].
  destruct (String.eqb k key) eqn:E; cbn; [exact IH|].
  rewrite E. exact IH.
Qed.

Lemma assocGet_delete_other {A} (key key' : string) (m : list (string * A)) :
  key' <> key -> assocGet key' (assocDelete key m) = assocGet key' m.
Proof.
  intros Hne. unfold assocDelete.
  induction m as [|[k w] m IH]; cbn; [reflexivity|].
  destruct (String.eqb_spec k key) as [->|Hk]; cbn.
  - destruct (String.eqb_spec key key'); [congruence|exact IH].
  - destruct (String.eqb k key'); [reflexivity|exact IH].
Qed.

Lemma assoc_empty_iff {A} (m : list (string * A)) :
  m = [] <-> forall key, assocGet key m = None.
Proof.
  split.
  - intros -> key. reflexivity.
  - destruct m as [|[k w] m]; [reflexivity|].
    intros H. specialize (H k). cbn in H. rewrite String.eqb_refl in H.
    discriminate.
Qed.

Lemma validateFields_throws fields values acc :
  validateFields numberToString fields values acc = None
  <-> exists field, In field fields
        /\ validateField numberToString field
             (assocGet (FormField.id field) values) = Throws.
Proof.
  revert acc. induction fields as [|f fields IH]; intros acc; cbn.
  - split; [discriminate|]. intros (field & [] & _).
  - destruct (validateField numberToString f (assocGet (FormField.id f) values))
      eqn:E.
    + rewrite IH. split.
      * intros (field & Hin & Hf). exists field. auto.
      * intros (field & [<-|Hin] & Hf); [congruence|]. exists field. auto.
    + rewrite IH. split.
      * intros (field & Hin & Hf). exists field. auto.
      * intros (field & [<-|Hin] & Hf); [congruence|]. exists field. auto.
    + split; [|reflexivity]. intros _. exists f. auto.
Qed.

Lemma validateFields_keys fields values acc errs :
  validateFields numberToString fields values acc = Some errs ->
  forall id,
    assocGet id errs <> None
    <-> (assocGet id acc <> None
         \/ exists field message,
              In field fields /\ FormField.id field = id
              /\ validateField numberToString field (assocGet id values)
                 = Error message).
Proof.
  revert acc. induction fields as [|f fields IH]; intros acc; cbn.
  - intros H id. inversion H; subst. split; [auto|].
    intros [H0|(field & message & [] & _)]. exact H0.
  - destruct (validateField numberToString f (assocGet (FormField.id f) values))
      eqn:E; [| |discriminate].
    + intros H id. rewrite (IH _ H id). split.
      * intros [H0|(field & message & Hin & Hid & Hf)]; [auto|].
        right. exists field, message. auto.
      * intros [H0|(field & message & [<-|Hin] & Hid & Hf)]; [auto| |].
        -- subst id. congruence.
        -- right. exists field, message. auto.
    + rewrite (validateField_message_not_empty _ _ _ E).
      intros H id. rewrite (IH _ H id). split.
      * intros [H0|(field & m & Hin & Hid & Hf)].
        -- destruct (string_dec id (FormField.id f)) as [->|Hne].
           ++ right. exists f, message. auto.
           ++ rewrite assocGet_set_other in H0 by exact Hne. auto.
        -- right. exists field, m. auto.
      * intros [H0|(field & m & [<-|Hin] & Hid & Hf)].
        -- left. destruct (string_dec id (FormField.id f)) as [->|Hne].
           ++ rewrite assocGet_set_same. discriminate.
           ++ rewrite assocGet_set_other by exact Hne. exact H0.
        -- left. subst id. rewrite assocGet_set_same. discriminate.
        -- right. exists field, m. auto.
Qed.

Lemma handle_outcome
  (fields : list FormField.t) (values : list (string * FieldValue)) :
  (handleSubmit numberToString fields values = Some true
   <-> forall field, In field fields ->
         validateField numberToString field
           (assocGet (FormField.id field) values) = NoError)
  /\ (handleSubmit numberToString fields values = None
      <-> exists field, In field fields
            /\ validateField numberToString field
                 (assocGet (FormField.id field) values) = Throws)
  /\ (forall errs,
        validate numberToString fields values = Some errs ->
        forall id,
          assocGet id errs <> None
          <-> exists field message,
                In field fields /\ FormField.id field = id
                /\ validateField numberToString field (assocGet id values)
                   = Error message).
Proof.
  assert (Hkeys : forall errs,
             validate numberToString fields values = Some errs ->
             forall id,
               assocGet id errs <> None
               <-> exists field message,
                     In field fields /\ FormField.id field = id
                     /\ validateField numberToString field (assocGet id values)
                        = Error message).
  { intros errs H id. unfold validate in H.
    rewrite (validateFields_keys _ _ _ _ H id). cbn [assocGet].
    split; [intros [H0|H0]; [congruence|exact H0]|auto]. }
  split; [|split; [|exact Hkeys]].
  - unfold handleSubmit.
    destruct (validate numberToString fields values) as [errs|] eqn:E.
    + split.
      * intros H field Hin.
        assert (errs = []).
        { destruct errs; [reflexivity|]. cbn in H. discriminate. }
        subst errs.
        destruct (validateField numberToString field
                    (assocGet (FormField.id field) values)) eqn:Hf;
          [reflexivity| |].
        -- exfalso. apply (proj2 (Hkeys _ eq_refl (FormField.id field)));
             [|reflexivity]. exists field, message. auto.
        -- exfalso. unfold validate in E.
           assert (validateFields numberToString fields values [] = None)
             by (apply validateFields_throws; exists field; auto).
           congruence.
      * intros H. assert (errs = []); [|subst; reflexivity].
        apply assoc_empty_iff. intros key.
        destruct (assocGet key errs) eqn:G; [|reflexivity]. exfalso.
        assert (Hk : assocGet key errs <> None) by congruence.
        apply (Hkeys _ eq_refl) in Hk.
        destruct Hk as (field & message & Hin & Hid & Hf).
        subst key. rewrite (H field Hin) in Hf. discriminate.
    + split; [discriminate|]. intros H. exfalso.
      unfold validate in E. apply validateFields_throws in E.
      destruct E as (field & Hin & Hf). rewrite (H field Hin) in Hf.
      discriminate.
  - unfold handleSubmit, validate.
    rewrite <- validateFields_throws with (acc := []).
    destruct (validateFields numberToString fields values []);
      split; congruence.
Qed.

(** X24. The outcome of submitting the preview.  [handleSubmit] sets the
    state to success exactly when the check of every field of the form, on
    the value stored under the id of the field, finds no error; it throws
    exactly when the check of some field throws; and the errors that
    [validate] leaves are keyed by exactly the ids of the fields whose check
    gives a message. *)
Theorem handle_submit_succeeds_iff_every_field_passes
  (fields : list FormField.t) (values : list (string * FieldValue)) :
  (handleSubmit numberToString fields values = Some true
   <-> forall field, In field fields ->
         validateField numberToString field
           (assocGet (FormField.id field) values) = NoError)
  /\ (handleSubmit numberToString fields values = None
      <-> exists field, In field fields
            /\ validateField numberToString field
                 (assocGet (FormField.id field) values) = Throws)
  /\ (forall errs,
        validate numberToString fields values = Some errs ->
        forall id,
          assocGet id errs <> None
          <-> exists field message,
                In field fields /\ FormField.id field = id
                /\ validateField numberToString field (assocGet id values)
                   = Error message).
Proof. exact (handle_outcome fields values). Qed.

Lemma createInitialValues_fold fields acc (field : FormField.t) :
  NoDup (map FormField.id fields) ->
  In field fields ->
  assocGet (FormField.id field)
    (fold_left
       (fun values f =>
          assocSet (FormField.id f)
            (match FormField.type f with
             | checkbox => ListValue []
             | _ => TextValue ""
             end) values)
       fields acc)
  = Some (match FormField.type field with
          | checkbox => ListValue []
          | _ => TextValue ""
          end).
Proof.
  revert acc. induction fields as [|f fields IH]; intros acc Hnd Hin;
    [destruct Hin|].
  cbn [map] in Hnd. inversion Hnd as [|? ? Hnotin Hnd']; subst.
  cbn [fold_left]. destruct Hin as [<-|Hin].
  - clear IH Hnd Hnd'. 
    assert (Hkeep : forall l acc0 v,
               ~ In (FormField.id f) (map FormField.id l) ->
               assocGet (FormField.id f) acc0 = Some v ->
               assocGet (FormField.id f)
                 (fold_left
                    (fun values f0 =>
                       assocSet (FormField.id f0)
                         (match FormField.type f0 with
                          | checkbox => ListValue []
                          | _ => TextValue ""
                          end) values) l acc0) = Some v).
    { induction l as [|g l IHl]; intros acc0 v Hn Hg; [exact Hg|].
      cbn [fold_left]. apply IHl.
      - intros Hc. apply Hn. right. exact Hc.
      - rewrite assocGet_set_other; [exact Hg|].
        intros Hc. apply Hn. left. symmetry. exact Hc. }
    apply Hkeep; [exact Hnotin|apply assocGet_set_same].
  - apply IH; assumption.
Qed.

(** X25. Submitting an untouched preview.  In a form whose field ids are
    distinct, the values that [createInitialValues] sets up never make the
    check throw, and [handleSubmit] on them succeeds exactly when no field
    of the form is required. *)
Theorem untouched_form_submits_iff_nothing_required
  (fields : list FormField.t) :
  NoDup (map FormField.id fields) ->
  handleSubmit numberToString fields (createInitialValues fields)
  = Some (forallb (fun field => negb (FormField.required field)) fields).
Proof.
  intros Hnd.
  assert (Heach : forall field, In field fields ->
             validateField numberToString field
               (assocGet (FormField.id field) (createInitialValues fields))
             = if FormField.required field
               then Error (match FormField.type field with
                           | checkbox => "Please choose at least one option."
                           | _ => "This field is required."
                           end)
               else NoError).
  { intros field Hin. unfold createInitialValues.
    rewrite (createInitialValues_fold fields [] field Hnd Hin).
    unfold validateField.
    destruct (FormField.type field), (FormField.required field); reflexivity. }
  pose proof (handle_outcome fields (createInitialValues fields)) as (Hok & Hthrow & _).
  destruct (handleSubmit numberToString fields (createInitialValues fields))
    as [[|]|] eqn:E.
  - f_equal. symmetry. apply forallb_forall. intros field Hin.
    pose proof (proj1 Hok eq_refl field Hin) as Hf.
    rewrite (Heach field Hin) in Hf.
    destruct (FormField.required field); [discriminate|reflexivity].
  - f_equal. symmetry. apply not_true_is_false. intros Hall.
    assert (Some false = Some true); [|discriminate].
    apply Hok. intros field Hin. rewrite (Heach field Hin).
    pose proof (proj1 (forallb_forall _ _) Hall field Hin) as Hr.
    cbv beta in Hr. apply negb_true_iff in Hr. rewrite Hr. reflexivity.
  - exfalso. destruct (proj1 Hthrow eq_refl) as (field & Hin & Hf).
    rewrite (Heach field Hin) in Hf.
    destruct (FormField.required field); discriminate.
Qed.

(** X26. Editing one field of the preview touches that field only.
    [handleChange] stores the new value under the id and leaves the value
    of every other id as it was; it leaves no message under the id, and the
    error of every other id as it was. *)
Theorem handle_change_touches_one_field
  (id : string) (newValue : FieldValue)
  (values : list (string * FieldValue)) (errors : list (string * string)) :
  assocGet id (fst (handleChange id newValue values errors)) = Some newValue
  /\ (assocGet id (snd (handleChange id newValue values errors)) = None
      \/ assocGet id (snd (handleChange id newValue values errors)) = Some "")
  /\ (forall other, other <> id ->
        assocGet other (fst (handleChange id newValue values errors))
        = assocGet other values
        /\ assocGet other (snd (handleChange id newValue values errors))
           = assocGet other errors).
Proof.
  unfold handleChange. cbn [fst snd]. split; [|split].
  - apply assocGet_set_same.
  - destruct (assocGet id errors) as [message|] eqn:E; [|left; exact E].
    destruct message as [|c message]; cbn [String.length Nat.eqb].
    + right. exact E.
    + left. apply assocGet_delete_same.
  - intros other Hne. split; [apply assocGet_set_other; exact Hne|].
    destruct (assocGet id errors) as [message|]; [|reflexivity].
    destruct (String.length message =? 0)%nat; [reflexivity|].
    apply assocGet_delete_other. exact Hne.
Qed.

End PreviewFacts.

(** ** The flashlights of the theme provider *)

Section FlashlightFacts.

Import Preview Flashlights.

Lemma assocSet_keys {A} (key : string) (v : A) m :
  map fst (assocSet key v m)
  = if in_dec string_dec key (map fst m) then map fst m
    else map fst m ++ [key].
Proof.
  induction m as [|[k w] m IH]; cbn [assocSet map fst].
  - destruct (in_dec string_dec key []) as [[]|_]. reflexivity.
  - destruct (String.eqb_spec k key) as [->|Hk].
    + cbn [map fst]. destruct (in_dec string_dec key (key :: map fst m)) as [_|n];
        [reflexivity|]. contradiction n. left. reflexivity.
    + cbn [map fst]. rewrite IH.
      destruct (in_dec string_dec key (map fst m)) as [i|n];
        destruct (in_dec string_dec key (k :: map fst m)) as [i'|n'];
        try reflexivity.
      * contradiction n'. right. exact i.
      * destruct i' as [E|i']; [congruence|contradiction].
Qed.

Lemma firstOccurrences_snoc (ids : list string) (key : string) :
  firstOccurrences (ids ++ [key])
  = if in_dec string_dec key (firstOccurrences ids) then firstOccurrences ids
    else firstOccurrences ids ++ [key].
Proof.
  unfold firstOccurrences. rewrite rev_app_distr. cbn [rev app nodup].
  destruct (in_dec string_dec key (rev ids)) as [i|n];
    destruct (in_dec string_dec key (rev (nodup string_dec (rev ids)))) as [i'|n'];
    try reflexivity.
  - contradiction n'. apply -> in_rev. apply nodup_In. exact i.
  - contradiction n. apply in_rev in i'. apply nodup_In in i'. exact i'.
Qed.

Lemma firstOccurrences_NoDup ids : NoDup (firstOccurrences ids).
Proof.
  unfold firstOccurrences. apply NoDup_rev. apply NoDup_nodup.
Qed.

Lemma firstOccurrences_In ids key : In key (firstOccurrences ids) <-> In key ids.
Proof.
  unfold firstOccurrences. rewrite <- in_rev, nodup_In, <- in_rev. reflexivity.
Qed.

Lemma fold_setFlash_keys (l pre : list FlashlightColor.t) :
  map fst (fold_left setFlash l (fold_left setFlash pre []))
  = firstOccurrences (map FlashlightColor.id (pre ++ l)).
Proof.
  induction l as [|f l IH] using rev_ind.
  - rewrite app_nil_r. cbn [fold_left].
    induction pre as [|f pre IH] using rev_ind; [reflexivity|].
    rewrite fold_left_app, map_app. cbn [fold_left map].
    rewrite firstOccurrences_snoc. unfold setFlash at 1.
    rewrite assocSet_keys, IH. reflexivity.
  - rewrite fold_left_app, app_assoc, map_app. cbn [fold_left map].
    rewrite firstOccurrences_snoc. unfold setFlash at 1.
    rewrite assocSet_keys, IH. reflexivity.
Qed.

Lemma assocSet_keyed m flash : keyed m -> keyed (setFlash m flash).
Proof.
  unfold keyed, setFlash. induction 1 as [|[k w] m Hk Hm IH]; cbn [assocSet].
  - constructor; [reflexivity|constructor].
  - destruct (String.eqb k (FlashlightColor.id flash)).
    + constructor; [reflexivity|exact Hm].
    + constructor; [exact Hk|exact IH].
Qed.

Lemma fold_setFlash_keyed l m : keyed m -> keyed (fold_left setFlash l m).
Proof.
  revert m. induction l as [|f l IH]; intros m Hm; [exact Hm|].
  cbn [fold_left]. apply IH. apply assocSet_keyed. exact Hm.
Qed.

Lemma keyed_ids m : keyed m -> map FlashlightColor.id (map snd m) = map fst m.
Proof.
  induction 1 as [|[k w] m Hk Hm IH]; [reflexivity|].
  cbn [map snd fst] in *. rewrite IH. cbn in Hk. congruence.
Qed.

Lemma keyed_find m id :
  keyed m ->
  find (fun flash => String.eqb (FlashlightColor.id flash) id) (map snd m)
  = assocGet id m.
Proof.
  induction 1 as [|[k w] m Hk Hm IH]; [reflexivity|].
  cbn [map snd find assocGet]. cbn in Hk. rewrite <- Hk, IH. reflexivity.
Qed.

Lemma fold_setFlash_get l m id :
  assocGet id (fold_left setFlash l m)
  = match lastWith id l with
    | Some flash => Some flash
    | None => assocGet id m
    end.
Proof.
  unfold lastWith. revert m. induction l as [|f l IH] using rev_ind; intros m.
  - reflexivity.
  - rewrite fold_left_app, rev_app_distr. cbn [fold_left rev app find].
    unfold setFlash at 1.
    destruct (String.eqb_spec (FlashlightColor.id f) id) as [<-|Hne].
    + apply assocGet_set_same.
    + rewrite assocGet_set_other by congruence. apply IH.
Qed.

Lemma assocGet_absent {A} (m : list (string * A)) key :
  ~ In key (map fst m) -> assocGet key m = None.
Proof.
  induction m as [|[k w] m IH]; [reflexivity|]. cbn [map fst assocGet].
  intros Hn. destruct (String.eqb_spec k key) as [->|_].
  - contradiction Hn. left. reflexivity.
  - apply IH. intros Hc. apply Hn. right. exact Hc.
Qed.

Lemma assoc_ext {A} (m1 m2 : list (string * A)) :
  NoDup (map fst m1) ->
  map fst m1 = map fst m2 ->
  (forall key, assocGet key m1 = assocGet key m2) ->
  m1 = m2.
Proof.
  revert m2. induction m1 as [|[k v] m1 IH]; intros [|[k' v'] m2] Hnd Hkeys Hget;
    try discriminate Hkeys; [reflexivity|].
  cbn [map fst] in Hkeys, Hnd. injection Hkeys as -> Hkeys.
  inversion Hnd as [|? ? Hnotin Hnd']; subst.
  pose proof (Hget k') as Hk. cbn [assocGet] in Hk.
  rewrite String.eqb_refl in Hk. injection Hk as ->.
  f_equal. apply IH; [exact Hnd'|exact Hkeys|].
  intros key. destruct (string_dec k' key) as [<-|Hne].
  - rewrite (assocGet_absent m1 k' Hnotin).
    rewrite (assocGet_absent m2 k'); [reflexivity|]. rewrite <- Hkeys. exact Hnotin.
  - specialize (Hget key). cbn [assocGet] in Hget.
    destruct (String.eqb_spec k' key); [contradiction|exact Hget].
Qed.

Lemma fold_setFlash_rebuild (m acc : list (string * FlashlightColor.t)) :
  keyed m ->
  NoDup (map fst (acc ++ m)) ->
  fold_left setFlash (map snd m) acc = acc ++ m.
Proof.
  revert acc. induction m as [|[k w] m IH]; intros acc Hk Hnd.
  - rewrite app_nil_r. reflexivity.
  - inversion Hk as [|? ? Hkw Hm]; subst. cbn [fst snd] in Hkw. subst k.
    cbn [map snd fold_left].
    assert (Hset : setFlash acc w = acc ++ [(FlashlightColor.id w, w)]).
    { unfold setFlash. rewrite map_app in Hnd. apply NoDup_remove_2 in Hnd.
      clear - Hnd. induction acc as [|[k v] acc IHa]; [reflexivity|].
      cbn [assocSet app]. destruct (String.eqb_spec k (FlashlightColor.id w)) as [->|_].
      - contradiction Hnd. left. reflexivity.
      - f_equal. apply IHa. intros Hc. apply Hnd. cbn [map app fst].
        right. exact Hc. }
    rewrite Hset, IH; [rewrite <- app_assoc; reflexivity|exact Hm|].
    rewrite <- app_assoc. exact Hnd.
Qed.

Lemma fold_setFlash_known_keys l (m : list (string * FlashlightColor.t)) :
  (forall flash, In flash l -> In (FlashlightColor.id flash) (map fst m)) ->
  map fst (fold_left setFlash l m) = map fst m.
Proof.
  revert m. induction l as [|f l IH]; intros m H; [reflexivity|].
  cbn [fold_left].
  assert (Hf : map fst (setFlash m f) = map fst m).
  { unfold setFlash. rewrite assocSet_keys.
    destruct (in_dec string_dec (FlashlightColor.id f) (map fst m)) as [_|n];
      [reflexivity|]. contradiction n. apply H. left. reflexivity. }
  rewrite IH; [exact Hf|]. intros flash Hin. rewrite Hf. apply H. right. exact Hin.
Qed.

Lemma lastWith_app id l1 l2 :
  lastWith id (l1 ++ l2)
  = match lastWith id l2 with
    | Some flash => Some flash
    | None => lastWith id l1
    end.
Proof.
  unfold lastWith. rewrite rev_app_distr.
  induction (rev l2) as [|f l IH]; [reflexivity|].
  cbn [app find]. destruct (String.eqb (FlashlightColor.id f) id); [reflexivity|exact IH].
Qed.

Lemma merge_facts (base dynamic : list FlashlightColor.t) :
  dynamic <> [] ->
  map FlashlightColor.id (mergeFlashlights base (Some dynamic))
  = firstOccurrences (map FlashlightColor.id (base ++ dynamic))
  /\ (forall id,
        find (fun flash => String.eqb (FlashlightColor.id flash) id)
          (mergeFlashlights base (Some dynamic))
        = lastWith id (base ++ dynamic))
  /\ mergeFlashlights (mergeFlashlights base (Some dynamic)) (Some dynamic)
     = mergeFlashlights base (Some dynamic).
Proof.
  intros Hne.
  set (M := fold_left setFlash dynamic (fold_left setFlash base [])).
  assert (Hm : forall b, mergeFlashlights b (Some dynamic)
               = map snd (fold_left setFlash dynamic (fold_left setFlash b []))).
  { intros b. destruct dynamic; [contradiction Hne|]; reflexivity. }
  assert (Hkeyed : keyed M).
  { apply fold_setFlash_keyed, fold_setFlash_keyed. constructor. }
  assert (Hkeys : map fst M = firstOccurrences (map FlashlightColor.id (base ++ dynamic)))
    by apply fold_setFlash_keys.
  assert (Hget : forall id, assocGet id M = lastWith id (base ++ dynamic)).
  { intros id. unfold M. rewrite !fold_setFlash_get, lastWith_app.
    destruct (lastWith id dynamic); [reflexivity|].
    destruct (lastWith id base); reflexivity. }
  rewrite !Hm. fold M. split; [|split].
  - rewrite keyed_ids by exact Hkeyed. exact Hkeys.
  - intros id. rewrite keyed_find by exact Hkeyed. apply Hget.
  - f_equal.
    rewrite (fold_setFlash_rebuild M []); [|exact Hkeyed|].
    2:{ cbn [app]. rewrite Hkeys. apply firstOccurrences_NoDup. }
    cbn [app]. apply assoc_ext.
    + rewrite fold_setFlash_known_keys.
      * rewrite Hkeys. apply firstOccurrences_NoDup.
      * intros flash Hin. rewrite Hkeys. apply firstOccurrences_In.
        apply in_map. apply in_or_app. right. exact Hin.
    + apply fold_setFlash_known_keys.
      intros flash Hin. rewrite Hkeys. apply firstOccurrences_In.
      apply in_map. apply in_or_app. right. exact Hin.
    + intros key. rewrite fold_setFlash_get, Hget, lastWith_app.
      destruct (lastWith key dynamic); reflexivity.
Qed.

(** X27. [mergeFlashlights] with dynamic flashlights: later entries win.
    When the dynamic list is not empty, the merged list holds every id of
    the base list and of the dynamic list once, in the order in which the
    ids first occur in the base list followed by the dynamic list; the
    flashlight it holds for an id is the last one that carries the id, so a
    dynamic flashlight replaces a base flashlight of the same id in the
    place of the base flashlight; and merging the same dynamic list into
    the result again changes nothing. *)
Theorem merge_flashlights_later_entries_win
  (base dynamic : list FlashlightColor.t) :
  dynamic <> [] ->
  map FlashlightColor.id (mergeFlashlights base (Some dynamic))
  = firstOccurrences (map FlashlightColor.id (base ++ dynamic))
  /\ NoDup (map FlashlightColor.id (mergeFlashlights base (Some dynamic)))
  /\ (forall id,
        find (fun flash => String.eqb (FlashlightColor.id flash) id)
          (mergeFlashlights base (Some dynamic))
        = lastWith id (base ++ dynamic))
  /\ mergeFlashlights (mergeFlashlights base (Some dynamic)) (Some dynamic)
     = mergeFlashlights base (Some dynamic).
Proof.
  intros Hne. destruct (merge_facts base dynamic Hne) as (Hids & Hfind & Hidem).
  split; [exact Hids|split; [|split; [exact Hfind|exact Hidem]]].
  rewrite Hids. apply firstOccurrences_NoDup.
Qed.

End FlashlightFacts.

(** ** The guards of the route *)

Section GuardFacts.

Import Submission.

Variable defaultMessage : ZodCode -> option Json -> string.
Variable Date_parse : string -> Js.number.

Lemma honey_filled_iff (honey : string) :
  negb (isEmpty honey) && (0 <? String.length (Js.trim honey))%nat = true
  <-> Js.trim honey <> "".
Proof.
  change (isEmpty honey) with (String.length honey =? 0)%nat.
  split.
  - intros H. apply andb_true_iff in H. destruct H as [_ H].
    intros E. rewrite E in H. discriminate H.
  - intros H. apply andb_true_iff. split.
    + apply negb_true_iff. destruct (String.length honey =? 0)%nat eqn:E;
        [|reflexivity].
      apply trim_blank_of_empty in E.
      destruct (Js.trim honey); [contradiction H; reflexivity|discriminate E].
    + destruct (Js.trim honey); [contradiction H; reflexivity|reflexivity].
Qed.

(** X28. The route turns a request away before it looks the form up.  A
    request without a session, one whose body fails the request schema and
    one whose honeypot holds more than white space get their answer (401,
    422, 400) whatever forms are stored: the outcome is the same for every
    store.  The honeypot answer is given exactly for a signed-in request
    whose body passes the schema and whose [honey] is not blank after
    trimming, so a filled honeypot hides whether the form exists.  A body
    that is not JSON is read as the empty object and fails the schema with
    an issue under [answers]. *)
Theorem post_turns_away_before_lookup
  (findFirst findFirst' : string -> string -> option Form.t)
  (session : option string) (formId : string) (body : option Json) :
  ((POST defaultMessage Date_parse findFirst session formId body = Unauthorized
    \/ (exists issues,
          POST defaultMessage Date_parse findFirst session formId body
          = SchemaFailed issues)
    \/ POST defaultMessage Date_parse findFirst session formId body = Suspicious) ->
   POST defaultMessage Date_parse findFirst' session formId body
   = POST defaultMessage Date_parse findFirst session formId body)
  /\ (POST defaultMessage Date_parse findFirst session formId body = Suspicious
      <-> exists userId payload honey,
            session = Some userId
            /\ safeParse defaultMessage (bodyJson body) = ParseSuccess payload
            /\ Payload.honey payload = Some honey
            /\ Js.trim honey <> "")
  /\ (forall userId,
        exists issues message,
          POST defaultMessage Date_parse findFirst (Some userId) formId None
          = SchemaFailed issues
          /\ In {| ResponseIssue.path := "answers";
                   ResponseIssue.message := message |} issues).
Proof.
  split; [|split].
  - unfold POST. destruct session as [userId|]; [|reflexivity].
    destruct (safeParse defaultMessage (bodyJson body)) as [payload|zis];
      [|reflexivity].
    destruct (match Payload.honey payload with
              | Some honey =>
                  negb (isEmpty honey)
                  && (0 <? String.length (Js.trim honey))%nat
              | None => false
              end); [reflexivity|].
    unfold submit.
    destruct (findFirst formId userId) as [form|].
    + destruct (0 <? _)%nat; intros [H|[[? H]|H]]; discriminate H.
    + intros [H|[[? H]|H]]; discriminate H.
  - unfold POST. split.
    + destruct session as [userId|]; [|discriminate].
      destruct (safeParse defaultMessage (bodyJson body)) as [payload|zis];
        [|discriminate].
      destruct (Payload.honey payload) as [honey|] eqn:Hhoney.
      * destruct (negb (isEmpty honey)
                  && (0 <? String.length (Js.trim honey))%nat) eqn:Hfilled.
        -- intros _. exists userId, payload, honey.
           repeat split; try assumption. apply honey_filled_iff. exact Hfilled.
        -- unfold submit. cbv zeta.
           destruct (findFirst formId userId) as [form|]; [|discriminate].
           destruct (0 <? List.length _)%nat; discriminate.
      * unfold submit. cbv zeta.
        destruct (findFirst formId userId) as [form|]; [|discriminate].
        destruct (0 <? List.length _)%nat; discriminate.
    + intros (userId & payload & honey & -> & -> & -> & Hne).
      rewrite (proj2 (honey_filled_iff honey) Hne). reflexivity.
  - intros userId. unfold POST, bodyJson, safeParse, createResponseSchema.
    cbn. eexists. eexists. split; [reflexivity|].
    left. reflexivity.
Qed.

End GuardFacts.

(** ** The metadata of a stored response *)

Section MetadataFacts.

Import Submission Metadata.

Lemma firstPiece_no_comma (s : string) :
  ~ In ","%char (list_ascii_of_string (firstPiece s)).
Proof.
  induction s as [|c s IH]; cbn [firstPiece]; [intros []|].
  destruct (Ascii.eqb_spec c ","%char) as [->|Hne]; [intros []|].
  cbn [list_ascii_of_string]. intros [H|H]; [congruence|exact (IH H)].
Qed.

Lemma trimChars_incl (l : list ascii) (c : ascii) :
  In c (Js.trimChars l) -> In c l.
Proof.
  unfold Js.trimChars. intros H. apply in_rev in H.
  destruct (trimStartChars_suffix (rev (Js.trimStartChars l))) as [ws Hws].
  assert (H1 : In c (rev (Js.trimStartChars l))).
  { rewrite Hws. apply in_or_app. right. exact H. }
  apply in_rev in H1.
  destruct (trimStartChars_suffix l) as [ws' Hws'].
  rewrite Hws'. apply in_or_app. right. exact H1.
Qed.

(** X29. The metadata stored with a response.  The user agent sent in the
    body wins over the request header, also when it is the empty string;
    time zone and fingerprint come from the body only.  The address is the
    text before the first comma of [x-forwarded-for], trimmed, and
    [x-real-ip] is read only when [x-forwarded-for] is not sent (an empty
    [x-forwarded-for] gives the empty address); the stored address is
    trimmed and has no comma.  No metadata is stored exactly when the body
    gives none of the three and none of the three headers is sent. *)
Theorem request_metadata_content
  (meta : option Meta.t) (xForwardedFor xRealIp userAgentHeader : option string) :
  (requestMetadata meta xForwardedFor xRealIp userAgentHeader = None
   <-> xForwardedFor = None /\ xRealIp = None /\ userAgentHeader = None
       /\ metaPart Meta.userAgent meta = None
       /\ metaPart Meta.timezone meta = None
       /\ metaPart Meta.fingerprint meta = None)
  /\ (forall metadata,
        requestMetadata meta xForwardedFor xRealIp userAgentHeader
        = Some metadata ->
        userAgent metadata
        = match metaPart Meta.userAgent meta with
          | Some u => Some u
          | None => userAgentHeader
          end
        /\ timezone metadata = metaPart Meta.timezone meta
        /\ fingerprint metadata = metaPart Meta.fingerprint meta
        /\ ipAddress metadata
           = match xForwardedFor, xRealIp with
             | Some v, _ => Some (Js.trim (firstPiece v))
             | None, Some v => Some (Js.trim (firstPiece v))
             | None, None => None
             end
        /\ (forall ip,
              ipAddress metadata = Some ip ->
              Js.trim ip = ip /\ ~ In ","%char (list_ascii_of_string ip))).
Proof.
  split.
  - unfold requestMetadata. cbn [ipAddress userAgent timezone fingerprint].
    destruct xForwardedFor as [f|], xRealIp as [r|], userAgentHeader as [h|];
      destruct (metaPart Meta.userAgent meta) as [u|],
               (metaPart Meta.timezone meta) as [z|],
               (metaPart Meta.fingerprint meta) as [p|];
      split; try discriminate; try (intros (?&?&?&?&?&?); discriminate);
      try reflexivity; intros _; repeat split.
  - intros metadata H.
    assert (Hm : metadata
                 = {| ipAddress :=
                        match xForwardedFor, xRealIp with
                        | Some v, _ => Some (Js.trim (firstPiece v))
                        | None, Some v => Some (Js.trim (firstPiece v))
                        | None, None => None
                        end;
                      userAgent :=
                        match metaPart Meta.userAgent meta with
                        | Some u => Some u
                        | None => userAgentHeader
                        end;
                      timezone := metaPart Meta.timezone meta;
                      fingerprint := metaPart Meta.fingerprint meta |}).
    { revert H. unfold requestMetadata.
      cbn [ipAddress userAgent timezone fingerprint].
      destruct xForwardedFor as [f|], xRealIp as [r|], userAgentHeader as [h|];
        destruct (metaPart Meta.userAgent meta) as [u|],
                 (metaPart Meta.timezone meta) as [z|],
                 (metaPart Meta.fingerprint meta) as [p|];
        intros H; inversion H; reflexivity. }
    subst metadata. cbn [ipAddress userAgent timezone fingerprint].
    repeat (split; [reflexivity|]).
    assert (Hip : forall v ip, Some (Js.trim (firstPiece v)) = Some ip ->
                  Js.trim ip = ip /\ ~ In ","%char (list_ascii_of_string ip)).
    { intros v ip E. inversion E; subst. split; [apply trim_idempotent|].
      unfold Js.trim. rewrite list_ascii_of_string_of_list_ascii.
      intros Hin. apply trimChars_incl in Hin.
      exact (firstPiece_no_comma v Hin). }
    intros ip. destruct xForwardedFor as [f|]; [apply Hip|].
    destruct xRealIp as [r|]; [apply Hip|discriminate].
Qed.

End MetadataFacts.

(** ** The properties on sample inputs *)

Section MoreSamples.

Import Builder Editor ThemeView Submission Normal Responses Preview Flashlights.
Import Sample.

Lemma reorder_field_up_down_round_trip_witness :
  builderReducer countingIds
    (builderReducer countingIds pairState (REORDER_FIELD "b" up))
    (REORDER_FIELD "b" down)
  = pairState.
Proof.
  refine (proj1 (reorder_field_up_down_round_trip countingIds pairState "b"
                   [] [] (nameField "a") (nameField "b") eq_refl _) _ _).
  - intros f [].
  - vm_compute. discriminate.
  - reflexivity.
Defined.

Lemma pairState_uniqueIds : uniqueIds pairState.
Proof.
  unfold uniqueIds. vm_compute.
  constructor; [intros [H|[]]; discriminate H|].
  constructor; [intros []|constructor].
Qed.

Lemma unique_ids_preserved_witness :
  uniqueIds (builderReducer countingIds pairState (DUPLICATE_FIELD "a")).
Proof.
  apply (unique_ids_preserved countingIds pairState (DUPLICATE_FIELD "a")).
  - exact pairState_uniqueIds.
  - intros f [<-|[<-|[]]]; vm_compute; discriminate.
Defined.

Lemma selection_valid_preserved_witness :
  selectionValid (builderReducer countingIds pairState (REMOVE_FIELD "a"))
  /\ (selectedField (builderReducer countingIds pairState (REMOVE_FIELD "a")) = None
      <-> BuilderState.selectedFieldId
            (builderReducer countingIds pairState (REMOVE_FIELD "a")) = None).
Proof.
  apply (selection_valid_preserved countingIds pairState (REMOVE_FIELD "a")).
  - left. reflexivity.
  - exact I.
Defined.

Lemma option_editor_changes_options_only_witness :
  FieldChanges.options (handleAdd countingIds choiceField)
  = Some (Some (yesNo ++ [{| FieldOption.id := "id-0";
                             FieldOption.label := "Option 3";
                             FieldOption.value := "option-3" |}])).
Proof.
  refine (proj2 (proj2 (proj2
            (option_editor_changes_options_only countingIds choiceState
               [] [] choiceField "o1" "Maybe" eq_refl _ _))));
    intros f [].
Defined.

Lemma accepted_submission_is_complete_witness :
  fieldMap_has (Form.fields contactForm) "name" = true
  /\ exists p,
       In p (answersToPersist
               (validateAnswers noDates (Form.fields contactForm)
                  [answerOf "name" (JString "Ada")]))
       /\ Persist.fieldId p = "name".
Proof.
  destruct (accepted_submission_is_complete noDates
              (Form.fields contactForm)
              [answerOf "name" (JString "Ada")] eq_refl) as [Hall Hreq].
  split.
  - apply (Hall (answerOf "name" (JString "Ada"))). left. reflexivity.
  - apply (Hreq (fieldRow "name" "short_text" true JNull));
      [left; reflexivity|reflexivity].
Defined.

Lemma later_answers_for_answered_fields_are_ignored_witness :
  validateAnswers noDates (Form.fields contactForm)
    ([answerOf "name" (JString "Ada")] ++ [answerOf "name" (JString "Bob")])
  = validateAnswers noDates (Form.fields contactForm)
      [answerOf "name" (JString "Ada")].
Proof.
  apply (later_answers_for_answered_fields_are_ignored noDates).
  intros e [<-|[]]. split; reflexivity.
Defined.

Lemma resubmitting_persisted_answers_is_accepted_witness :
  POST plainMessages noDates (oneForm contactForm "owner") (Some "owner")
    "form-1"
    (Some (JObject [("answers",
                     JArray [JObject [("fieldId", JString "name");
                                      ("value", JString "Ada")]])]))
  = Created
      {| CreateData.formId := "form-1";
         CreateData.completionMs := None;
         CreateData.answers_create :=
           [{| CreateAnswer.value := JString "Ada";
               CreateAnswer.field_connect_id := "name" |}] |}.
Proof.
  refine (proj1 (resubmitting_persisted_answers_is_accepted plainMessages
                   noDates (oneForm contactForm "owner") (Some "owner") "form-1"
                   (Some (JObject [("answers",
                                    JArray [JObject [("fieldId", JString "name");
                                                     ("value", JString " Ada ")]]);
                                   ("completionMs", JNumber (Js.Finite (1200 # 1)))]))
                   {| CreateData.formId := "form-1";
                      CreateData.completionMs := Some (Js.Finite (1200 # 1));
                      CreateData.answers_create :=
                        [{| CreateAnswer.value := JString "Ada";
                            CreateAnswer.field_connect_id := "name" |}] |}
                   _ _) _).
  - intros userId form Hform. unfold oneForm in Hform.
    destruct (String.eqb "form-1" (Form.id contactForm) && String.eqb userId "owner");
      [|discriminate Hform].
    inversion Hform; subst form.
    constructor; [intros []|constructor].
  - vm_compute. reflexivity.
  - discriminate.
Defined.

Lemma request_schema_accepts_encoded_answers_witness :
  safeParse plainMessages
    (JObject [("answers", JArray (map encodeAnswer [answerOf "name" (JString "Ada")]));
              ("extra", JBool true)])
  = ParseSuccess (payloadOf [answerOf "name" (JString "Ada")]).
Proof.
  apply (request_schema_accepts_encoded_answers plainMessages);
    [discriminate|reflexivity..].
Defined.

Lemma request_schema_output_is_well_formed_witness :
  forallb answerAccepted [answerOf "name" (JString "Ada")] = true.
Proof.
  refine (proj1 (proj2 (request_schema_output_is_well_formed plainMessages
            (JObject [("answers",
                       JArray [JObject [("fieldId", JString "name");
                                        ("value", JString "Ada")]])])
            (payloadOf [answerOf "name" (JString "Ada")]) _))).
  vm_compute. reflexivity.
Defined.

Lemma responses_list_sorts_answers_by_field_order_witness :
  exists views,
    GET plainDates listedForms storedResponses (Some "owner") "form-1"
    = GetOk "form-1" views
    /\ map ResponseView.id views = ["r1"].
Proof.
  destruct (responses_list_sorts_answers_by_field_order plainDates listedForms
              storedResponses "owner" "form-1" listedForm eq_refl)
    as (views & Hget & Hids & _).
  exists views. split; [exact Hget|exact Hids].
Defined.

Lemma preview_accepted_text_is_accepted_by_route_witness :
  processField noDates [answerOf "a" (JString " Ada ")] emptyAcc
    (fieldRow "a" "short_text" false JNull)
  = pushAnswer "a" (JString "Ada") emptyAcc.
Proof.
  destruct (preview_accepted_text_is_accepted_by_route plainNumbers noDates
              (nameField "a") (fieldRow "a" "short_text" false JNull) " Ada "
              [answerOf "a" (JString " Ada ")] emptyAcc
              (answerOf "a" (JString " Ada ")))
    as [[_ H]|[H _]].
  - split; [reflexivity|split; reflexivity].
  - left. reflexivity.
  - reflexivity.
  - reflexivity.
  - reflexivity.
  - exact H.
  - vm_compute in H. discriminate H.
Defined.

Lemma untouched_form_submits_iff_nothing_required_witness :
  handleSubmit plainNumbers [nameField "a"; nameField "b"]
    (createInitialValues [nameField "a"; nameField "b"])
  = Some true.
Proof.
  apply (untouched_form_submits_iff_nothing_required plainNumbers
           [nameField "a"; nameField "b"]).
  constructor; [intros [H|[]]; discriminate H|].
  constructor; [intros []|constructor].
Defined.

Lemma merge_flashlights_later_entries_win_witness :
  map FlashlightColor.id
    (mergeFlashlights [flash "sun" "#ff0"; flash "sea" "#00f"]
       (Some [flash "sun" "#fa0"; flash "moss" "#0f0"]))
  = ["sun"; "sea"; "moss"]
  /\ find (fun f => String.eqb (FlashlightColor.id f) "sun")
       (mergeFlashlights [flash "sun" "#ff0"; flash "sea" "#00f"]
          (Some [flash "sun" "#fa0"; flash "moss" "#0f0"]))
     = Some (flash "sun" "#fa0").
Proof.
  destruct (merge_flashlights_later_entries_win
              [flash "sun" "#ff0"; flash "sea" "#00f"]
              [flash "sun" "#fa0"; flash "moss" "#0f0"])
    as (Hids & _ & Hfind & _); [discriminate|].
  split; [exact Hids|exact (Hfind "sun")].
Defined.

End MoreSamples.
